(** * PerformanceComparison: the benchmark harness and its kernels

  A shallow embedding of [benchmark.py], [src/utils.py] and the kernel
  modules of [src/methods/], with the properties of the harness that the
  specification states.

  Layout of the development:
  - [Float64]: IEEE-754 binary64 values (NumPy's [float64], Python's
    [float]) on the Standard Library's [spec_float];
  - [Py]: the exceptions and the results of fallible operations;
  - [Numpy]: arrays, the element conversions and the library functions the
    kernels call;
  - [Interp]: object identities, the heap of arrays, the
    state-and-exception monad, and the statements of setup code;
  - one module per file of [src/methods/], under the file's name;
  - [Format]: the format specifications of the report;
  - [utils], [benchmark]: the two harness files;
  - the vocabulary of the properties, and the properties, last. *)

From Stdlib Require Import ZArith Bool List Lia Ascii String Permutation.
From Stdlib Require Import SpecFloat.
From stdpp Require Import base option list gmap strings pretty.

Local Open Scope Z_scope.

(** ** Floating point *)

Module Float64.

Definition prec : Z := 53.
Definition emax : Z := 1024.

Definition float : Type := spec_float.

(** Conversion of an integer literal that meets a float operand. *)
Definition of_int (z : Z) : float := binary_normalize prec emax z 0 false.

Definition mul (x y : float) : float := SFmul prec emax x y.
Definition add (x y : float) : float := SFadd prec emax x y.
Definition div (x y : float) : float := SFdiv prec emax x y.
Definition ltb (x y : float) : bool := SFltb x y.
Definition leb (x y : float) : bool := SFleb x y.
Definition eqb (x y : float) : bool := SFeqb x y.

Definition zero : float := S754_zero false.
Definition one : float := Eval vm_compute in of_int 1.
Definition f255 : float := Eval vm_compute in of_int 255.

(** A decimal literal [n/d] is read as the float nearest to it. *)
Definition decimal (n d : Z) : float := div (of_int n) (of_int d).

Definition is_nan (x : float) : bool :=
  match x with S754_nan => true | _ => false end.

Definition is_finite (x : float) : bool :=
  match x with S754_zero _ | S754_finite _ _ _ => true | _ => false end.

Definition valid (x : float) : bool := valid_binary prec emax x.

(** The integral part, rounding toward zero; nothing for NaN and the
    infinities. *)
Definition trunc (x : float) : option Z :=
  match x with
  | S754_zero _ => Some 0
  | S754_finite s m e => Some (cond_Zopp s (Z.shiftl (Zpos m) e))
  | S754_infinity _ | S754_nan => None
  end.

End Float64.

Import Float64.


(** ** The interpreter: exceptions and results *)

Module Py.

(** The exceptions the modelled code can raise.  [Unmodelled] is not one
    of Python's: it marks arguments outside the embedding, which the
    harness never passes: a [start_array] that is no 2-D float array, an
    [end_array] that is no 3-channel integer image. *)
Inductive exn : Set :=
  | IndexError | ValueError | OverflowError | AttributeError | NameError
  | ZeroDivisionError | ImportError | TypeError
  | Unmodelled.

Inductive res (A : Type) : Type :=
  | Ok (a : A)
  | Err (e : exn).
Arguments Ok {A} a.
Arguments Err {A} e.

#[global] Instance res_ret : MRet res := @Ok.
#[global] Instance res_bind : MBind res :=
  fun A B f m => match m with Ok a => f a | Err e => Err e end.

Fixpoint mapM {A B} (f : A -> res B) (l : list A) : res (list B) :=
  match l with
  | [] => Ok []
  | a :: l' => b ← f a; bs ← mapM f l'; Ok (b :: bs)
  end.

Definition range (n : nat) : list nat := seq 0 n.

(** [int(x)] on a float: the integral part; NaN and the infinities raise. *)
Definition int (x : float) : res Z :=
  match x with
  | S754_nan => Err ValueError
  | S754_infinity _ => Err OverflowError
  | _ => match trunc x with Some z => Ok z | None => Err ValueError end
  end.

End Py.

Import Py.

(** ** Arrays *)

Module Numpy.

Inductive dtype : Set :=
  | uint8 | int32 | int64 | uint64 | float64
  | promoted.  (* what [array] picks for Python integers beyond int64
                  (uint64, float64 or object); no kernel result inside the
                  nominal input range has it *)

#[global] Instance dtype_eq_dec : EqDecision dtype.
Proof. solve_decision. Defined.

Definition dtype_name (dt : dtype) : string :=
  match dt with
  | uint8 => "uint8" | int32 => "int32" | int64 => "int64"
  | uint64 => "uint64" | float64 => "float64" | promoted => "object"
  end.

(** One position of the two leading axes of an image: the three channels. *)
Definition cell : Type := Z * Z * Z.

(** The arrays of the program: the 2-D float field, the 3-D integer image
    whose last axis has length 3, and the arrays [array] builds from empty
    lists, which have neither form. *)
Inductive ndarray : Type :=
  | Field (rows : list (list float))
  | Image (dt : dtype) (rows : list (list cell))
  | Empty (dt : dtype) (shape : list nat).

Definition width {A} (rows : list (list A)) : nat :=
  match rows with [] => 0%nat | r :: _ => length r end.

Definition shape (a : ndarray) : list nat :=
  match a with
  | Field rows => [length rows; width rows]
  | Image _ rows => [length rows; width rows; 3%nat]
  | Empty _ sh => sh
  end.

Definition dtype_of (a : ndarray) : dtype :=
  match a with
  | Field _ => float64
  | Image dt _ => dt
  | Empty dt _ => dt
  end.

(** Every row has the length [c]: the list of lists is a [_ x c] array. *)
Definition rect {A} (c : nat) (rows : list (list A)) : Prop :=
  Forall (fun r => length r = c) rows.

(** The range of an integer element type. *)
Definition in_range (dt : dtype) (z : Z) : bool :=
  match dt with
  | uint8 => (0 <=? z) && (z <? 2 ^ 8)
  | int32 => (- 2 ^ 31 <=? z) && (z <? 2 ^ 31)
  | int64 => (- 2 ^ 63 <=? z) && (z <? 2 ^ 63)
  | uint64 => (0 <=? z) && (z <? 2 ^ 64)
  | float64 | promoted => true
  end.

(** Where C leaves the conversion of a float to an integer type undefined
    (a NaN, an infinity, an integral part outside the type) NumPy stores
    what the conversion of the platform gives, warns of an "invalid value
    encountered in cast" and goes on; nothing is raised.  Of the value
    stored only the type is known.  [platform] stands for the conversions
    of the platform: one of the functions into the element types, closed
    with [Qed] so that no property can depend on which one it is. *)
Definition platform :
  {c : dtype -> float -> Z | forall dt v, in_range dt (c dt v) = true}.
Proof. exists (fun _ _ => 0). intros dt v. now destruct dt. Qed.

Definition unspecified (dt : dtype) (v : float) : Z := proj1_sig platform dt v.

(** Storing a float into an integer array converts it as C does: the
    fraction is dropped; an integral part in the range of the target is
    the value stored, and every other float gives the platform's value. *)
Definition cast (dt : dtype) (v : float) : Z :=
  match trunc v with
  | Some z => if in_range dt z then z else unspecified dt v
  | None => unspecified dt v
  end.

(** [zeros((rows, cols, 3), dtype=dt)] *)
Definition zeros (rows cols : nat) (dt : dtype) : ndarray :=
  Image dt (replicate rows (replicate cols (0, 0, 0))).

(** *** Elementwise operations on a 2-D float array *)

Definition map2d {A B} (f : A -> B) (a : list (list A)) : list (list B) :=
  map (map f) a.

Definition zip2d {A B C} (f : A -> B -> C)
    (a : list (list A)) (b : list (list B)) : list (list C) :=
  zip_with (zip_with f) a b.

(** [a > 0] *)
Definition gt_scalar (a : list (list float)) (k : Z) : list (list bool) :=
  map2d (fun v => ltb (of_int k) v) a.

(** [k * a] and [a * k]: the scalar on the side the source has it. *)
Definition scalar_mul (k : Z) (a : list (list float)) : list (list float) :=
  map2d (fun v => mul (of_int k) v) a.
Definition mul_scalar (a : list (list float)) (k : Z) : list (list float) :=
  map2d (fun v => mul v (of_int k)) a.

(** [a * b] *)
Definition mul_arrays (a b : list (list float)) : list (list float) :=
  zip2d mul a b.

(** [where(cond, a, k)] *)
Definition where_ (cond : list (list bool)) (a : list (list float)) (k : Z)
    : list (list float) :=
  zip2d (fun (c : bool) v => if c then v else of_int k) cond a.

(** [maximum(v, lo)], which lets a NaN through. *)
Definition maximum (v lo : float) : float :=
  if leb lo v || is_nan v then v else lo.

(** [clip(a, lo, None)] *)
Definition clip_min (a : list (list float)) (lo : Z) : list (list float) :=
  map2d (fun v => maximum v (of_int lo)) a.

(** [heaviside(a, h0)] *)
Definition heaviside_cell (v h0 : float) : float :=
  if is_nan v then v
  else if eqb v zero then h0
  else if ltb v zero then zero
  else one.
Definition heaviside (a : list (list float)) (h0 : Z) : list (list float) :=
  map2d (fun v => heaviside_cell v (of_int h0)) a.

(** [piecewise(a, [cond], [f, k])]: [f] where [cond] holds, the constant
    [k] elsewhere. *)
Definition piecewise (a : list (list float)) (cond : list (list bool))
    (f : float -> float) (k : Z) : list (list float) :=
  zip2d (fun v (c : bool) => if c then f v else of_int k) a cond.

(** *** Reading and writing elements *)

(** [a.shape[i]] *)
Definition shape_at (a : ndarray) (i : nat) : res nat :=
  match shape a !! i with Some n => Ok n | None => Err IndexError end.

(** [a[x][y]] of a 2-D float array *)
Definition getitem2 (a : ndarray) (x y : nat) : res float :=
  match a with
  | Field rows =>
      match rows !! x with
      | Some row => match row !! y with Some v => Ok v | None => Err IndexError end
      | None => Err IndexError
      end
  | Image _ _ | Empty _ _ => Err Unmodelled
  end.

(** The rows of a 2-D float array, as iteration and the elementwise
    functions see them. *)
Definition as_field (a : ndarray) : res (list (list float)) :=
  match a with
  | Field rows => Ok rows
  | Image _ _ | Empty _ _ => Err Unmodelled
  end.

(** A Python number on the right of an assignment into an array. *)
Inductive scalar : Type :=
  | SInt (z : Z)
  | SFloat (v : float).

(** The element an integer array of type [dt] receives from the number. *)
Definition store (dt : dtype) (s : scalar) : res Z :=
  match s with
  | SFloat v => Ok (cast dt v)
  | SInt z => if in_range dt z then Ok z else Err OverflowError
  end.

(** [a[x, y] = (r, g, b)] *)
Definition setitem2 (a : ndarray) (x y : nat) (t : scalar * scalar * scalar)
    : res ndarray :=
  match a with
  | Image dt rows =>
      match rows !! x with
      | Some row =>
          if decide (y < length row)%nat then
            let '(r, g, b) := t in
            r' ← store dt r; g' ← store dt g; b' ← store dt b;
            Ok (Image dt (<[x := <[y := (r', g', b')]> row]> rows))
          else Err IndexError
      | None => Err IndexError
      end
  | Field _ | Empty _ _ => Err Unmodelled
  end.

(** [a[x, y, 0] = v] *)
Definition setitem3_0 (a : ndarray) (x y : nat) (v : scalar) : res ndarray :=
  match a with
  | Image dt rows =>
      match rows !! x with
      | Some row =>
          match row !! y with
          | Some (_, g, b) =>
              r' ← store dt v;
              Ok (Image dt (<[x := <[y := (r', g, b)]> row]> rows))
          | None => Err IndexError
          end
      | None => Err IndexError
      end
  | Field _ | Empty _ _ => Err Unmodelled
  end.

(** Broadcasting of one axis to the length [n]: the axis has that length
    already, or it has length 1 and is repeated. *)
Definition broadcast {A} (n : nat) (l : list A) : res (list A) :=
  if decide (length l = n) then Ok l
  else match l with [a] => Ok (replicate n a) | _ => Err ValueError end.

Definition set_channel0 (dt : dtype) (c : cell) (v : float) : res cell :=
  let '(_, g, b) := c in Ok (cast dt v, g, b).

Fixpoint zipM {A B C} (f : A -> B -> res C) (a : list A) (b : list B)
    : res (list C) :=
  match a, b with
  | x :: a', y :: b' => z ← f x y; zs ← zipM f a' b'; Ok (z :: zs)
  | _, _ => Ok []
  end.

(** [a[:, :, 0] = rhs] for a 2-D float [rhs] *)
Definition setitem_channel0 (a : ndarray) (rhs : list (list float)) : res ndarray :=
  match a with
  | Image dt rows =>
      rhs' ← broadcast (length rows) rhs;
      rhs'' ← mapM (broadcast (width rows)) rhs';
      rows' ← zipM (zipM (set_channel0 dt)) rows rhs'';
      Ok (Image dt rows')
  | Field _ | Empty _ _ => Err Unmodelled
  end.

(** [a[...] = v]: every element of the array receives the number. *)
Definition fill (a : ndarray) (v : float) : ndarray :=
  match a with
  | Field rows => Field (map2d (fun _ => v) rows)
  | Image dt rows =>
      Image dt (map2d (fun _ => (cast dt v, cast dt v, cast dt v)) rows)
  | Empty dt sh => Empty dt sh
  end.

(** *** Building arrays from Python lists *)

Definition fits (dt : dtype) (c : cell) : bool :=
  let '(r, g, b) := c in in_range dt r && in_range dt g && in_range dt b.

(** [array(l)] for a list of rows of 3-tuples of Python integers *)
Definition array (l : list (list cell)) : ndarray :=
  match l with
  | [] => Empty float64 [0%nat]
  | [] :: _ => Empty float64 [length l; 0%nat]
  | _ =>
      Image (if forallb (forallb (fits int64)) l then int64 else promoted) l
  end.

(** [array(l, dtype=dt)] for a list of 3-tuples: one row, as an array of
    its own *)
Definition array_row (dt : dtype) (l : list cell) : res (list cell) :=
  if forallb (fits dt) l then Ok l else Err OverflowError.

(** [array(rows, dtype=dt)] for a list of such row arrays *)
Definition array_stack (dt : dtype) (rows : list (list cell)) : ndarray :=
  match rows with
  | [] => Empty dt [0%nat]
  | [] :: _ => Empty dt [length rows; 0%nat]
  | _ => Image dt rows
  end.

End Numpy.

Import Numpy.

(** ** The interpreter: objects, state and effects *)

Module Interp.

(** A state-and-exception monad: what a statement has written stays
    written when a later one raises. *)
Definition ST (S A : Type) : Type := S -> res A * S.

#[global] Instance ST_ret {S} : MRet (ST S) := fun A a s => (Ok a, s).
#[global] Instance ST_bind {S} : MBind (ST S) :=
  fun A B f m s =>
    match m s with
    | (Ok a, s') => f a s'
    | (Err e, s') => (Err e, s')
    end.

Definition lift {S A} (r : res A) : ST S A := fun s => (r, s).
Definition raise {S A} (e : exn) : ST S A := fun s => (Err e, s).
Definition get {S} : ST S S := fun s => (Ok s, s).
Definition put {S} (s : S) : ST S unit := fun _ => (Ok tt, s).

(** An in-place update of the state that may raise: nothing is written
    then. *)
Definition update {S} (f : S -> res S) : ST S unit :=
  fun s => match f s with Ok s' => (Ok tt, s') | Err e => (Err e, s) end.

(** [for i in l: body(i)] *)
Fixpoint for_ {S I} (l : list I) (body : I -> ST S unit) : ST S unit :=
  match l with
  | [] => mret tt
  | i :: l' => _ ← body i; for_ l' body
  end.

(** Object identities. *)
Definition loc : Type := positive.

(** Values bound to names. *)
Inductive value : Type :=
  | VArray (l : loc)
  | VInt (z : Z)
  | VImported (module name : string)   (* a name a module exports *)
  | VModule (module : string)
  | VFunction (name : string)           (* a function a [def] creates *)
  | VResult (callee : string).          (* what a call of [callee] returned *)

Definition namespace : Type := gmap string value.

(** The statements of setup code: those the kernels' setup strings consist
    of and, last, the two with which a setup string reaches an array of the
    running program: the import of a name that a loaded module, [__main__]
    for one, binds to an array, and the assignment into an array. *)
Inductive stmt : Type :=
  | FromImport (module : string) (names : list string)
      (* from module import names *)
  | Import (module : string)
      (* import module *)
  | AssignZeros (target rows cols : string) (dt : dtype)
      (* target = zeros((rows, cols, 3), dtype=dt) *)
  | AssignCall (target callee : string)
      (* target = callee() *)
  | Def (name : string)
      (* def name(...): ... *)
  | FromImportArray (module name : string) (object : loc)
      (* from module import name, where the module binds name to the
         array [object] *)
  | AssignAll (target : string) (v : float).
      (* target[...] = v *)

Definition code : Type := list stmt.

(** What the run leaves for an observer: a ghost record of the timer's
    steps, next to the interpreter's own state. *)
Inductive event : Type :=
  | EvTimeit (number : nat)
      (* timeit(number) was entered *)
  | EvSetup (setup : code)
      (* the timer ran its setup code *)
  | EvCall (start_array end_array : loc) (buffer : option ndarray)
      (* the timed statement called process(start_array, end_array);
         [buffer] is what end_array held at that moment *)
  | EvProfiler (on : bool).
      (* the profiler was enabled, or disabled *)

(** The arrays alive, by identity. *)
Definition heap_t : Type := gmap loc ndarray.

(** Computations on the arrays alone: the kernels and the setup code. *)
Abbreviation H := (ST heap_t).

(** A new array object. *)
Definition alloc (a : ndarray) : H loc :=
  fun h => let l := fresh (dom h) in (Ok l, <[l := a]> h).

Definition load (l : loc) : H ndarray :=
  fun h => match h !! l with
           | Some a => (Ok a, h)
           | None => (Err NameError, h)
           end.

Definition write (l : loc) (a : ndarray) : H unit :=
  fun h => (Ok tt, <[l := a]> h).

(** Runs a computation on the array at [l], in place. *)
Definition with_array {A} (l : loc) (c : ST ndarray A) : H A :=
  a ← load l;
  let '(r, a') := c a in
  _ ← write l a';
  lift r.

(** [a.copy()] *)
Definition copy (l : loc) : H loc := a ← load l; alloc a.

(** The whole state of a run. *)
Record state : Type := {
  heap : heap_t;
  stdout : list string;         (* the lines printed so far *)
  clock : list float;           (* the durations the coming measurements
                                   will read off perf_counter *)
  trace : list event            (* ghost *)
}.

Abbreviation M := (ST state).

Definition set_heap (h : heap_t) (s : state) : state :=
  {| heap := h; stdout := stdout s; clock := clock s; trace := trace s |}.

Definition on_heap {A} (c : H A) : M A :=
  fun s => let '(r, h') := c (heap s) in (r, set_heap h' s).

Definition print (line : string) : M unit :=
  fun s => (Ok tt, {| heap := heap s; stdout := stdout s ++ [line];
                      clock := clock s; trace := trace s |}).

Definition log (e : event) : M unit :=
  fun s => (Ok tt, {| heap := heap s; stdout := stdout s;
                      clock := clock s; trace := trace s ++ [e] |}).

(** One measurement: the next duration of the clock. *)
Definition elapsed : M float :=
  fun s => match clock s with
           | [] => (Ok zero, s)
           | t :: ts => (Ok t, {| heap := heap s; stdout := stdout s;
                                  clock := ts; trace := trace s |})
           end.

(** *** Running setup code *)

(** A name is looked up in the local bindings, then in the globals. *)
Definition lookup_name (globals locals : namespace) (x : string) : res value :=
  match locals !! x with
  | Some v => Ok v
  | None => match globals !! x with Some v => Ok v | None => Err NameError end
  end.

Definition as_size (v : value) : res nat :=
  match v with VInt z => if 0 <=? z then Ok (Z.to_nat z) else Err ValueError
             | _ => Err ValueError end.

Definition exec_stmt (globals : namespace) (st : stmt) (locals : namespace)
    : H namespace :=
  match st with
  | FromImport m names =>
      mret (foldr (fun x ns => <[x := VImported m x]> ns) locals names)
  | Import m => mret (<[m := VModule m]> locals)
  | AssignZeros target rows cols dt =>
      _ ← lift (lookup_name globals locals "zeros");
      r ← lift (v ← lookup_name globals locals rows; as_size v);
      c ← lift (v ← lookup_name globals locals cols; as_size v);
      _ ← lift (lookup_name globals locals (dtype_name dt));
      l ← alloc (zeros r c dt);
      mret (<[target := VArray l]> locals)
  | AssignCall target callee =>
      _ ← lift (lookup_name globals locals callee);
      mret (<[target := VResult callee]> locals)
  | Def name => mret (<[name := VFunction name]> locals)
  | FromImportArray m name object => mret (<[name := VArray object]> locals)
  | AssignAll target v =>
      x ← lift (lookup_name globals locals target);
      match x with
      | VArray l => a ← load l; _ ← write l (fill a v); mret locals
      | VInt _ | VModule _ | VFunction _ => raise TypeError
      | VImported _ _ | VResult _ => raise Unmodelled
      end
  end.

Fixpoint exec (globals : namespace) (c : code) (locals : namespace) : H namespace :=
  match c with
  | [] => mret locals
  | st :: c' => locals' ← exec_stmt globals st locals; exec globals c' locals'
  end.

End Interp.

Import Interp.

(** ** The kernels of [src/methods/]

    Every file defines [setup], which returns the setup code, and
    [process(start_array, end_array)].  The free names of a [process] body
    ([where], [clip], [array], [n_jobs], ...) are bound by the import
    statements at the top of its own file, so the embedding refers to the
    definitions of [Numpy] directly. *)

Module nested_loop_method.

Definition setup : code := [].

(** The two loops, run on the buffer [end_array]. *)
Definition process_loops (start_array : ndarray) : ST ndarray unit :=
  rows ← lift (shape_at start_array 0);
  for_ (range rows) (fun x =>
    cols ← lift (shape_at start_array 1);
    for_ (range cols) (fun y =>
      v ← lift (getitem2 start_array x y);
      let res := if ltb (of_int 0) v then SFloat (mul v (of_int 255)) else SInt 0 in
      update (fun end_array => setitem2 end_array x y (res, SInt 0, SInt 0)))).

Definition process (start_array end_array : loc) : H loc :=
  s ← load start_array;
  _ ← with_array end_array (process_loops s);
  mret end_array.

End nested_loop_method.

Module where_method.

Definition setup : code := [FromImport "numpy" ["where"]].

Definition new_end_array (start_array : list (list float)) : list (list float) :=
  where_ (gt_scalar start_array 0) (scalar_mul 255 start_array) 0.

Definition process (start_array end_array : loc) : H loc :=
  s ← load start_array;
  f ← lift (as_field s);
  _ ← with_array end_array (update (fun a => setitem_channel0 a (new_end_array f)));
  mret end_array.

End where_method.

Module clip_method.

Definition setup : code := [FromImport "numpy" ["clip"]].

Definition rhs (start_array : list (list float)) : list (list float) :=
  mul_scalar (clip_min start_array 0) 255.

Definition process (start_array end_array : loc) : H loc :=
  s ← load start_array;
  f ← lift (as_field s);
  _ ← with_array end_array (update (fun a => setitem_channel0 a (rhs f)));
  mret end_array.

End clip_method.

Module heaviside_method.

Definition setup : code := [FromImport "numpy" ["heaviside"]].

Definition rhs (start_array : list (list float)) : list (list float) :=
  mul_scalar (mul_arrays (heaviside start_array 0) start_array) 255.

Definition process (start_array end_array : loc) : H loc :=
  s ← load start_array;
  f ← lift (as_field s);
  _ ← with_array end_array (update (fun a => setitem_channel0 a (rhs f)));
  mret end_array.

End heaviside_method.

Module piecewise_method.

Definition setup : code :=
  [FromImport "numpy" ["piecewise"]; Def "positive_multiplier"].

Definition rhs (start_array : list (list float)) : list (list float) :=
  piecewise start_array (gt_scalar start_array 0)
    (fun x => mul x (of_int 255)) 0.

Definition process (start_array end_array : loc) : H loc :=
  s ← load start_array;
  f ← lift (as_field s);
  _ ← with_array end_array (update (fun a => setitem_channel0 a (rhs f)));
  mret end_array.

End piecewise_method.

Module list_comprehension_method.

Definition setup : code := [FromImport "numpy" ["array"]].

Definition grid_array_list (start_array : list (list float)) : res (list (list cell)) :=
  mapM (mapM (fun value => r ← int (mul value (of_int 255)); Ok (r, 0, 0)))
    start_array.

Definition process (start_array end_array : loc) : H loc :=
  s ← load start_array;
  f ← lift (as_field s);
  l ← lift (grid_array_list f);
  alloc (array l).

End list_comprehension_method.

Module parallel_method.

Definition process_cell (value : float) : res cell :=
  r ← (if ltb (of_int 0) value then int (mul (of_int 255) value) else Ok 0);
  Ok (r, 0, 0).

Definition process_row (row : list float) : res (list cell) :=
  cells ← mapM process_cell row;
  array_row int32 cells.

Definition setup : code :=
  [FromImport "numpy" ["array"];
   FromImport "joblib" ["Parallel"; "delayed"];
   FromImport "multiprocessing" ["cpu_count"];
   AssignCall "n_jobs" "cpu_count";
   Def "process_cell";
   Def "process_row"].

(** [Parallel(n_jobs=n_jobs)(delayed(process_row)(row) for row in
    start_array)] is the list of the rows' results, in the order of the
    rows, whatever worker computed each. *)
Definition process (start_array end_array : loc) : H loc :=
  s ← load start_array;
  f ← lift (as_field s);
  new_end_array ← lift (mapM process_row f);
  alloc (array_stack int32 new_end_array).

End parallel_method.

Module dask_array_method.

Definition setup : code :=
  [FromImport "numpy" ["zeros"; "uint64"];
   Import "numba";
   AssignZeros "new_end_array" "GRID_ROW" "GRID_COL" uint64].

(** The compiled closure; its parameter [new_end_array] is the buffer the
    loops run on. *)
Definition numba_jit_method (start_array : ndarray) : ST ndarray unit :=
  rows ← lift (shape_at start_array 0);
  for_ (range rows) (fun x =>
    cols ← lift (shape_at start_array 1);
    for_ (range cols) (fun y =>
      v ← lift (getitem2 start_array x y);
      let res := if ltb (of_int 0) v then SFloat (mul (of_int 255) v) else SInt 0 in
      update (fun new_end_array => setitem3_0 new_end_array x y res))).

Definition process (start_array end_array : loc) : H loc :=
  s ← load start_array;
  _ ← with_array end_array (numba_jit_method s);
  mret end_array.

End dask_array_method.

(** ** Text formatting: the format specifications of the report *)

Module Format.

(** [f"{s:<w}"] and [f"{s:>w}"] *)
Definition ljust (w : nat) (s : string) : string :=
  s +:+ String.string_of_list_ascii (replicate (w - String.length s) " "%char).
Definition rjust (w : nat) (s : string) : string :=
  String.string_of_list_ascii (replicate (w - String.length s) " "%char) +:+ s.

(** The integer nearest to [n / d], ties to the even one ([0 < d]). *)
Definition round_half_even (n d : Z) : Z :=
  let q := n / d in
  let r := n mod d in
  match 2 * r ?= d with
  | Lt => q
  | Gt => q + 1
  | Eq => if Z.even q then q else q + 1
  end.

(** [f"{x:.{p}f}"]: the exact value of the float, rounded to [p] decimals. *)
Definition fixed (p : nat) (x : float) : string :=
  let digits (n : Z) :=
    let frac := pretty (n mod 10 ^ Z.of_nat p) in
    pretty (n / 10 ^ Z.of_nat p) +:+
    (if decide (p = 0%nat) then ""
     else "." +:+ String.string_of_list_ascii
                    (replicate (p - String.length frac) "0"%char) +:+ frac) in
  match x with
  | S754_nan => "nan"
  | S754_infinity s => if s then "-inf" else "inf"
  | S754_zero s => (if s then "-" else "") +:+ digits 0
  | S754_finite s m e =>
      let n := Zpos m * 10 ^ Z.of_nat p in
      (if s then "-" else "") +:+
      digits (if 0 <=? e then n * 2 ^ e else round_half_even n (2 ^ (- e)))
  end.

End Format.

(** ** [src/utils.py] *)

Module utils.

(** A loaded kernel module, as far as the harness looks at it: the
    attributes [setup] and [process], each of which a file may fail to
    define. *)
Record module : Type := {
  attr_setup : option code;
  attr_process : option (loc -> loc -> H loc)
}.

(** [module.name] *)
Definition getattr {A} (attr : option A) : res A :=
  match attr with Some a => Ok a | None => Err AttributeError end.

(** A dictionary in insertion order. *)
Definition dict (V : Type) : Type := list (string * V).

(** [d[k] = v] *)
Fixpoint dict_set {V} (k : string) (v : V) (d : dict V) : dict V :=
  match d with
  | [] => [(k, v)]
  | (k', v') :: d' =>
      if String.eqb k k' then (k, v) :: d' else (k', v') :: dict_set k v d'
  end.

Definition endswith (s suffix : string) : bool :=
  (String.length suffix <=? String.length s)%nat &&
  String.eqb
    (String.substring (String.length s - String.length suffix)
       (String.length suffix) s)
    suffix.

(** [s[:-n]] *)
Definition drop_last (n : nat) (s : string) : string :=
  String.substring 0 (String.length s - n) s.

Section Environment.

(** The noise generator [fn.genAsGrid], configured with [SEED] and
    [OCTAVES]; the entries of [src/methods] as [listdir] returns them; what
    [import_module] makes of a module name. *)
Variable genAsGrid : nat -> nat -> list (list float).
Variable listdir : list string.
Variable import_module : string -> res module.

Definition create_base_arrays (GRID_ROW GRID_COL : nat) : H (loc * loc) :=
  start_array ← alloc (Field (genAsGrid GRID_ROW GRID_COL));
  end_array ← alloc (zeros GRID_ROW GRID_COL uint8);
  mret (start_array, end_array).

Fixpoint import_all (method_files : list string) (methods : dict module)
    : res (dict module) :=
  match method_files with
  | [] => Ok methods
  | method_file :: rest =>
      module ← import_module ("src.methods." +:+ method_file);
      import_all rest (dict_set method_file module methods)
  end.

Definition create_methods_list : res (dict module) :=
  let method_files :=
    map (drop_last 3)
      (List.filter (fun f => endswith f ".py" && negb (String.eqb f "__init__.py"))
         listdir) in
  import_all method_files [].

End Environment.

End utils.

(** ** [benchmark.py] *)

Module benchmark.

Import utils.

(** The settings and constants at the top of the file. *)
Record settings : Type := {
  DEBUG : bool;
  SIZE : nat * nat;
  NUM_TRIALS : Z;
  NUM_WARMUP : Z
}.

Definition source_settings : settings :=
  {| DEBUG := false; SIZE := (2560%nat, 1440%nat);
     NUM_TRIALS := 1000; NUM_WARMUP := 1 |}.

(** *** [timeit.Timer] with a callable statement *)

Record Timer : Type := {
  stmt : M unit;          (* the callable, run once per loop *)
  timer_setup : code;     (* the setup string, compiled *)
  globals : namespace     (* the namespace the setup code runs in *)
}.

(** [timer.timeit(number)]: the setup code runs, in the timer's namespace
    and into bindings local to this call; the statement then runs [number]
    times between two readings of the clock. *)
Definition timeit (timer : Timer) (number : Z) : M float :=
  _ ← log (EvTimeit (Z.to_nat number));
  _ ← log (EvSetup (timer_setup timer));
  _ ← on_heap (exec (globals timer) (timer_setup timer) ∅);
  _ ← for_ (replicate (Z.to_nat number) tt) (fun _ => stmt timer);
  elapsed.

(** [lambda: process(start_array, end_array)], with the ghost record of the
    call. *)
Definition call (process : loc -> loc -> H loc) (start_array end_array : loc)
    : M unit :=
  buffer ← on_heap (fun h => (Ok (h !! end_array), h));
  _ ← log (EvCall start_array end_array buffer);
  _ ← on_heap (process start_array end_array);
  mret tt.

(** [sorted(l, key=key)]: a stable sort that compares keys with [<].
    Where [<] orders the keys totally, every stable sort returns the same
    list; the insertion sort stands for it. *)
Fixpoint insert_by {A} (key : A -> float) (x : A) (l : list A) : list A :=
  match l with
  | [] => [x]
  | y :: l' => if ltb (key y) (key x) then y :: insert_by key x l' else x :: l
  end.

Definition sorted {A} (key : A -> float) (l : list A) : list A :=
  foldr (insert_by key) [] l.

Section Run.

Variable cfg : settings.

(** The base arrays the module creates when it is loaded. *)
Variables start_array end_array : loc.

(** [benchmark(setup, process, start_array, end_array)].  Under [DEBUG]
    the profiler prints the table of its statistics after the timed
    measurement; what the table holds is a matter of the run, and the one
    line [(profiler statistics)] stands in the output for it. *)
Definition benchmark (setup : code) (process : loc -> loc -> H loc)
    (start_array end_array : loc) : M (float * float) :=
  let setup_code := setup in
  start_copy ← on_heap (copy start_array);
  end_copy ← on_heap (copy end_array);
  let _NS : namespace :=
    <["start_array" := VArray start_copy]>
    (<["end_array" := VArray end_copy]>
    (<["GRID_ROW" := VInt (Z.of_nat (SIZE cfg).1)]>
    (<["GRID_COL" := VInt (Z.of_nat (SIZE cfg).2)]> ∅))) in
  let timer := {| stmt := call process start_array end_array;
                  timer_setup := setup_code;
                  globals := _NS |} in
  _ ← (if 0 <? NUM_WARMUP cfg
       then for_ (range (Z.to_nat (NUM_WARMUP cfg)))
              (fun _ => _ ← timeit timer (NUM_WARMUP cfg); mret tt)
       else mret tt);
  _ ← (if DEBUG cfg then log (EvProfiler true) else mret tt);
  elapsed_time ← timeit timer (NUM_TRIALS cfg);
  _ ← (if DEBUG cfg
       then _ ← log (EvProfiler false); print "(profiler statistics)"
       else mret tt);
  avg ← lift (if NUM_TRIALS cfg =? 0 then Err ZeroDivisionError
              else Ok (mul (div elapsed_time (of_int (NUM_TRIALS cfg)))
                         (of_int 1000)));
  mret (elapsed_time, avg).

(** One entry of [results]: [(method_name, avg_time, total_time)]. *)
Definition result : Type := string * float * float.

Definition avg_time (r : result) : float := r.1.2.

Definition separator : string :=
  String.string_of_list_ascii (replicate 100 "-"%char).

Definition header : string :=
  pretty (SIZE cfg).1 +:+ "x" +:+ pretty (SIZE cfg).2 +:+ " | Runs: " +:+
  pretty (NUM_TRIALS cfg).

Definition result_line (r : result) : string :=
  let '(method_name, avg_time, total_time) := r in
  Format.ljust 50 method_name +:+
  Format.rjust 35 (Format.fixed 4 avg_time) +:+ " ms" +:+
  Format.rjust 10 (Format.fixed 2 total_time) +:+ " s".

(** The loop over [methods.items()], with [results] and [overall] as its
    variables. *)
Fixpoint run_methods (methods : dict module) (results : list result)
    (overall : float) : M (list result * float) :=
  match methods with
  | [] => mret (results, overall)
  | (method_name, module) :: rest =>
      setup ← lift (getattr (attr_setup module));
      process ← lift (getattr (attr_process module));
      '(total_time, avg_time) ← benchmark setup process start_array end_array;
      run_methods rest (results ++ [(method_name, avg_time, total_time)])
        (add overall total_time)
  end.

Definition display_results (methods : dict module) : M unit :=
  _ ← print separator;
  _ ← print (Format.ljust 40 "-> Benchmark started" +:+ Format.rjust 60 header);
  _ ← print separator;
  '(results, overall) ← run_methods methods [] (of_int 0);
  let sorted_results := sorted avg_time results in
  _ ← for_ sorted_results (fun r => print (result_line r));
  _ ← print separator;
  _ ← print (Format.ljust 50 "Total Runtime: " +:+
             Format.rjust 48 (Format.fixed 2 overall) +:+ " s");
  print separator.

Definition main (methods : dict module) : M unit := display_results methods.

End Run.

(** [python benchmark.py]: the module is loaded, which discovers the
    kernels and creates the base arrays, and [main] runs. *)
Definition program (cfg : settings)
    (genAsGrid : nat -> nat -> list (list float))
    (listdir : list string) (import_module : string -> res module) : M unit :=
  methods ← lift (create_methods_list listdir import_module);
  '(start_array, end_array) ←
    on_heap (create_base_arrays genAsGrid (SIZE cfg).1 (SIZE cfg).2);
  main cfg start_array end_array methods.

(** The directory [src/methods] of the repository, and its modules. *)
Definition kernel (setup : code) (process : loc -> loc -> H loc) : module :=
  {| attr_setup := Some setup; attr_process := Some process |}.

Definition source_listdir : list string :=
  ["clip_method.py"; "dask_array_method.py"; "heaviside_method.py";
   "list_comprehension_method.py"; "nested_loop_method.py";
   "parallel_method.py"; "piecewise_method.py"; "where_method.py"].

Definition source_modules : dict module :=
  [("clip_method", kernel clip_method.setup clip_method.process);
   ("dask_array_method", kernel dask_array_method.setup dask_array_method.process);
   ("heaviside_method", kernel heaviside_method.setup heaviside_method.process);
   ("list_comprehension_method",
     kernel list_comprehension_method.setup list_comprehension_method.process);
   ("nested_loop_method", kernel nested_loop_method.setup nested_loop_method.process);
   ("parallel_method", kernel parallel_method.setup parallel_method.process);
   ("piecewise_method", kernel piecewise_method.setup piecewise_method.process);
   ("where_method", kernel where_method.setup where_method.process)].

Definition import_from (files : dict module) (name : string) : res module :=
  match List.find (fun kv => String.eqb ("src.methods." +:+ kv.1) name) files with
  | Some kv => Ok kv.2
  | None => Err ImportError
  end.

End benchmark.

(** * Vocabulary of the properties *)

Import utils benchmark.

(** ** Cells, and the shapes the kernels share *)

(** The float each vectorised kernel assigns at a cell holding [v]. *)
Definition where_cell (v : float) : float :=
  if ltb (of_int 0) v then mul (of_int 255) v else of_int 0.
Definition clip_cell (v : float) : float :=
  mul (maximum v (of_int 0)) (of_int 255).
Definition heaviside_cell_rhs (v : float) : float :=
  mul (mul (heaviside_cell v (of_int 0)) v) (of_int 255).
Definition piecewise_cell (v : float) : float :=
  if ltb (of_int 0) v then mul v (of_int 255) else of_int 0.

(** A float of the format that is neither NaN nor minus infinity. *)
Definition ordinary (v : float) : bool :=
  valid v && negb (is_nan v) &&
  match v with S754_infinity true => false | _ => true end.

(** Two results that fail alike or succeed with related values. *)
Definition res_rel {A B} (R : A -> B -> Prop) (x : res A) (y : res B) : Prop :=
  match x, y with
  | Ok a, Ok b => R a b
  | Err e, Err e' => e = e'
  | _, _ => False
  end.

(** Floats an integer array cannot tell apart: they convert to the same
    element, whatever the element type. *)
Definition same_cast (u v : float) : Prop := forall dt, cast dt u = cast dt v.

(** The shape the four kernels share: a right-hand side computed from the
    field, assigned into channel 0 of the buffer. *)
Definition assign (rhs : list (list float) -> list (list float))
    (start_array end_array : loc) : H loc :=
  s ← load start_array;
  f ← lift (as_field s);
  _ ← with_array end_array (update (fun a => setitem_channel0 a (rhs f)));
  mret end_array.

(** The value channel 0 holds after a kernel: the integral part of 255
    times a positive cell, 0 for every other cell. *)
Definition pixel (v : float) : Z :=
  if ltb (of_int 0) v then default 0 (trunc (mul (of_int 255) v)) else 0.

(** 255 times the cell converts to an 8-bit unsigned integer, where the
    cell is positive: it has an integral part, and 8 bits hold it. *)
Definition storable (v : float) : bool :=
  if ltb (of_int 0) v
  then match trunc (mul (of_int 255) v) with
       | Some z => in_range uint8 z
       | None => false
       end
  else true.

(** The buffer and the field have the same two leading dimensions. *)
Definition same_shape {A B} (b : list (list A)) (f : list (list B)) : Prop :=
  length b = length f /\ rect (width b) b /\ rect (width b) f.

Definition put_channel0 (p : float -> Z) (c : cell) (v : float) : cell :=
  (p v, c.1.2, c.2).

(** The list while a loop rewrites it from the left: [k] elements done. *)
Definition done_prefix {A B} (u : A -> B -> A) (k : nat) (l : list A) (m : list B)
    : list A :=
  zip_with u (take k l) (take k m) ++ drop k l.

(** The two nested loops of the loop kernels, over the shape of the field. *)
Definition loops (body : nat -> nat -> ST ndarray unit) (start_array : ndarray)
    : ST ndarray unit :=
  rows ← lift (shape_at start_array 0);
  for_ (range rows) (fun x =>
    cols ← lift (shape_at start_array 1);
    for_ (range cols) (body x)).

(** A body that rewrites the cell [(x, y)] of the image by [u], from the
    cell of the field. *)
Definition rewrites_cell dt (u : cell -> float -> cell)
    (f : list (list float)) (body : nat -> nat -> ST ndarray unit) : Prop :=
  forall x y R row rf old v,
    R !! x = Some row -> row !! y = Some old ->
    f !! x = Some rf -> rf !! y = Some v ->
    body x y (Image dt R) = (Ok tt, Image dt (<[x := <[y := u old v]> row]> R)).

(** The body of the loops of [nested_loop_method.process]. *)
Definition nested_body (start_array : ndarray) (x y : nat) : ST ndarray unit :=
  v ← lift (getitem2 start_array x y);
  let res := if ltb (of_int 0) v then SFloat (mul v (of_int 255)) else SInt 0 in
  update (fun end_array => setitem2 end_array x y (res, SInt 0, SInt 0)).

(** The body of the loops of [dask_array_method.numba_jit_method]. *)
Definition dask_body (start_array : ndarray) (x y : nat) : ST ndarray unit :=
  v ← lift (getitem2 start_array x y);
  let res := if ltb (of_int 0) v then SFloat (mul (of_int 255) v) else SInt 0 in
  update (fun new_end_array => setitem3_0 new_end_array x y res).

(** The image every sign-consistent kernel leaves or returns. *)
Definition expected (f : list (list float)) : list (list cell) :=
  map2d (fun v => (pixel v, 0, 0)) f.

(** A cell of a nominal input field: a finite float of the format whose
    255-fold converts to 8 bits. *)
Definition nominal (v : float) : bool := valid v && is_finite v && storable v.

(** [a[x][y]] of a list of rows *)
Definition cell_at {A} (a : list (list A)) (x y : nat) : option A :=
  row ← a !! x; row !! y.

(** The image a kernel returns, whatever its element type. *)
Definition output_of (process : loc -> loc -> H loc) (s e : loc) (h : heap_t)
    : option (list (list cell)) :=
  match process s e h with
  | (Ok l, h') =>
      match h' !! l with Some (Image _ rows) => Some rows | _ => None end
  | (Err _, _) => None
  end.

(** The kernels that zero the cells that are not positive: all but
    [list_comprehension_method]; the reference [nested_loop_method] apart. *)
Definition sign_consistent : list (loc -> loc -> H loc) :=
  [where_method.process; clip_method.process; heaviside_method.process;
   piecewise_method.process; dask_array_method.process;
   parallel_method.process].

(** A heap with a field and a buffer of zeros of its shape, as
    [create_base_arrays] leaves them. *)
Definition base_heap (f : list (list float)) (rows cols : nat) : heap_t :=
  <[2%positive := zeros rows cols uint8]> (<[1%positive := Field f]> ∅).

(** The shape of the two kernels that build their result: a new array,
    computed from the field alone. *)
Definition returns_new (compute : ndarray -> res ndarray) (start_array : loc)
    : H loc :=
  a ← load start_array;
  r ← lift (compute a);
  alloc r.

Definition list_comprehension_result (a : ndarray) : res ndarray :=
  f ← as_field a;
  l ← list_comprehension_method.grid_array_list f;
  Ok (array l).

Definition parallel_result (a : ndarray) : res ndarray :=
  f ← as_field a;
  rows ← mapM parallel_method.process_row f;
  Ok (array_stack int32 rows).

(** 255 times the cell is finite and its integral part is in the range of
    [dt]. *)
Definition integral_in (dt : dtype) (v : float) : bool :=
  match int (mul v (of_int 255)) with
  | Ok z => in_range dt z
  | Err _ => false
  end.

(** The two kernels, each with the element type of its result. *)
Definition result_kernels : list ((loc -> loc -> H loc) * dtype) :=
  [(list_comprehension_method.process, int64);
   (parallel_method.process, int32)].

(** The integer the two kernels put into channel 0 of a cell they convert. *)
Definition int255 (v : float) : Z :=
  match int (mul v (of_int 255)) with Ok z => z | Err _ => 0 end.

(** ** The record of a run *)

(** Reading the ghost record. *)
Definition is_call (ev : event) : bool :=
  match ev with EvCall _ _ _ => true | _ => false end.

(** The number of calls of [process] the record holds. *)
Definition calls (t : list event) : nat := length (List.filter is_call t).

(** [n] calls of [process(s, e)], and nothing else. *)
Definition call_block (s e : loc) (n : nat) (t : list event) : Prop :=
  length t = n /\ Forall (fun ev => exists b, ev = EvCall s e b) t.

(** The record of one [timeit(n)]: its entry, the setup code, [n] calls. *)
Definition timeit_block (setup : code) (s e : loc) (n : nat) (t : list event)
    : Prop :=
  exists body, t = EvTimeit n :: EvSetup setup :: body /\ call_block s e n body.

(** The call is one of [process(s, e)]; every other event passes. *)
Definition call_on (s e : loc) (ev : event) : bool :=
  match ev with
  | EvCall s' e' _ => Pos.eqb s' s && Pos.eqb e' e
  | _ => true
  end.

(** The part of the record one benchmark of a kernel leaves: [n] calls, all
    of them calls of [process(s, e)], and no setup code but the kernel's. *)
Definition kernel_part (setup : code) (s e : loc) (n : nat) (t : list event)
    : Prop :=
  calls t = n /\ forallb (call_on s e) t = true /\
  Forall (fun ev => forall c, ev = EvSetup c -> c = setup) t.

(** The state a run starts from: nothing alive, nothing printed, and a clock
    with the readings [clock]. *)
Definition initial (clock : list float) : state :=
  {| heap := ∅; stdout := []; clock := clock; trace := [] |}.

(** ** Kernels and the heap *)

(** What a call of [process] gives back: the array it returns, or the
    exception. *)
Definition result_of (out : res loc * heap_t) : res (option ndarray) :=
  match out.1 with
  | Ok l => Ok (out.2 !! l)
  | Err x => Err x
  end.

(** The [process] functions of the kernels of the repository. *)
Definition registered : list (loc -> loc -> H loc) :=
  omap (fun kv : string * module => attr_process kv.2) source_modules.

(** The shape of the kernels that work in place: a computation on the
    buffer, from the field. *)
Definition in_place (c : ndarray -> ST ndarray unit) (start_array end_array : loc)
    : H loc :=
  a ← load start_array;
  _ ← with_array end_array (c a);
  mret end_array.

(** The assignment of the vectorised kernels, as a computation on the
    buffer. *)
Definition assigning (rhs : list (list float) -> list (list float))
    (a : ndarray) : ST ndarray unit :=
  f ← lift (as_field a);
  update (fun b => setitem_channel0 b (rhs f)).

(** [p] looks at the heap only at the two arrays it is given, and writes
    only the buffer and what it creates. *)
Definition local (p : loc -> loc -> H loc) : Prop :=
  forall (s e : loc) (h1 h2 : heap_t),
    is_Some (h1 !! s) -> is_Some (h1 !! e) ->
    h1 !! s = h2 !! s -> h1 !! e = h2 !! e ->
    result_of (p s e h1) = result_of (p s e h2) /\
    (p s e h1).2 !! e = (p s e h2).2 !! e /\
    (forall l a, l <> e -> h1 !! l = Some a -> (p s e h1).2 !! l = Some a).

(** [c] only adds arrays to the heap. *)
Definition extends {A} (c : H A) : Prop :=
  forall (h : heap_t) r h' l a,
    c h = (r, h') -> h !! l = Some a -> h' !! l = Some a.

(** The setup code assigns into no array: it imports, defines and binds
    names to objects it creates, as the setup strings of the repository
    do. *)
Definition assigns_nothing (c : code) : bool :=
  forallb (fun st => match st with AssignAll _ _ => false | _ => true end) c.

(** ** The report *)

(** The results whose average is [k], in the order of the list. *)
Definition with_avg (k : float) (results : list result) : list result :=
  List.filter (fun r => eqb (avg_time r) k) results.

(** Every element is at most the next one, by the average. *)
Definition ascending (results : list result) : Prop :=
  forall i a b,
    results !! i = Some a -> results !! S i = Some b ->
    leb (avg_time a) (avg_time b) = true.

(** Every element of the list is at most the next one, by its key. *)
Inductive chain {A} (key : A -> float) : list A -> Prop :=
  | chain_nil : chain key []
  | chain_one x : chain key [x]
  | chain_cons x y l :
      leb (key x) (key y) = true -> chain key (y :: l) ->
      chain key (x :: y :: l).

(** The lines of the report around the result lines. *)
Definition report_header (cfg : settings) : list string :=
  [separator;
   Format.ljust 40 "-> Benchmark started" +:+ Format.rjust 60 (header cfg);
   separator].

Definition report_footer (overall : float) : list string :=
  [separator;
   Format.ljust 50 "Total Runtime: " +:+
   Format.rjust 48 (Format.fixed 2 overall) +:+ " s";
   separator].

(** The place of the profiler's statistics in the output, once for each
    kernel, when [DEBUG] is set: the line that stands for the table. *)
Definition profiler_lines (cfg : settings) (n : nat) : list string :=
  if DEBUG cfg then replicate n "(profiler statistics)" else [].

(** The state after the lines have been printed. *)
Definition printed (lines : list string) (σ : state) : state :=
  {| heap := heap σ; stdout := stdout σ ++ lines;
     clock := clock σ; trace := trace σ |}.

(** The computation prints nothing but profiler statistics. *)
Definition prints_statistics {A} (c : M A) : Prop :=
  forall σ r σ', c σ = (r, σ') ->
    exists k, stdout σ' = stdout σ ++ replicate k "(profiler statistics)".

(** The module lacks one of the two functions the harness calls. *)
Definition malformed (m : module) : Prop :=
  attr_setup m = None \/ attr_process m = None.

Definition method_name (r : result) : string := r.1.1.
Definition total_time (r : result) : float := r.2.

(** ** A malformed definition *)

(** A definition file without [process]. *)
Definition broken_method : module :=
  {| attr_setup := Some []; attr_process := None |}.

(** A directory of two definitions, the second of them malformed, and the
    loading of its files. *)
Definition two_files : dict module :=
  [("where_method", kernel where_method.setup where_method.process);
   ("broken_method", broken_method)].

Definition load_two_files (name : string) : res module :=
  Ok (match import_from two_files name with Ok m => m | Err _ => broken_method end).

(** ** The kernels that work in place *)

(** The kernels that assign into channel 0 of the buffer and nothing else. *)
Definition channel0_kernels : list (loc -> loc -> H loc) :=
  [where_method.process; clip_method.process; heaviside_method.process;
   piecewise_method.process; dask_array_method.process].

(** The kernels that return the buffer they were given. *)
Definition in_place_kernels : list (loc -> loc -> H loc) :=
  nested_loop_method.process :: channel0_kernels.

(** The four kernels that compute a whole array and assign it at once. *)
Definition vectorised_kernels : list (loc -> loc -> H loc) :=
  [where_method.process; clip_method.process; heaviside_method.process;
   piecewise_method.process].

(** The same four, each with the float it assigns at a cell. *)
Definition vectorised_cells : list ((loc -> loc -> H loc) * (float -> float)) :=
  [(where_method.process, where_cell); (clip_method.process, clip_cell);
   (heaviside_method.process, heaviside_cell_rhs);
   (piecewise_method.process, piecewise_cell)].

(** The cell is below zero. *)
Definition negative (v : float) : bool := ltb v (of_int 0).

(** ** Discovery *)

(** The module names [create_methods_list] makes of a directory listing:
    the entries that end in [.py], [__init__.py] apart, without the
    suffix. *)
Definition method_files (listdir : list string) : list string :=
  map (drop_last 3)
    (List.filter (fun f => endswith f ".py" && negb (String.eqb f "__init__.py"))
       listdir).

(** ** What a run leaves of the arrays *)

(** Every array of [h] is alive in [h'], and is what it was unless it is
    [e]. *)
Definition frame (e : loc) (h h' : heap_t) : Prop :=
  forall l a, h !! l = Some a ->
    is_Some (h' !! l) /\ (l <> e -> h' !! l = Some a).

(** [p] deletes no array and changes none but the buffer it is given. *)
Definition keeps_arrays (p : loc -> loc -> H loc) : Prop :=
  forall s e h r h', p s e h = (r, h') -> frame e h h'.

(** The same of a step of the harness, for the buffer [e]. *)
Definition framed (e : loc) {A} (c : M A) : Prop :=
  forall σ r σ', c σ = (r, σ') -> frame e (heap σ) (heap σ').

(** ** A run that ends *)

(** A cell of the noise field: nominal, and with a 255-fold whose integral
    part [int32] holds. *)
Definition noise (v : float) : bool := nominal v && integral_in int32 v.

(** The arrays as a call of a kernel expects them: the field at [s] and, at
    [e], an 8-bit buffer of the field's shape. *)
Definition ready (f : list (list float)) (s e : loc) (h : heap_t) : Prop :=
  h !! s = Some (Field f) /\
  exists b, h !! e = Some (Image uint8 b) /\ same_shape b f.

(** On ready arrays [p] returns, and leaves them ready. *)
Definition returns_ready (f : list (list float)) (s e : loc)
    (p : loc -> loc -> H loc) : Prop :=
  forall h, ready f s e h ->
    exists l h', p s e h = (Ok l, h') /\ ready f s e h'.

(** The namespace [benchmark] gives the timer. *)
Definition timer_globals (start_copy end_copy : loc) (rows cols : Z) : namespace :=
  <["start_array" := VArray start_copy]>
  (<["end_array" := VArray end_copy]>
  (<["GRID_ROW" := VInt rows]>
  (<["GRID_COL" := VInt cols]> ∅))).

(** The setup code runs through in the timer's namespace. *)
Definition runs_through (setup : code) : Prop :=
  forall start_copy end_copy rows cols (h : heap_t),
    0 <= rows -> 0 <= cols ->
    exists ns h',
      exec (timer_globals start_copy end_copy rows cols) setup ∅ h = (Ok ns, h').

(** From a state that satisfies [I] the step returns, in such a state, and
    it prints nothing. *)
Definition returns_quietly (I : heap_t -> Prop) {A} (c : M A) : Prop :=
  forall σ, I (heap σ) ->
    exists a σ', c σ = (Ok a, σ') /\ I (heap σ') /\ stdout σ' = stdout σ.

(** A module of the repository's kind: both functions, a setup code that
    runs through and assigns into no array, a [process] that returns on
    ready arrays. *)
Definition measurable (f : list (list float)) (s e : loc) (m : module) : Prop :=
  exists setup process,
    attr_setup m = Some setup /\ attr_process m = Some process /\
    runs_through setup /\ assigns_nothing setup = true /\
    returns_ready f s e process.

(** ** What the measurements do to the arrays *)

(** [n] invocations of [process(s, e)], one after the other. *)
Definition invocations (process : loc -> loc -> H loc) (s e : loc) (n : nat)
    : H unit :=
  for_ (replicate n tt) (fun _ => _ ← process s e; mret tt).

(** One measurement of [n] invocations: the setup code, run in the
    namespace [g] into bindings of its own, and then the invocations. *)
Definition measurement (g : namespace) (setup : code)
    (process : loc -> loc -> H loc) (s e : loc) (n : nat) : H unit :=
  _ ← exec g setup ∅; invocations process s e n.

(** The measurements of one benchmark, as the specification has them:
    after the two copies, [NUM_WARMUP] warm-up measurements of [NUM_WARMUP]
    invocations each, and then the measurement of the [NUM_TRIALS] timed
    invocations. *)
Definition measurements (cfg : settings) (setup : code)
    (process : loc -> loc -> H loc) (s e : loc) : H unit :=
  start_copy ← copy s;
  end_copy ← copy e;
  let g := timer_globals start_copy end_copy
             (Z.of_nat (SIZE cfg).1) (Z.of_nat (SIZE cfg).2) in
  _ ← for_ (replicate (Z.to_nat (NUM_WARMUP cfg)) tt)
        (fun _ => measurement g setup process s e (Z.to_nat (NUM_WARMUP cfg)));
  measurement g setup process s e (Z.to_nat (NUM_TRIALS cfg)).

(** The measurements of a whole run: those of every kernel of the registry,
    in its order. *)
Definition all_measurements (cfg : settings) (s e : loc) (methods : dict module)
    : H unit :=
  for_ methods (fun kv =>
    setup ← lift (getattr (attr_setup kv.2));
    process ← lift (getattr (attr_process kv.2));
    measurements cfg setup process s e).

(** The setup code leaves the heap as it finds it, in every namespace. *)
Definition allocates_nothing (setup : code) : Prop :=
  forall (g : namespace) (h : heap_t), exists ns, exec g setup ∅ h = (Ok ns, h).

(** ** Setup codes *)

(** The setup codes that name nothing the timer's namespace has to
    provide: all but that of [dask_array_method]. *)
Definition self_contained_setups : list code :=
  [clip_method.setup; heaviside_method.setup; list_comprehension_method.setup;
   nested_loop_method.setup; parallel_method.setup; piecewise_method.setup;
   where_method.setup].

(** ** What every run does *)

(** Every run of [c], whether it returns or raises, takes a state to one
    that [R] relates to it. *)
Definition always (R : state -> state -> Prop) {A} (c : M A) : Prop :=
  forall σ r σ', c σ = (r, σ') -> R σ σ'.

(** The record has grown by calls of [process(s, e)] and by events that
    are no calls. *)
Definition calls_on (s e : loc) (σ σ' : state) : Prop :=
  exists t, trace σ' = trace σ ++ t /\ forallb (call_on s e) t = true.

(** Nothing has been printed. *)
Definition silent (σ σ' : state) : Prop := stdout σ' = stdout σ.

(** ** Cells that are no numbers *)

(** The kernels that test the sign of a cell before they convert it. *)
Definition sign_testing_kernels : list (loc -> loc -> H loc) :=
  [nested_loop_method.process; where_method.process; piecewise_method.process;
   dask_array_method.process; parallel_method.process].

(** ** Two runs side by side *)

(** Two states of a run that have the same two arrays, the same clock and
    the same output; they may differ in the record and in every other
    array. *)
Definition alike (s e : loc) (σ1 σ2 : state) : Prop :=
  is_Some (heap σ1 !! s) /\ is_Some (heap σ1 !! e) /\
  heap σ1 !! s = heap σ2 !! s /\ heap σ1 !! e = heap σ2 !! e /\
  clock σ1 = clock σ2 /\ stdout σ1 = stdout σ2.

(** From alike states the two computations end alike: both return, with
    values that [R] relates, or both raise the same exception, in states
    that are alike again. *)
Definition end_alike (s e : loc) {A B} (R : A -> B -> Prop)
    (c1 : M A) (c2 : M B) : Prop :=
  forall σ1 σ2, alike s e σ1 σ2 ->
    res_rel R (c1 σ1).1 (c2 σ2).1 /\ alike s e (c1 σ1).2 (c2 σ2).2.

(** Any two values. *)
Definition any {A B} (_ : A) (_ : B) : Prop := True.

(** * Properties *)

(** ** Floating point *)

Section FloatFacts.

Lemma mul_comm (x y : float) : mul x y = mul y x.
Proof.
  destruct x as [sx|sx| |sx mx ex], y as [sy|sy| |sy my ey]; simpl;
    try reflexivity; try (now rewrite xorb_comm).
  unfold mul; simpl.
  now rewrite xorb_comm, Pos.mul_comm, Z.add_comm.
Qed.

(** Shifting [k] zero bits out of a mantissa loses nothing. *)
Lemma shr_exact (k : nat) (m : positive) :
  Nat.iter k shr_1 (shr_record_of_loc (Zpos (Nat.iter k xO m)) loc_Exact)
  = shr_record_of_loc (Zpos m) loc_Exact.
Proof.
  induction k as [|k IH]; [reflexivity|].
  rewrite Nat.iter_succ_r. simpl Nat.iter at 2. simpl. exact IH.
Qed.

Lemma iter_pos_nat {A} (f : A -> A) (p : positive) (x : A) :
  SpecFloat.iter_pos f p x = Nat.iter (Pos.to_nat p) f x.
Proof.
  revert x. induction p as [p IH|p IH|]; intros x; cbn [SpecFloat.iter_pos].
  - rewrite !IH.
    replace (Pos.to_nat p~1) with (S (Pos.to_nat p + Pos.to_nat p))%nat by lia.
    now rewrite Nat.iter_succ_r, Nat.iter_add.
  - rewrite !IH.
    replace (Pos.to_nat p~0) with (Pos.to_nat p + Pos.to_nat p)%nat by lia.
    now rewrite Nat.iter_add.
  - reflexivity.
Qed.

Lemma digits2_pos_iter (k : nat) (m : positive) :
  Zpos (digits2_pos (Nat.iter k xO m)) = Zpos (digits2_pos m) + Z.of_nat k.
Proof.
  induction k as [|k IH]; [simpl; lia|].
  cbn [Nat.iter nat_rect digits2_pos]. rewrite Pos2Z.inj_succ.
  change (nat_rect _ m (fun _ => xO) k) with (Nat.iter k xO m). lia.
Qed.

(** Multiplying by 1.0 is exact on every float of the format. *)
Lemma mul_one_l (x : float) : valid x = true -> mul one x = x.
Proof.
  destruct x as [s|s| |s m e]; try reflexivity.
  unfold valid, valid_binary, bounded, canonical_mantissa.
  intros Hv. apply andb_prop in Hv as [Hc He].
  apply Z.eqb_eq in Hc. 
  unfold mul, one, SFmul. 
  change (Pos.mul 4503599627370496 m) with (Nat.iter 52 xO m).
  unfold binary_round_aux, shr_fexp. unfold Zdigits2 at 1.
  rewrite digits2_pos_iter.
  replace (Z.pos (digits2_pos m) + Z.of_nat 52 + (-52 + e))
    with (Z.pos (digits2_pos m) + e) by lia.
  rewrite Hc.
  replace (e - (-52 + e)) with (Zpos 52) by lia.
  unfold shr at 1. rewrite iter_pos_nat.
  change (Pos.to_nat 52) with 52%nat.
  rewrite shr_exact.
  cbn [shr_record_of_loc shr_m loc_of_shr_record round_nearest_even Zdigits2].
  replace (-52 + e + 52) with e by lia.
  rewrite Hc, Z.sub_diag. cbn [shr shr_m xorb]. now rewrite He.
Qed.

Example mul_0_6 : mul (decimal 6 10) f255 = of_int 153.
Proof. vm_compute. reflexivity. Qed.

End FloatFacts.

(** ** What the kernels compute at one cell *)

Section Cells.

(** A float whose integral part is 0 converts to 0. *)
Lemma cast_zero (u : float) dt : trunc u = Some 0 -> cast dt u = 0.
Proof. unfold cast. intros ->. now destruct dt. Qed.

Lemma same_cast_zero (u v : float) :
  trunc u = Some 0 -> trunc v = Some 0 -> same_cast u v.
Proof. intros Hu Hv dt. now rewrite !cast_zero. Qed.

Lemma same_cast_refl (u v : float) : u = v -> same_cast u v.
Proof. now intros -> dt. Qed.

Lemma clip_cell_cast (v : float) :
  ordinary v = true -> same_cast (clip_cell v) (where_cell v).
Proof.
  unfold ordinary, clip_cell, where_cell.
  destruct v as [s|[]| |[] m e]; try discriminate; intros _;
    try (apply same_cast_zero; reflexivity);
    try (apply same_cast_refl; reflexivity).
  change (maximum (S754_finite false m e) (of_int 0))
      with (S754_finite false m e).
    change (ltb (of_int 0) (S754_finite false m e)) with true.
    cbv iota. apply same_cast_refl, mul_comm.
Qed.

Lemma piecewise_cell_eq (v : float) : piecewise_cell v = where_cell v.
Proof.
  unfold piecewise_cell, where_cell.
  destruct (ltb (of_int 0) v); [apply mul_comm | reflexivity].
Qed.

Lemma heaviside_cell_cast (v : float) :
  ordinary v = true -> same_cast (heaviside_cell_rhs v) (where_cell v).
Proof.
  unfold ordinary, heaviside_cell_rhs, where_cell.
  destruct v as [s|[]| |[] m e]; try discriminate; intros Hv;
    try (apply same_cast_zero; reflexivity);
    try (apply same_cast_refl; reflexivity).
  change (heaviside_cell (S754_finite false m e) (of_int 0)) with one.
    change (ltb (of_int 0) (S754_finite false m e)) with true.
    cbv iota. apply same_cast_refl. rewrite mul_one_l, mul_comm; [reflexivity|].
    now destruct (valid (S754_finite false m e)).
Qed.

End Cells.

(** ** Elementwise operations as maps *)

Section Elementwise.

Lemma zip_with_map_map {A B C D} (f : B -> C -> D) (g : A -> B) (h : A -> C)
    (l : list A) :
  zip_with f (map g l) (map h l) = map (fun x => f (g x) (h x)) l.
Proof. induction l as [|x l IH]; simpl; [reflexivity | now rewrite IH]. Qed.

Lemma zip2d_map2d {A B C D} (f : B -> C -> D) (g : A -> B) (h : A -> C)
    (a : list (list A)) :
  zip2d f (map2d g a) (map2d h a) = map2d (fun x => f (g x) (h x)) a.
Proof.
  unfold zip2d, map2d. rewrite zip_with_map_map.
  apply map_ext. intros r. apply zip_with_map_map.
Qed.

Lemma map2d_id {A} (a : list (list A)) : map2d id a = a.
Proof.
  unfold map2d. rewrite <- (map_id a) at 2. apply map_ext. intros r.
  apply map_id.
Qed.

Lemma map2d_map2d {A B C} (f : A -> B) (g : B -> C) (a : list (list A)) :
  map2d g (map2d f a) = map2d (fun x => g (f x)) a.
Proof.
  unfold map2d. rewrite map_map. apply map_ext. intros r. apply map_map.
Qed.

Lemma where_rhs_cells (f : list (list float)) :
  where_method.new_end_array f = map2d where_cell f.
Proof.
  unfold where_method.new_end_array, where_, gt_scalar, scalar_mul.
  now rewrite zip2d_map2d.
Qed.

Lemma clip_rhs_cells (f : list (list float)) :
  clip_method.rhs f = map2d clip_cell f.
Proof. unfold clip_method.rhs, mul_scalar, clip_min. now rewrite map2d_map2d. Qed.

Lemma heaviside_rhs_cells (f : list (list float)) :
  heaviside_method.rhs f = map2d heaviside_cell_rhs f.
Proof.
  unfold heaviside_method.rhs, mul_scalar, mul_arrays, heaviside.
  rewrite <- (map2d_id f) at 2. now rewrite zip2d_map2d, map2d_map2d.
Qed.

Lemma piecewise_rhs_own (f : list (list float)) :
  piecewise_method.rhs f = map2d piecewise_cell f.
Proof.
  unfold piecewise_method.rhs, piecewise, gt_scalar.
  rewrite <- (map2d_id f) at 1. now rewrite zip2d_map2d.
Qed.

Lemma piecewise_rhs_cells (f : list (list float)) :
  piecewise_method.rhs f = map2d where_cell f.
Proof.
  rewrite piecewise_rhs_own.
  unfold map2d. apply map_ext. intros r. apply map_ext. intros v.
  apply piecewise_cell_eq.
Qed.

End Elementwise.

(** ** Assignment into channel 0 *)

Section Channel0.

Lemma broadcast_rel {A B} (R : A -> B -> Prop) (n : nat) l1 l2 :
  Forall2 R l1 l2 -> res_rel (Forall2 R) (broadcast n l1) (broadcast n l2).
Proof.
  intros HF. unfold broadcast.
  rewrite <- (Forall2_length _ _ _ HF).
  destruct (decide (length l1 = n)); [exact HF|].
  destruct HF as [|x y l1 l2 Hxy [|]]; simpl; try reflexivity.
  match goal with H : _ <> n |- _ => clear H end.
  induction n; simpl; constructor; auto.
Qed.

Lemma mapM_rel {A B C D} (R : A -> B -> Prop) (S : C -> D -> Prop)
    (f : A -> res C) (g : B -> res D) l1 l2 :
  (forall x y, R x y -> res_rel S (f x) (g y)) ->
  Forall2 R l1 l2 -> res_rel (Forall2 S) (mapM f l1) (mapM g l2).
Proof.
  intros Hfg HF. induction HF as [|x y l1 l2 Hxy _ IH]; simpl.
  - constructor.
  - specialize (Hfg x y Hxy). unfold mbind, res_bind.
    destruct (f x), (g y); simpl in Hfg; try contradiction; [|exact Hfg].
    destruct (mapM f l1), (mapM g l2); simpl in IH; try contradiction;
      simpl; [constructor; assumption | exact IH].
Qed.

Lemma zipM_ext {A B C} (R : B -> B -> Prop) (f : A -> B -> res C) a b1 b2 :
  (forall x u v, R u v -> f x u = f x v) ->
  Forall2 R b1 b2 -> zipM f a b1 = zipM f a b2.
Proof.
  intros Hf HF. revert a.
  induction HF as [|u v b1 b2 Huv _ IH]; intros [|x a]; simpl; try reflexivity.
  now rewrite (Hf x u v Huv), IH.
Qed.

Lemma set_channel0_same_cast dt c u v :
  same_cast u v -> set_channel0 dt c u = set_channel0 dt c v.
Proof.
  intros Huv. unfold set_channel0. destruct c as [[r g] b].
  now rewrite (Huv dt).
Qed.

Lemma setitem_channel0_ext (a : ndarray) (r1 r2 : list (list float)) :
  Forall2 (Forall2 same_cast) r1 r2 ->
  setitem_channel0 a r1 = setitem_channel0 a r2.
Proof.
  intros HF. destruct a as [f|dt rows|dt sh]; try reflexivity.
  unfold setitem_channel0.
  pose proof (broadcast_rel _ (length rows) _ _ HF) as Hb.
  destruct (broadcast (length rows) r1) as [b1|e1],
           (broadcast (length rows) r2) as [b2|e2];
    simpl in Hb; try contradiction.
  2:{ subst. reflexivity. }
  cbn [mbind res_bind].
  pose proof (mapM_rel _ (Forall2 same_cast) (broadcast (width rows))
                (broadcast (width rows)) b1 b2
                (fun x y => broadcast_rel _ (width rows) x y) Hb) as Hm.
  destruct (mapM (broadcast (width rows)) b1) as [c1|e1],
           (mapM (broadcast (width rows)) b2) as [c2|e2];
    simpl in Hm; try contradiction.
  2:{ subst. reflexivity. }
  cbn [mbind res_bind].
  rewrite (zipM_ext (Forall2 same_cast) (zipM (set_channel0 dt)) rows c1 c2);
    [reflexivity| |assumption].
  intros row u v Huv. apply (zipM_ext same_cast); [|assumption].
  intros. now apply set_channel0_same_cast.
Qed.

Lemma map2d_same_cast (P : float -> Prop) (c1 c2 : float -> float)
    (f : list (list float)) :
  (forall v, P v -> same_cast (c1 v) (c2 v)) ->
  Forall (Forall P) f ->
  Forall2 (Forall2 same_cast) (map2d c1 f) (map2d c2 f).
Proof.
  intros Hc HP. unfold map2d.
  induction HP as [|r f Hr _ IH]; simpl; constructor; [|exact IH].
  induction Hr as [|v r Hv _ IHr]; simpl; constructor; auto.
Qed.

End Channel0.

(** ** The vectorised kernels *)

Ltac st_run :=
  unfold mbind, ST_bind, mret, ST_ret, load, write, lift, update; cbv beta.

Section Vectorised.

Lemma assign_ext (r1 r2 : list (list float) -> list (list float)) s e h :
  (forall f a, h !! s = Some (Field f) ->
     setitem_channel0 a (r1 f) = setitem_channel0 a (r2 f)) ->
  assign r1 s e h = assign r2 s e h.
Proof.
  intros Hr. unfold assign, with_array. st_run.
  destruct (h !! s) as [[f|dt rows|dt sh]|] eqn:Hs; try reflexivity.
  cbn [as_field]. destruct (h !! e) as [a|]; [|reflexivity].
  now rewrite (Hr f a eq_refl).
Qed.

(** What [assign] does when the assignment goes through. *)
Lemma assign_ok rhs s e h f a a' :
  h !! s = Some (Field f) -> h !! e = Some a ->
  setitem_channel0 a (rhs f) = Ok a' ->
  assign rhs s e h = (Ok e, <[e := a']> h).
Proof.
  intros Hs He Ha. unfold assign, with_array. st_run. rewrite Hs. cbn [as_field].
  rewrite He, Ha. reflexivity.
Qed.

End Vectorised.

Section Written.

Lemma cast_where_cell (v : float) :
  storable v = true -> cast uint8 (where_cell v) = pixel v.
Proof.
  unfold storable, where_cell, pixel, cast.
  destruct (ltb (of_int 0) v); [|reflexivity].
  destruct (trunc (mul (of_int 255) v)) as [z|]; [|discriminate].
  destruct (in_range uint8 z); [reflexivity | discriminate].
Qed.

Lemma mapM_ok {A} (f : A -> res A) (l : list A) :
  Forall (fun x => f x = Ok x) l -> mapM f l = Ok l.
Proof.
  induction 1 as [|x l Hx _ IH]; simpl; [reflexivity|].
  now rewrite Hx, IH.
Qed.

Lemma broadcast_same {A} (n : nat) (l : list A) :
  length l = n -> broadcast n l = Ok l.
Proof. intros Hl. unfold broadcast. now destruct (decide (length l = n)). Qed.

Lemma zipM_set_row dt (c : float -> float) (p : float -> Z) rb rf :
  Forall (fun v => cast dt (c v) = p v) rf ->
  zipM (set_channel0 dt) rb (map c rf) = Ok (zip_with (put_channel0 p) rb rf).
Proof.
  intros Hc. revert rb.
  induction Hc as [|v rf Hv _ IH]; intros [|[[r g] bl] rb]; simpl;
    try reflexivity.
  rewrite Hv. cbn [mbind res_bind]. now rewrite IH.
Qed.

Lemma zipM_set_rows dt (c : float -> float) (p : float -> Z) b f :
  Forall (Forall (fun v => cast dt (c v) = p v)) f ->
  zipM (zipM (set_channel0 dt)) b (map (map c) f)
  = Ok (zip_with (zip_with (put_channel0 p)) b f).
Proof.
  intros Hc. revert b.
  induction Hc as [|rf f Hrf _ IH]; intros [|rb b]; simpl; try reflexivity.
  rewrite (zipM_set_row dt c p rb rf Hrf). cbn [mbind res_bind].
  now rewrite IH.
Qed.

Lemma setitem_channel0_ok dt (c : float -> float) (p : float -> Z)
    (b : list (list cell)) (f : list (list float)) :
  same_shape b f ->
  Forall (Forall (fun v => cast dt (c v) = p v)) f ->
  setitem_channel0 (Image dt b) (map2d c f)
  = Ok (Image dt (zip2d (put_channel0 p) b f)).
Proof.
  intros (Hlen & Hb & Hf) Hc. unfold setitem_channel0, map2d.
  rewrite broadcast_same by (now rewrite length_map).
  cbn [mbind res_bind]. rewrite mapM_ok.
  2:{ apply Forall_map. eapply Forall_impl; [exact Hf|].
      intros r Hr. cbv beta. apply broadcast_same. now rewrite length_map. }
  cbn [mbind res_bind]. now rewrite (zipM_set_rows dt c p b f Hc).
Qed.

(** On a buffer of zeros only channel 0 is left to say. *)
Lemma zip2d_zeros (p : float -> Z) (f : list (list float)) r c :
  length f = r -> rect c f ->
  zip2d (put_channel0 p) (replicate r (replicate c (0, 0, 0))) f
  = map2d (fun v => (p v, 0, 0)) f.
Proof.
  intros <- Hf. unfold zip2d, map2d.
  induction Hf as [|rf f Hrf _ IH]; simpl; [reflexivity|].
  rewrite IH. f_equal. subst c. clear.
  induction rf as [|v rf IH]; simpl; [reflexivity | now rewrite IH].
Qed.

End Written.

(** ** The loop kernels *)

Section Loops.

(** A loop over [k, k+n) that steps through the states [J k], [J (k+1)],
    ... ends in [J (k+n)]. *)
Lemma for_seq_inv {S} (body : nat -> ST S unit) (J : nat -> S) (n k : nat) :
  (forall i, (k <= i < k + n)%nat -> body i (J i) = (Ok tt, J (Datatypes.S i))) ->
  for_ (seq k n) body (J k) = (Ok tt, J (k + n)%nat).
Proof.
  revert k. induction n as [|n IH]; intros k Hstep; simpl.
  - now rewrite Nat.add_0_r.
  - unfold mbind, ST_bind. rewrite Hstep by lia.
    rewrite IH; [f_equal; f_equal; lia|].
    intros i Hi. apply Hstep. lia.
Qed.

Lemma done_prefix_0 {A B} (u : A -> B -> A) l m : done_prefix u 0 l m = l.
Proof. unfold done_prefix. now rewrite !take_0, drop_0. Qed.

Lemma done_prefix_all {A B} (u : A -> B -> A) l m :
  length l = length m -> done_prefix u (length l) l m = zip_with u l m.
Proof.
  intros Hl. unfold done_prefix.
  now rewrite drop_all, app_nil_r, firstn_all, Hl, firstn_all.
Qed.

Lemma done_prefix_length {A B} (u : A -> B -> A) k l m :
  length l = length m -> length (done_prefix u k l m) = length l.
Proof.
  intros Hl. unfold done_prefix.
  rewrite length_app, length_zip_with, !length_take, length_drop. lia.
Qed.

Lemma done_prefix_lookup {A B} (u : A -> B -> A) k l m :
  length l = length m -> (k < length l)%nat ->
  done_prefix u k l m !! k = l !! k.
Proof.
  intros Hl Hk. unfold done_prefix.
  rewrite lookup_app_r; rewrite length_zip_with, !length_take; [|lia].
  rewrite lookup_drop. f_equal. lia.
Qed.

Lemma done_prefix_step {A B} (u : A -> B -> A) k l m a b :
  length l = length m -> l !! k = Some a -> m !! k = Some b ->
  <[k := u a b]> (done_prefix u k l m) = done_prefix u (S k) l m.
Proof.
  intros Hl Ha Hb. unfold done_prefix.
  pose proof (lookup_lt_Some _ _ _ Ha) as Hk.
  rewrite insert_app_r_alt; rewrite length_zip_with, !length_take; [|lia].
  replace (k - Nat.min (Nat.min k (length l)) (Nat.min k (length m)))%nat
    with 0%nat by lia.
  rewrite (drop_S _ _ _ Ha). cbn [insert list_insert].
  rewrite (take_S_r _ _ _ Ha), (take_S_r _ _ _ Hb).
  rewrite zip_with_app by (rewrite !length_take; lia).
  now rewrite <- app_assoc.
Qed.

Lemma inner_loop dt u f body x R row rf :
  rewrites_cell dt u f body ->
  R !! x = Some row -> f !! x = Some rf -> length row = length rf ->
  for_ (range (length rf)) (body x) (Image dt R)
  = (Ok tt, Image dt (<[x := zip_with u row rf]> R)).
Proof.
  intros Hbody HR Hf Hlen.
  pose (J := fun y => Image dt (<[x := done_prefix u y row rf]> R)).
  assert (HJ0 : Image dt R = J 0%nat).
  { unfold J. now rewrite done_prefix_0, list_insert_id. }
  rewrite HJ0. unfold range. rewrite (for_seq_inv (body x) J).
  - unfold J. cbn [Nat.add]. now rewrite <- Hlen, done_prefix_all.
  - intros y Hy. unfold J.
    destruct (lookup_lt_is_Some_2 row y) as [old Hold]; [lia|].
    destruct (lookup_lt_is_Some_2 rf y) as [v Hv]; [lia|].
    rewrite (Hbody x y _ (done_prefix u y row rf) rf old v); auto.
    + now rewrite list_insert_insert_eq, (done_prefix_step u y row rf old v).
    + apply list_lookup_insert_eq. eapply lookup_lt_Some; eauto.
    + rewrite done_prefix_lookup; auto. lia.
Qed.

Lemma loops_spec dt u body (b : list (list cell)) (f : list (list float)) :
  rewrites_cell dt u f body ->
  same_shape b f ->
  loops body (Field f) (Image dt b) = (Ok tt, Image dt (zip2d u b f)).
Proof.
  intros Hbody (Hlen & Hb & Hf).
  unfold loops, lift, shape_at. cbn [shape lookup list_lookup].
  unfold mbind at 1, ST_bind at 1.
  pose (J := fun x => Image dt (done_prefix (zip_with u) x b f)).
  assert (HJ0 : Image dt b = J 0%nat) by (unfold J; now rewrite done_prefix_0).
  rewrite HJ0. unfold range at 1. rewrite (for_seq_inv _ J).
  - unfold J. cbn [Nat.add]. now rewrite <- Hlen, done_prefix_all.
  - intros x Hx. unfold J, mbind, ST_bind.
    destruct (lookup_lt_is_Some_2 b x) as [row Hrow]; [lia|].
    destruct (lookup_lt_is_Some_2 f x) as [rf Hrf]; [lia|].
    assert (Hw : width f = length rf).
    { destruct f as [|r0 f']; [discriminate|]. cbn [width].
      rewrite (proj1 (Forall_lookup _ _) Hf _ _ Hrf).
      now inversion Hf. }
    assert (Hrl : length row = length rf).
    { rewrite (proj1 (Forall_lookup _ _) Hf _ _ Hrf).
      now rewrite (proj1 (Forall_lookup _ _) Hb _ _ Hrow). }
    rewrite Hw, (inner_loop dt u f body x _ row rf); auto.
    + now rewrite (done_prefix_step (zip_with u) x b f row rf).
    + rewrite done_prefix_lookup; auto. lia.
Qed.

End Loops.

Section LoopKernels.

Lemma pixel_range (v : float) : storable v = true -> in_range uint8 (pixel v) = true.
Proof.
  unfold storable, pixel. destruct (ltb (of_int 0) v); [|reflexivity].
  destruct (trunc (mul (of_int 255) v)) as [z|]; [|discriminate].
  simpl default. now destruct (in_range uint8 z).
Qed.

Lemma cast_positive (v : float) :
  storable v = true -> ltb (of_int 0) v = true ->
  cast uint8 (mul (of_int 255) v) = pixel v.
Proof.
  intros Hs Hv. pose proof (cast_where_cell v Hs) as Hc.
  unfold where_cell in Hc. now rewrite Hv in Hc.
Qed.

Lemma pixel_nonpositive (v : float) : ltb (of_int 0) v = false -> pixel v = 0.
Proof. unfold pixel. now intros ->. Qed.

Lemma lookup2_Forall {A} (P : A -> Prop) (f : list (list A)) x y rf v :
  Forall (Forall P) f -> f !! x = Some rf -> rf !! y = Some v -> P v.
Proof.
  intros HP Hx Hy.
  eapply (proj1 (Forall_lookup _ _)); [|exact Hy].
  eapply (proj1 (Forall_lookup _ _)); [exact HP|exact Hx].
Qed.

Lemma nested_body_rewrites (f : list (list float)) :
  Forall (Forall (fun v => storable v = true)) f ->
  rewrites_cell uint8 (fun _ v => (pixel v, 0, 0)) f (nested_body (Field f)).
Proof.
  intros Hf x y R row rf old v HR Hrow Hx Hy.
  pose proof (lookup2_Forall _ f x y rf v Hf Hx Hy) as Hv. cbv beta in Hv.
  unfold nested_body, lift, update, getitem2, setitem2, mbind at 1, ST_bind.
  rewrite Hx, Hy, HR.
  destruct (decide (y < length row)%nat) as [_|Hn].
  2:{ exfalso. apply Hn. eapply lookup_lt_Some; eauto. }
  destruct (ltb (of_int 0) v) eqn:Hpos; cbn [store].
  - rewrite mul_comm, (cast_positive v Hv Hpos). reflexivity.
  - rewrite (pixel_nonpositive v Hpos). reflexivity.
Qed.

Lemma dask_body_rewrites (f : list (list float)) :
  Forall (Forall (fun v => storable v = true)) f ->
  rewrites_cell uint8 (put_channel0 pixel) f (dask_body (Field f)).
Proof.
  intros Hf x y R row rf old v HR Hrow Hx Hy.
  pose proof (lookup2_Forall _ f x y rf v Hf Hx Hy) as Hv. cbv beta in Hv.
  unfold dask_body, lift, update, getitem2, setitem3_0, mbind at 1, ST_bind.
  rewrite Hx, Hy, HR. cbv beta iota. unfold cell in *. rewrite Hrow. destruct old as [[r g] bl].
  unfold put_channel0. cbn [fst snd].
  destruct (ltb (of_int 0) v) eqn:Hpos; cbn [store].
  - rewrite (cast_positive v Hv Hpos). reflexivity.
  - rewrite (pixel_nonpositive v Hpos). reflexivity.
Qed.

(** What a loop kernel does to the heap when its loops go through. *)
Lemma with_array_ok (c : ST ndarray unit) (e : loc) (h : heap_t) a a' :
  h !! e = Some a -> c a = (Ok tt, a') ->
  with_array e c h = (Ok tt, <[e := a']> h).
Proof.
  intros He Hc. unfold with_array. st_run. now rewrite He, Hc.
Qed.

Lemma zip2d_const {A B C} (g : B -> C) (b : list (list A)) (f : list (list B)) :
  same_shape b f -> zip2d (fun _ v => g v) b f = map2d g f.
Proof.
  intros (Hlen & Hb & Hf). unfold zip2d, map2d.
  revert Hlen Hb Hf. generalize (width b) as w. intros w. revert b.
  induction f as [|rf f IH]; intros [|rb b] Hlen Hb Hf; simpl in *;
    try discriminate; [reflexivity|].
  inversion Hb; inversion Hf; subst. rewrite IH by (auto; lia).
  f_equal.
  match goal with H : length rf = length rb |- _ => revert H end. clear.
  revert rb. induction rf as [|v rf IH]; intros [|c rb] Hl; simpl in *;
    try discriminate; [reflexivity|].
  rewrite IH by lia. reflexivity.
Qed.

Lemma nested_loop_process_ok (h : heap_t) s e f b :
  h !! s = Some (Field f) -> h !! e = Some (Image uint8 b) ->
  same_shape b f -> Forall (Forall (fun v => storable v = true)) f ->
  nested_loop_method.process s e h = (Ok e, <[e := Image uint8 (expected f)]> h).
Proof.
  intros Hs He Hsh Hf. unfold nested_loop_method.process.
  unfold mbind at 1, ST_bind at 1, load at 1. rewrite Hs.
  unfold mbind, ST_bind.
  rewrite (with_array_ok _ e h (Image uint8 b) (Image uint8 (expected f)) He).
  - reflexivity.
  - change (nested_loop_method.process_loops (Field f))
      with (loops (nested_body (Field f)) (Field f)).
    rewrite (loops_spec uint8 _ _ b f (nested_body_rewrites f Hf) Hsh).
    unfold expected. now rewrite zip2d_const.
Qed.

Lemma dask_array_process_ok (h : heap_t) s e f b :
  h !! s = Some (Field f) -> h !! e = Some (Image uint8 b) ->
  same_shape b f -> Forall (Forall (fun v => storable v = true)) f ->
  dask_array_method.process s e h
  = (Ok e, <[e := Image uint8 (zip2d (put_channel0 pixel) b f)]> h).
Proof.
  intros Hs He Hsh Hf. unfold dask_array_method.process.
  unfold mbind at 1, ST_bind at 1, load at 1. rewrite Hs.
  unfold mbind, ST_bind.
  rewrite (with_array_ok _ e h (Image uint8 b)
             (Image uint8 (zip2d (put_channel0 pixel) b f)) He).
  - reflexivity.
  - change (dask_array_method.numba_jit_method (Field f))
      with (loops (dask_body (Field f)) (Field f)).
    now rewrite (loops_spec uint8 _ _ b f (dask_body_rewrites f Hf) Hsh).
Qed.

End LoopKernels.

Section KernelResults.

Lemma where_process_ok (h : heap_t) s e f b :
  h !! s = Some (Field f) -> h !! e = Some (Image uint8 b) ->
  same_shape b f -> Forall (Forall (fun v => storable v = true)) f ->
  where_method.process s e h
  = (Ok e, <[e := Image uint8 (zip2d (put_channel0 pixel) b f)]> h).
Proof.
  intros Hs He Hsh Hf.
  change where_method.process with (assign where_method.new_end_array).
  apply (assign_ok _ s e h f (Image uint8 b)); auto.
  rewrite where_rhs_cells. apply setitem_channel0_ok; [assumption|].
  eapply Forall_impl; [exact Hf|]. intros r Hr.
  eapply Forall_impl; [exact Hr|]. intros v Hv. now apply cast_where_cell.
Qed.

Lemma Forall2d_refl {A B} (g : A -> B) (f : list (list A)) :
  Forall (Forall (fun v => g v = g v)) f.
Proof. apply Forall_forall. intros r _. apply Forall_forall. reflexivity. Qed.

(** On a buffer of the field's shape every vectorised kernel returns: each
    cell receives in channel 0 what the conversion makes of the float the
    kernel assigns. *)
Lemma vectorised_cells_ok (h : heap_t) s e f b :
  h !! s = Some (Field f) -> h !! e = Some (Image uint8 b) ->
  same_shape b f ->
  Forall (fun '(process, c) =>
    process s e h
    = (Ok e, <[e := Image uint8
                      (zip2d (put_channel0 (fun v => cast uint8 (c v))) b f)]> h))
    vectorised_cells.
Proof.
  intros Hs He Hsh. unfold vectorised_cells.
  repeat match goal with |- Forall _ _ => constructor end.
  - change where_method.process with (assign where_method.new_end_array).
    apply (assign_ok _ s e h f (Image uint8 b)); auto.
    rewrite where_rhs_cells.
    apply (setitem_channel0_ok uint8 where_cell); [assumption|].
    apply Forall2d_refl.
  - change clip_method.process with (assign clip_method.rhs).
    apply (assign_ok _ s e h f (Image uint8 b)); auto.
    rewrite clip_rhs_cells.
    apply (setitem_channel0_ok uint8 clip_cell); [assumption|].
    apply Forall2d_refl.
  - change heaviside_method.process with (assign heaviside_method.rhs).
    apply (assign_ok _ s e h f (Image uint8 b)); auto.
    rewrite heaviside_rhs_cells.
    apply (setitem_channel0_ok uint8 heaviside_cell_rhs); [assumption|].
    apply Forall2d_refl.
  - change piecewise_method.process with (assign piecewise_method.rhs).
    apply (assign_ok _ s e h f (Image uint8 b)); auto.
    rewrite piecewise_rhs_own.
    apply (setitem_channel0_ok uint8 piecewise_cell); [assumption|].
    apply Forall2d_refl.
Qed.

(** What the platform stores is an element of the type. *)
Lemma unspecified_in_range dt v : in_range dt (unspecified dt v) = true.
Proof. unfold unspecified. apply (proj2_sig platform). Qed.

(** The three other vectorised kernels assign, cell by cell, floats that
    convert to what the float [where_method] assigns converts to. *)
Lemma vectorised_agree (h : heap_t) s e :
  (forall f, h !! s = Some (Field f) ->
     Forall (Forall (fun v => ordinary v = true)) f) ->
  clip_method.process s e h = where_method.process s e h /\
  heaviside_method.process s e h = where_method.process s e h /\
  piecewise_method.process s e h = where_method.process s e h.
Proof.
  intros Hf.
  change where_method.process with (assign where_method.new_end_array).
  change clip_method.process with (assign clip_method.rhs).
  change heaviside_method.process with (assign heaviside_method.rhs).
  change piecewise_method.process with (assign piecewise_method.rhs).
  repeat split; apply assign_ext; intros f a Hs; specialize (Hf f Hs).
  - rewrite clip_rhs_cells, where_rhs_cells. apply setitem_channel0_ext.
    eapply map2d_same_cast; [|exact Hf]. intros v Hv. now apply clip_cell_cast.
  - rewrite heaviside_rhs_cells, where_rhs_cells. apply setitem_channel0_ext.
    eapply map2d_same_cast; [|exact Hf]. intros v Hv.
    now apply heaviside_cell_cast.
  - now rewrite piecewise_rhs_cells, where_rhs_cells.
Qed.

Lemma mapM_ok_map {A B} (f : A -> res B) (g : A -> B) (l : list A) :
  Forall (fun x => f x = Ok (g x)) l -> mapM f l = Ok (map g l).
Proof.
  induction 1 as [|x l Hx _ IH]; simpl; [reflexivity|].
  now rewrite Hx, IH.
Qed.

Lemma int_of_trunc (x : float) (z : Z) : trunc x = Some z -> int x = Ok z.
Proof. destruct x; simpl; try discriminate; now intros [= ->]. Qed.

Lemma process_cell_ok (v : float) :
  storable v = true -> parallel_method.process_cell v = Ok (pixel v, 0, 0).
Proof.
  intros Hv. unfold parallel_method.process_cell.
  destruct (ltb (of_int 0) v) eqn:Hpos.
  - unfold storable in Hv. rewrite Hpos in Hv.
    destruct (trunc (mul (of_int 255) v)) as [z|] eqn:Ht; [|discriminate].
    rewrite (int_of_trunc _ z Ht). unfold pixel. now rewrite Hpos, Ht.
  - now rewrite (pixel_nonpositive v Hpos).
Qed.

Lemma pixel_fits_int32 (v : float) :
  storable v = true -> fits int32 (pixel v, 0, 0) = true.
Proof.
  intros Hv. pose proof (pixel_range v Hv) as Hr. unfold fits, in_range in *.
  apply andb_prop in Hr as [H0 H1].
  apply Z.leb_le in H0. apply Z.ltb_lt in H1.
  rewrite !andb_true_iff, !Z.leb_le, !Z.ltb_lt. lia.
Qed.

Lemma process_row_ok (row : list float) :
  Forall (fun v => storable v = true) row ->
  parallel_method.process_row row = Ok (map (fun v => (pixel v, 0, 0)) row).
Proof.
  intros Hr. unfold parallel_method.process_row.
  rewrite (mapM_ok_map _ (fun v => (pixel v, 0, 0))).
  2:{ eapply Forall_impl; [exact Hr|]. intros v Hv. now apply process_cell_ok. }
  cbn [mbind res_bind]. unfold array_row.
  rewrite (proj2 (forallb_forall _ _)); [reflexivity|].
  intros c Hc. apply in_map_iff in Hc as (v & <- & Hin).
  apply pixel_fits_int32.
  apply (proj1 (Forall_forall (fun v => storable v = true) row) Hr).
  now apply list_elem_of_In.
Qed.

Lemma parallel_process_ok (h : heap_t) s e f :
  h !! s = Some (Field f) ->
  Forall (Forall (fun v => storable v = true)) f ->
  parallel_method.process s e h
  = (Ok (fresh (dom h)),
     <[fresh (dom h) := array_stack int32 (expected f)]> h).
Proof.
  intros Hs Hf. unfold parallel_method.process. st_run. rewrite Hs.
  cbn [as_field]. rewrite (mapM_ok_map _ (map (fun v => (pixel v, 0, 0)))).
  - reflexivity.
  - eapply Forall_impl; [exact Hf|]. intros r Hr. now apply process_row_ok.
Qed.

End KernelResults.

(** ** The kernels on the base arrays *)

Section BaseArrays.

Lemma same_shape_zeros {A} (x : cell) (f : list (list A)) r c :
  length f = r -> rect c f -> same_shape (replicate r (replicate c x)) f.
Proof.
  intros <- Hf. unfold same_shape. rewrite length_replicate.
  destruct f as [|rf f]; [repeat split; constructor|].
  cbn [length replicate width]. rewrite length_replicate.
  repeat split; [|exact Hf].
  apply Forall_forall. intros r Hr.
  change (replicate c x :: replicate (length f) (replicate c x))
    with (replicate (S (length f)) (replicate c x)) in Hr.
  apply elem_of_replicate in Hr as [-> _]. apply length_replicate.
Qed.

Lemma nominal_storable (f : list (list float)) :
  Forall (Forall (fun v => nominal v = true)) f ->
  Forall (Forall (fun v => storable v = true)) f.
Proof.
  intros Hf. eapply Forall_impl; [exact Hf|]. intros r Hr.
  eapply Forall_impl; [exact Hr|]. intros v Hv. unfold nominal in Hv.
  now apply andb_prop in Hv as [_ ->].
Qed.

Lemma nominal_ordinary (f : list (list float)) :
  Forall (Forall (fun v => nominal v = true)) f ->
  Forall (Forall (fun v => ordinary v = true)) f.
Proof.
  intros Hf. eapply Forall_impl; [exact Hf|]. intros r Hr.
  eapply Forall_impl; [exact Hr|]. intros v Hv. unfold nominal in Hv.
  apply andb_prop in Hv as [Hv _]. apply andb_prop in Hv as [Hval Hfin].
  unfold ordinary. rewrite Hval. now destruct v as [|[]| |].
Qed.

Lemma output_of_in_place process s e h dt rows :
  process s e h = (Ok e, <[e := Image dt rows]> h) ->
  output_of process s e h = Some rows.
Proof.
  intros Hp. unfold output_of. rewrite Hp. unfold heap_t in *.
  now rewrite lookup_insert_eq.
Qed.

(** On the base arrays of a nominal field every sign-consistent kernel
    returns the image [expected]. *)
Lemma kernels_on_base_arrays (h : heap_t) s e f r c :
  h !! s = Some (Field f) -> h !! e = Some (zeros r c uint8) ->
  length f = r -> rect c f -> (0 < r)%nat -> (0 < c)%nat ->
  Forall (Forall (fun v => nominal v = true)) f ->
  output_of nested_loop_method.process s e h = Some (expected f) /\
  Forall (fun p => output_of p s e h = Some (expected f)) sign_consistent.
Proof.
  intros Hs He Hlen Hrect Hr Hc Hnom.
  pose proof (nominal_storable f Hnom) as Hst.
  pose proof (same_shape_zeros (0, 0, 0) f r c Hlen Hrect) as Hsh.
  assert (Hw : where_method.process s e h
               = (Ok e, <[e := Image uint8 (expected f)]> h)).
  { rewrite (where_process_ok h s e f _ Hs He Hsh Hst).
    unfold expected. now rewrite (zip2d_zeros pixel f r c Hlen Hrect). }
  destruct (vectorised_agree h s e) as (Hclip & Hheav & Hpiece).
  { intros f' Hs'. rewrite Hs in Hs'. injection Hs' as <-.
    now apply nominal_ordinary. }
  split; [|repeat constructor].
  - eapply output_of_in_place. now apply (nested_loop_process_ok h s e f _ Hs He).
  - eapply output_of_in_place. exact Hw.
  - eapply output_of_in_place. rewrite Hclip. exact Hw.
  - eapply output_of_in_place. rewrite Hheav. exact Hw.
  - eapply output_of_in_place. rewrite Hpiece. exact Hw.
  - eapply output_of_in_place.
    rewrite (dask_array_process_ok h s e f _ Hs He Hsh Hst).
    now rewrite (zip2d_zeros pixel f r c Hlen Hrect).
  - unfold output_of. rewrite (parallel_process_ok h s e f Hs Hst).
    unfold heap_t in *. rewrite lookup_insert_eq.
    destruct f as [|[|v rf] f]; simpl in *; try lia; [|reflexivity].
    inversion Hrect; subst; simpl in *; lia.
Qed.

End BaseArrays.

(** ** The end-to-end scenario *)

(** C3: on a 4x4 field of nominal cells whose cell (0,0) holds -0.5 and
    whose cell (1,1) holds 0.6, and the buffer of zeros of its shape, the
    nested-loop kernel returns an image with (0,0,0) at (0,0) and
    (153,0,0) at (1,1), and every sign-consistent kernel returns the same
    image. *)
Theorem C3_end_to_end_scenario (h : heap_t) (s e : loc) (f : list (list float)) :
  h !! s = Some (Field f) ->
  h !! e = Some (zeros 4 4 uint8) ->
  length f = 4%nat -> rect 4 f ->
  Forall (Forall (fun v => nominal v = true)) f ->
  cell_at f 0 0 = Some (SFopp (decimal 1 2)) ->
  cell_at f 1 1 = Some (decimal 6 10) ->
  exists out,
    output_of nested_loop_method.process s e h = Some out /\
    cell_at out 0 0 = Some (0, 0, 0) /\
    cell_at out 1 1 = Some (153, 0, 0) /\
    Forall (fun p => output_of p s e h = Some out) sign_consistent.
Proof.
  intros Hs He Hlen Hrect Hnom H00 H11.
  destruct (kernels_on_base_arrays h s e f 4 4 Hs He Hlen Hrect) as [Hn Hk];
    [lia | lia | assumption |].
  exists (expected f). repeat split; try assumption.
  - unfold cell_at, expected, map2d in *. rewrite list_lookup_fmap.
    destruct (f !! 0%nat) as [row|]; [|discriminate]. simpl in *.
    rewrite list_lookup_fmap, H00. reflexivity.
  - unfold cell_at, expected, map2d in *. rewrite list_lookup_fmap.
    destruct (f !! 1%nat) as [row|]; [|discriminate]. simpl in *.
    rewrite list_lookup_fmap, H11. reflexivity.
Qed.

Lemma C3_end_to_end_scenario_witness :
  let v := SFopp (decimal 1 2) in
  let w := decimal 6 10 in
  let f := [[v; w; zero; one]; [w; w; v; v]; [one; v; w; zero]; [zero; zero; v; w]] in
  exists out,
    output_of nested_loop_method.process 1%positive 2%positive (base_heap f 4 4)
      = Some out /\
    cell_at out 0 0 = Some (0, 0, 0) /\
    cell_at out 1 1 = Some (153, 0, 0) /\
    Forall (fun p => output_of p 1%positive 2%positive (base_heap f 4 4) = Some out)
      sign_consistent.
Proof.
  intros v w f.
  apply (C3_end_to_end_scenario (base_heap f 4 4) 1%positive 2%positive f);
    try reflexivity.
  - repeat constructor.
  - repeat constructor.
Defined.

(** ** The four vectorised kernels *)

(** C8, as amended: on every field and every 8-bit buffer of the field's
    shape the four vectorised kernels return, with the buffer, each cell of
    which has received in channel 0 the conversion of the float the kernel
    assigns there; on a field without NaN and minus-infinity cells the four
    have the same outcome and leave the same heap, whatever the buffer; on a
    buffer of zeros of the field's shape, when 255 times every positive cell
    has an integral part that 8 bits hold, that outcome is the buffer with
    channel 0 holding the integral part of 255 times the cell at positive
    cells and 0 at all others. *)
Theorem C8_vectorised_kernels (h : heap_t) (s e : loc) (f : list (list float)) :
  h !! s = Some (Field f) ->
  (forall b,
     h !! e = Some (Image uint8 b) -> same_shape b f ->
     Forall (fun '(process, c) =>
       process s e h
       = (Ok e, <[e := Image uint8
                         (zip2d (put_channel0 (fun v => cast uint8 (c v))) b f)]> h))
       vectorised_cells) /\
  (Forall (Forall (fun v => ordinary v = true)) f ->
   clip_method.process s e h = where_method.process s e h /\
   heaviside_method.process s e h = where_method.process s e h /\
   piecewise_method.process s e h = where_method.process s e h) /\
  (forall r c,
     h !! e = Some (zeros r c uint8) -> length f = r -> rect c f ->
     Forall (Forall (fun v => storable v = true)) f ->
     where_method.process s e h = (Ok e, <[e := Image uint8 (expected f)]> h)).
Proof.
  intros Hs. split; [|split].
  - intros b He Hsh. now apply vectorised_cells_ok.
  - intros Hord. apply vectorised_agree. intros f' Hs'. rewrite Hs in Hs'.
    now injection Hs' as <-.
  - intros r c He Hlen Hrect Hst.
    rewrite (where_process_ok h s e f _ Hs He
               (same_shape_zeros (0, 0, 0) f r c Hlen Hrect) Hst).
    unfold expected. now rewrite (zip2d_zeros pixel f r c Hlen Hrect).
Qed.

Lemma C8_vectorised_kernels_witness :
  let f := [[decimal 6 10; SFopp (decimal 1 2)]] in
  let h := base_heap f 1 2 in
  Forall (fun '(process, c) =>
    process 1%positive 2%positive h
    = (Ok 2%positive,
       <[2%positive := Image uint8 [[(153, 0, 0); (0, 0, 0)]]]> h))
    vectorised_cells /\
  (clip_method.process 1%positive 2%positive h
     = where_method.process 1%positive 2%positive h /\
   heaviside_method.process 1%positive 2%positive h
     = where_method.process 1%positive 2%positive h /\
   piecewise_method.process 1%positive 2%positive h
     = where_method.process 1%positive 2%positive h) /\
  where_method.process 1%positive 2%positive h
    = (Ok 2%positive,
       <[2%positive := Image uint8 [[(153, 0, 0); (0, 0, 0)]]]> h).
Proof.
  intros f h.
  destruct (C8_vectorised_kernels h 1%positive 2%positive f)
    as (Hret & Heq & Hval); [reflexivity|].
  split; [|split].
  - pose proof (Hret [[(0, 0, 0); (0, 0, 0)]] eq_refl) as Hall.
    unfold vectorised_cells in *.
    assert (Hsh : same_shape [[(0, 0, 0); (0, 0, 0)]] f) by (repeat constructor).
    specialize (Hall Hsh).
    repeat match goal with
           | H : Forall _ (_ :: _) |- _ => apply Forall_cons in H as [? H]
           end.
    repeat match goal with |- Forall _ _ => constructor end;
      (etransitivity; [eassumption|]); vm_compute; reflexivity.
  - apply Heq. repeat constructor.
  - apply (Hval 1%nat 2%nat); try reflexivity; repeat constructor.
Defined.

(** C8, as stated, fails at a cell holding 0.5: 255 times the cell is
    127.5, and each of the four kernels stores 127.  It fails at a cell
    holding 2.0 as well: its 255-fold is 510, which no element of the 8-bit
    buffer holds, whatever the conversion stores. *)
Lemma C8_integral_part_counterexample :
  let h := base_heap [[decimal 1 2]] 1 1 in
  let h' := base_heap [[of_int 2]] 1 1 in
  Forall (fun p =>
    p 1%positive 2%positive h
    = (Ok 2%positive, <[2%positive := Image uint8 [[(127, 0, 0)]]]> h))
    vectorised_kernels /\
  mul (of_int 255) (decimal 1 2) = decimal 255 2 /\
  of_int 127 <> decimal 255 2 /\
  mul (of_int 255) (of_int 2) = of_int 510 /\
  exists x,
    where_method.process 1%positive 2%positive h'
    = (Ok 2%positive, <[2%positive := Image uint8 [[(x, 0, 0)]]]> h') /\
    0 <= x < 256.
Proof.
  intros h h'. split; [|split; [|split; [|split]]].
  - unfold vectorised_kernels.
    repeat match goal with |- Forall _ _ => constructor end;
      vm_compute; reflexivity.
  - vm_compute. reflexivity.
  - vm_compute. discriminate.
  - vm_compute. reflexivity.
  - exists (cast uint8 (where_cell (of_int 2))). split.
    + pose proof (vectorised_cells_ok h' 1%positive 2%positive [[of_int 2]]
                    [[(0, 0, 0)]] eq_refl eq_refl) as Hall.
      apply Forall_cons in Hall as [Hw _]; [exact Hw|].
      repeat constructor.
    + assert (Hc : cast uint8 (where_cell (of_int 2))
                   = unspecified uint8 (where_cell (of_int 2))) by reflexivity.
      rewrite Hc.
      pose proof (unspecified_in_range uint8 (where_cell (of_int 2))) as Hr.
      unfold in_range in Hr. apply andb_prop in Hr as [H0 H1].
      apply Z.leb_le in H0. apply Z.ltb_lt in H1. lia.
Qed.

(** ** The list-comprehension kernel and the sign *)

(** C2 (defect of the code): [list_comprehension_method.process] has no
    test on the sign; at a cell holding -0.5 it returns -127 where the
    nested-loop reference returns 0. *)
Theorem C2_list_comprehension_negative_cell :
  let h := base_heap [[SFopp (decimal 1 2)]] 1 1 in
  output_of list_comprehension_method.process 1%positive 2%positive h
    = Some [[(-127, 0, 0)]] /\
  output_of nested_loop_method.process 1%positive 2%positive h
    = Some [[(0, 0, 0)]].
Proof. intros h. split; vm_compute; reflexivity. Qed.

(** ** The kernels that return a new array *)

Section ResultKernels.

Lemma list_comprehension_returns_new s e h :
  list_comprehension_method.process s e h
  = returns_new list_comprehension_result s h.
Proof.
  unfold list_comprehension_method.process, returns_new,
    list_comprehension_result. st_run.
  destruct (h !! s) as [a|]; [|reflexivity].
  destruct (as_field a) as [f|]; [|reflexivity]. cbn [mbind res_bind].
  now destruct (list_comprehension_method.grid_array_list f).
Qed.

Lemma parallel_returns_new s e h :
  parallel_method.process s e h = returns_new parallel_result s h.
Proof.
  unfold parallel_method.process, returns_new, parallel_result. st_run.
  destruct (h !! s) as [a|]; [|reflexivity].
  destruct (as_field a) as [f|]; [|reflexivity]. cbn [mbind res_bind].
  now destruct (mapM parallel_method.process_row f).
Qed.

Lemma returns_new_run compute s (h : heap_t) :
  returns_new compute s h
  = match h !! s with
    | Some a =>
        match compute a with
        | Ok r => (Ok (fresh (dom h)), <[fresh (dom h) := r]> h)
        | Err x => (Err x, h)
        end
    | None => (Err NameError, h)
    end.
Proof.
  unfold returns_new, alloc. st_run. destruct (h !! s) as [a|]; [|reflexivity].
  now destruct (compute a).
Qed.

Lemma fresh_not_allocated (h : heap_t) : h !! fresh (dom h) = None.
Proof. apply not_elem_of_dom. apply is_fresh. Qed.

(** The arrays alive before the call are the same after it. *)
Lemma returns_new_frame compute s (h : heap_t) l a :
  h !! l = Some a -> (returns_new compute s h).2 !! l = Some a.
Proof.
  intros Hl. rewrite returns_new_run.
  destruct (h !! s) as [a0|]; [|exact Hl].
  destruct (compute a0); [|exact Hl]. cbn [snd]. unfold heap_t in *.
  rewrite lookup_insert_ne; [exact Hl|].
  intros Heq. pose proof (fresh_not_allocated h) as Hf. unfold heap_t in *.
  rewrite Heq in Hf. congruence.
Qed.

(** Another array at another place changes nothing of what the call does. *)
Lemma returns_new_buffer compute s (h : heap_t) e a :
  e <> s -> is_Some (h !! e) ->
  returns_new compute s (<[e := a]> h)
  = ((returns_new compute s h).1, <[e := a]> (returns_new compute s h).2).
Proof.
  intros Hne He. rewrite !returns_new_run. unfold heap_t in *.
  rewrite lookup_insert_ne by exact Hne.
  destruct (h !! s) as [a0|]; [|reflexivity].
  destruct (compute a0) as [r|x]; [|reflexivity]. cbn [fst snd].
  rewrite (dom_insert_lookup_L h e a He). f_equal.
  apply insert_insert_ne. intros Heq.
  pose proof (fresh_not_allocated h) as Hf. unfold heap_t in *.
  rewrite Heq in Hf. destruct He as [? He]. congruence.
Qed.

Lemma integral_in_int (dt : dtype) (v : float) :
  integral_in dt v = true ->
  exists z, int (mul v (of_int 255)) = Ok z /\ in_range dt z = true.
Proof.
  unfold integral_in. destruct (int (mul v (of_int 255))) as [z|];
    [eauto | discriminate].
Qed.

Lemma in_range_int32_int64 z : in_range int32 z = true -> in_range int64 z = true.
Proof.
  unfold in_range. rewrite !andb_true_iff, !Z.leb_le, !Z.ltb_lt. lia.
Qed.

Lemma grid_array_list_ok (f : list (list float)) :
  Forall (Forall (fun v => integral_in int32 v = true)) f ->
  list_comprehension_method.grid_array_list f
  = Ok (map2d (fun v => (int255 v, 0, 0)) f).
Proof.
  intros Hf. unfold list_comprehension_method.grid_array_list, map2d.
  apply mapM_ok_map. eapply Forall_impl; [exact Hf|]. intros r Hr.
  apply mapM_ok_map. eapply Forall_impl; [exact Hr|]. intros v Hv.
  destruct (integral_in_int _ _ Hv) as (z & Hz & _).
  unfold int255. now rewrite Hz.
Qed.

Lemma process_row_int (row : list float) :
  Forall (fun v => integral_in int32 v = true) row ->
  exists cells, parallel_method.process_row row = Ok cells /\
                length cells = length row.
Proof.
  intros Hr. unfold parallel_method.process_row.
  pose (g := fun v => (if ltb (of_int 0) v then int255 v else 0, 0, 0) : cell).
  rewrite (mapM_ok_map _ g).
  2:{ eapply Forall_impl; [exact Hr|]. intros v Hv.
      destruct (integral_in_int _ _ Hv) as (z & Hz & _).
      unfold parallel_method.process_cell, g, int255.
      rewrite (mul_comm (of_int 255) v), Hz.
      now destruct (ltb (of_int 0) v). }
  cbn [mbind res_bind]. unfold array_row.
  rewrite (proj2 (forallb_forall _ _)).
  - exists (map g row). now rewrite length_map.
  - intros c Hc. apply in_map_iff in Hc as (v & <- & Hin).
    apply list_elem_of_In in Hin.
    pose proof (proj1 (Forall_forall (fun v => integral_in int32 v = true) row)
                  Hr v Hin) as Hv.
    destruct (integral_in_int _ _ Hv) as (z & Hz & Hrange).
    unfold g, fits, int255. rewrite Hz.
    destruct (ltb (of_int 0) v); [now rewrite Hrange | reflexivity].
Qed.

Lemma mapM_process_row (f : list (list float)) :
  Forall (Forall (fun v => integral_in int32 v = true)) f ->
  exists rows, mapM parallel_method.process_row f = Ok rows /\
               Forall2 (fun r rf => length r = length rf) rows f.
Proof.
  induction 1 as [|rf f Hrf _ (rows & Hrows & Hlen)]; simpl.
  - exists []. split; [reflexivity | constructor].
  - destruct (process_row_int rf Hrf) as (cells & Hcells & Hl).
    rewrite Hcells, Hrows. exists (cells :: rows).
    split; [reflexivity | now constructor].
Qed.

End ResultKernels.

Section ResultKernelsOk.

Lemma list_comprehension_ok (h : heap_t) s e f c :
  h !! s = Some (Field f) -> f <> [] -> (0 < c)%nat -> rect c f ->
  Forall (Forall (fun v => integral_in int32 v = true)) f ->
  exists l rows,
    list_comprehension_method.process s e h = (Ok l, <[l := Image int64 rows]> h) /\
    h !! l = None /\ shape (Image int64 rows) = [length f; c; 3%nat].
Proof.
  intros Hs Hne Hc Hrect Hf.
  exists (fresh (dom h)), (map2d (fun v => (int255 v, 0, 0)) f).
  rewrite list_comprehension_returns_new, returns_new_run, Hs.
  unfold list_comprehension_result. cbn [as_field mbind res_bind].
  rewrite (grid_array_list_ok f Hf). cbn [mbind res_bind].
  destruct f as [|[|v rf] f]; [congruence| |].
  { inversion Hrect; subst; simpl in *; lia. }
  assert (Hfit : forallb (forallb (fits int64))
                   (map2d (fun v => (int255 v, 0, 0)) ((v :: rf) :: f)) = true).
  { apply forallb_forall. intros r Hr. apply forallb_forall. intros x Hx.
    unfold map2d in Hr. apply in_map_iff in Hr as (r0 & <- & Hr0).
    apply in_map_iff in Hx as (v0 & <- & Hv0).
    apply list_elem_of_In in Hr0, Hv0.
    pose proof (proj1 (Forall_forall _ _) Hf r0 Hr0) as Hr0'. cbv beta in Hr0'.
    pose proof (proj1 (Forall_forall (fun v => integral_in int32 v = true) r0)
                  Hr0' v0 Hv0) as Hv.
    destruct (integral_in_int _ _ Hv) as (z & Hz & Hrange).
    unfold fits, int255. rewrite Hz, (in_range_int32_int64 z Hrange).
    reflexivity. }
  unfold array. cbn [map2d map] in *. rewrite Hfit.
  split; [reflexivity | split; [apply fresh_not_allocated|]].
  cbn [shape width length]. rewrite !length_map.
  inversion Hrect; subst. reflexivity.
Qed.

Lemma parallel_ok (h : heap_t) s e f c :
  h !! s = Some (Field f) -> f <> [] -> (0 < c)%nat -> rect c f ->
  Forall (Forall (fun v => integral_in int32 v = true)) f ->
  exists l rows,
    parallel_method.process s e h = (Ok l, <[l := Image int32 rows]> h) /\
    h !! l = None /\ shape (Image int32 rows) = [length f; c; 3%nat].
Proof.
  intros Hs Hne Hc Hrect Hf.
  destruct (mapM_process_row f Hf) as (rows & Hrows & Hlen).
  exists (fresh (dom h)), rows.
  rewrite parallel_returns_new, returns_new_run, Hs.
  unfold parallel_result. cbn [as_field mbind res_bind].
  rewrite Hrows. cbn [mbind res_bind].
  destruct Hlen as [|r rf rows f Hr Hlen]; [congruence|].
  inversion Hrect; subst.
  destruct r as [|x r]; [simpl in *; lia|].
  cbn [array_stack]. split; [reflexivity | split; [apply fresh_not_allocated|]].
  cbn [shape width]. f_equal; [|now rewrite Hr].
  cbn [length]. now rewrite (Forall2_length _ _ _ Hlen).
Qed.

End ResultKernelsOk.

(** C9, as amended: [list_comprehension_method.process] and
    [parallel_method.process] never read or write [end_array]: on every
    input they leave every array that exists unchanged, and what they do
    depends neither on the buffer they are given nor on its contents; on a
    field with at least one row and one column whose cells have a finite
    255-fold with an integral part in int32, they return a new array of
    shape (rows, cols, 3) whose element type is int64, for
    [list_comprehension_method], and int32, for [parallel_method], not
    uint8. *)
Theorem C9_result_kernels (h : heap_t) (s e : loc) :
  Forall (fun '(process, dt) =>
    (forall l a, h !! l = Some a -> (process s e h).2 !! l = Some a) /\
    (forall e' a, e' <> s -> is_Some (h !! e') ->
       process s e' (<[e' := a]> h)
       = ((process s e h).1, <[e' := a]> (process s e h).2)) /\
    (forall f c,
       h !! s = Some (Field f) -> f <> [] -> (0 < c)%nat -> rect c f ->
       Forall (Forall (fun v => integral_in int32 v = true)) f ->
       exists l rows,
         process s e h = (Ok l, <[l := Image dt rows]> h) /\
         h !! l = None /\ dt <> uint8 /\
         shape (Image dt rows) = [length f; c; 3%nat]))
    result_kernels.
Proof.
  repeat constructor.
  - intros l a. rewrite list_comprehension_returns_new.
    apply returns_new_frame.
  - intros e' a Hne He. rewrite !list_comprehension_returns_new.
    now apply returns_new_buffer.
  - intros f c Hs Hne Hc Hrect Hf.
    destruct (list_comprehension_ok h s e f c Hs Hne Hc Hrect Hf)
      as (l & rows & Hp & Hl & Hsh).
    exists l, rows. repeat split; auto; discriminate.
  - intros l a. rewrite parallel_returns_new. apply returns_new_frame.
  - intros e' a Hne He. rewrite !parallel_returns_new.
    now apply returns_new_buffer.
  - intros f c Hs Hne Hc Hrect Hf.
    destruct (parallel_ok h s e f c Hs Hne Hc Hrect Hf)
      as (l & rows & Hp & Hl & Hsh).
    exists l, rows. repeat split; auto; discriminate.
Qed.

Lemma C9_result_kernels_witness :
  let f := [[decimal 6 10; SFopp (decimal 1 2)]] in
  let h := base_heap f 1 2 in
  Forall (fun '(process, dt) =>
    (process 1%positive 2%positive h).2 !! 2%positive
      = Some (zeros 1 2 uint8) /\
    exists l rows,
      process 1%positive 2%positive h = (Ok l, <[l := Image dt rows]> h) /\
      h !! l = None /\ dt <> uint8 /\
      shape (Image dt rows) = [1; 2; 3]%nat)
    result_kernels.
Proof.
  intros f h.
  pose proof (C9_result_kernels h 1%positive 2%positive) as HC.
  eapply Forall_impl; [exact HC|].
  intros [process dt] (Hframe & _ & Hres). split.
  - apply Hframe. reflexivity.
  - apply (Hres f 2%nat); try reflexivity; try lia; try discriminate;
      repeat constructor.
Defined.

(** C9, as stated, fails at a NaN cell: [int] raises on it, and
    [list_comprehension_method.process] returns no array. *)
Lemma C9_nan_cell_counterexample :
  let h := base_heap [[S754_nan]] 1 1 in
  list_comprehension_method.process 1%positive 2%positive h
  = (Err ValueError, h).
Proof. intros h. vm_compute. reflexivity. Qed.

(** ** The timer *)

Section Timer.

Lemma bind_ok {S A B} (m : ST S A) (k : A -> ST S B) s b s' :
  (m ≫= k) s = (Ok b, s') ->
  exists a s1, m s = (Ok a, s1) /\ k a s1 = (Ok b, s').
Proof.
  unfold mbind, ST_bind. destruct (m s) as [[a|x] s1]; [eauto | discriminate].
Qed.

(** A computation on the heap leaves the rest of the state alone. *)
Lemma on_heap_run {A} (c : H A) σ r σ' :
  on_heap c σ = (r, σ') ->
  c (heap σ) = (r, heap σ') /\ trace σ' = trace σ /\ clock σ' = clock σ /\
  stdout σ' = stdout σ.
Proof.
  unfold on_heap. destruct (c (heap σ)) as [r0 h']. intros [= <- <-].
  now repeat split.
Qed.

Lemma log_run ev σ r σ' :
  log ev σ = (r, σ') ->
  r = Ok tt /\ heap σ' = heap σ /\ trace σ' = trace σ ++ [ev] /\
  clock σ' = clock σ /\ stdout σ' = stdout σ.
Proof. unfold log. intros [= <- <-]. now repeat split. Qed.

Lemma call_run process s e σ σ' :
  call process s e σ = (Ok tt, σ') ->
  trace σ' = trace σ ++ [EvCall s e (heap σ !! e)] /\
  clock σ' = clock σ /\ stdout σ' = stdout σ /\
  exists l, process s e (heap σ) = (Ok l, heap σ').
Proof.
  unfold call. intros Hc.
  apply bind_ok in Hc as (b & σ1 & H1 & Hc).
  apply on_heap_run in H1 as (H1 & Ht1 & Hc1 & Ho1).
  injection H1 as <- Hh1.
  apply bind_ok in Hc as ([] & σ2 & H2 & Hc).
  apply log_run in H2 as (_ & Hh2 & Ht2 & Hc2 & Ho2).
  apply bind_ok in Hc as (l & σ3 & H3 & Hc).
  apply on_heap_run in H3 as (H3 & Ht3 & Hc3 & Ho3).
  injection Hc as Heq. subst σ'.
  split; [|split; [congruence | split; [congruence|]]].
  - rewrite Ht3, Ht2, Ht1. reflexivity.
  - exists l. rewrite Hh1, <- Hh2. exact H3.
Qed.

Lemma calls_run process s e n σ σ' :
  for_ (replicate n tt) (fun _ => call process s e) σ = (Ok tt, σ') ->
  exists body, trace σ' = trace σ ++ body /\ call_block s e n body /\
               clock σ' = clock σ /\ stdout σ' = stdout σ.
Proof.
  revert σ. induction n as [|n IH]; intros σ; cbn [replicate for_].
  - intros [= <-]. exists []. rewrite app_nil_r.
    repeat split; constructor.
  - intros Hc. apply bind_ok in Hc as ([] & σ1 & H1 & Hc).
    apply call_run in H1 as (Ht1 & Hc1 & Ho1 & _).
    apply IH in Hc as (body & Ht & (Hlen & Hall) & Hck & Ho).
    exists (EvCall s e (heap σ !! e) :: body).
    rewrite Ht, Ht1, <- app_assoc. repeat split; try congruence.
    + cbn [length]. now rewrite Hlen.
    + constructor; [eauto | assumption].
Qed.

Lemma elapsed_run σ t σ' :
  elapsed σ = (Ok t, σ') ->
  t = hd zero (clock σ) /\ clock σ' = tl (clock σ) /\ trace σ' = trace σ /\
  stdout σ' = stdout σ /\ heap σ' = heap σ.
Proof.
  unfold elapsed. destruct (clock σ) as [|t0 ts] eqn:Hck;
    intros [= <- <-]; cbn; now rewrite ?Hck.
Qed.

(** One measurement of the harness's timer. *)
Lemma timeit_run process s e setup g n σ t σ' :
  timeit {| stmt := call process s e; timer_setup := setup; globals := g |} n σ
  = (Ok t, σ') ->
  exists block, trace σ' = trace σ ++ block /\
    timeit_block setup s e (Z.to_nat n) block /\
    t = hd zero (clock σ) /\ clock σ' = tl (clock σ) /\ stdout σ' = stdout σ.
Proof.
  unfold timeit. cbn [stmt timer_setup globals]. intros Hc.
  apply bind_ok in Hc as ([] & σ1 & H1 & Hc).
  apply log_run in H1 as (_ & _ & Ht1 & Hc1 & Ho1).
  apply bind_ok in Hc as ([] & σ2 & H2 & Hc).
  apply log_run in H2 as (_ & _ & Ht2 & Hc2 & Ho2).
  apply bind_ok in Hc as (ns & σ3 & H3 & Hc).
  apply on_heap_run in H3 as (_ & Ht3 & Hc3 & Ho3).
  apply bind_ok in Hc as ([] & σ4 & H4 & Hc).
  apply calls_run in H4 as (body & Ht4 & Hblock & Hc4 & Ho4).
  apply elapsed_run in Hc as (-> & Hc5 & Ht5 & Ho5 & _).
  exists (EvTimeit (Z.to_nat n) :: EvSetup setup :: body).
  repeat split; try congruence.
  - rewrite Ht5, Ht4, Ht3, Ht2, Ht1, <- !app_assoc. reflexivity.
  - exists body. now split.
Qed.

(** The warm-up loop: as many measurements as the list has elements. *)
Lemma warmup_run {I} process s e setup g n (l : list I) σ σ' :
  for_ l (fun _ =>
    timeit {| stmt := call process s e; timer_setup := setup; globals := g |} n
    ≫= fun _ => mret tt) σ = (Ok tt, σ') ->
  exists blocks, trace σ' = trace σ ++ concat blocks /\
    length blocks = length l /\
    Forall (timeit_block setup s e (Z.to_nat n)) blocks /\
    clock σ' = drop (length l) (clock σ) /\ stdout σ' = stdout σ.
Proof.
  revert σ. induction l as [|i l IH]; intros σ; cbn [for_].
  - intros [= <-]. exists []. cbn. rewrite app_nil_r. repeat split. constructor.
  - intros Hc. apply bind_ok in Hc as ([] & σ1 & H1 & Hc).
    apply bind_ok in H1 as (t & σ0 & H0 & H1). injection H1 as Heq. subst σ1.
    apply timeit_run in H0 as (block & Ht0 & Hb & _ & Hc0 & Ho0).
    apply IH in Hc as (blocks & Ht & Hlen & Hall & Hck & Ho).
    exists (block :: blocks). cbn [concat length].
    rewrite Ht, Ht0, <- app_assoc.
    split; [reflexivity|]. split; [now rewrite Hlen|].
    split; [now constructor|]. split; [|congruence].
    rewrite Hck, Hc0. destruct (clock σ); simpl;
      [now rewrite drop_nil | reflexivity].
Qed.

End Timer.

(** ** One benchmark *)

Section Benchmark.

Lemma print_run line σ r σ' :
  print line σ = (r, σ') ->
  r = Ok tt /\ heap σ' = heap σ /\ trace σ' = trace σ /\
  clock σ' = clock σ /\ stdout σ' = stdout σ ++ [line].
Proof. unfold print. intros [= <- <-]. now repeat split. Qed.

Lemma hd_drop (n : nat) (l : list float) : hd zero (drop n l) = nth n l zero.
Proof.
  revert l. induction n as [|n IH]; intros [|x l]; cbn; auto.
Qed.

Lemma tl_drop {A} (n : nat) (l : list A) : tl (drop n l) = drop (S n) l.
Proof.
  revert l. induction n as [|n IH]; intros [|x l]; cbn; auto.
Qed.

(** What a run of [benchmark] that returns has done. *)
Lemma benchmark_run cfg setup process s e σ total avg σ' :
  benchmark cfg setup process s e σ = (Ok (total, avg), σ') ->
  let W := Z.to_nat (NUM_WARMUP cfg) in
  let T := Z.to_nat (NUM_TRIALS cfg) in
  exists warm timed,
    trace σ' = trace σ ++ concat warm
                 ++ (if DEBUG cfg then [EvProfiler true] else [])
                 ++ timed
                 ++ (if DEBUG cfg then [EvProfiler false] else []) /\
    length warm = W /\
    Forall (timeit_block setup s e W) warm /\
    timeit_block setup s e T timed /\
    total = nth W (clock σ) zero /\
    avg = mul (div total (of_int (NUM_TRIALS cfg))) (of_int 1000) /\
    clock σ' = drop (S W) (clock σ) /\
    stdout σ' = stdout σ
                  ++ (if DEBUG cfg then ["(profiler statistics)"] else []).
Proof.
  intros Hc W T. unfold benchmark in Hc.
  apply bind_ok in Hc as (sc & σ1 & H1 & Hc).
  apply on_heap_run in H1 as (_ & Ht1 & Hc1 & Ho1).
  apply bind_ok in Hc as (ec & σ2 & H2 & Hc).
  apply on_heap_run in H2 as (_ & Ht2 & Hc2 & Ho2).
  apply bind_ok in Hc as ([] & σ3 & H3 & Hc).
  assert (Hwarm : exists warm, trace σ3 = trace σ2 ++ concat warm /\
            length warm = W /\ Forall (timeit_block setup s e W) warm /\
            clock σ3 = drop W (clock σ2) /\ stdout σ3 = stdout σ2).
  { destruct (0 <? NUM_WARMUP cfg) eqn:Hpos.
    - apply warmup_run in H3 as (warm & Ht & Hlen & Hall & Hck & Ho).
      unfold range in Hlen, Hck. rewrite length_seq in Hlen, Hck.
      exists warm. auto.
    - injection H3 as <-. exists []. apply Z.ltb_ge in Hpos.
      replace W with 0%nat by (unfold W; lia).
      cbn. rewrite app_nil_r. repeat split. constructor. }
  destruct Hwarm as (warm & Ht3 & Hlen & Hall & Hc3 & Ho3).
  apply bind_ok in Hc as ([] & σ4 & H4 & Hc).
  assert (H4' : trace σ4 = trace σ3 ++ (if DEBUG cfg then [EvProfiler true] else [])
                /\ clock σ4 = clock σ3 /\ stdout σ4 = stdout σ3).
  { destruct (DEBUG cfg).
    - apply log_run in H4 as (_ & _ & Ht & Hck & Ho). auto.
    - injection H4 as <-. now rewrite app_nil_r. }
  destruct H4' as (Ht4 & Hc4 & Ho4).
  apply bind_ok in Hc as (t & σ5 & H5 & Hc).
  apply timeit_run in H5 as (timed & Ht5 & Hblock & Htot & Hc5 & Ho5).
  apply bind_ok in Hc as ([] & σ6 & H6 & Hc).
  assert (H6' : trace σ6 = trace σ5 ++ (if DEBUG cfg then [EvProfiler false] else [])
                /\ clock σ6 = clock σ5 /\
                stdout σ6 = stdout σ5
                  ++ (if DEBUG cfg then ["(profiler statistics)"] else [])).
  { destruct (DEBUG cfg).
    - apply bind_ok in H6 as ([] & σ7 & H7 & H6).
      apply log_run in H7 as (_ & _ & Ht7 & Hc7 & Ho7).
      apply print_run in H6 as (_ & _ & Ht6 & Hc6' & Ho6).
      repeat split; congruence.
    - injection H6 as <-. now rewrite !app_nil_r. }
  destruct H6' as (Ht6 & Hc6 & Ho6).
  apply bind_ok in Hc as (a & σ7 & H7 & Hc).
  unfold lift in H7. injection Hc as <- <- <-.
  destruct (NUM_TRIALS cfg =? 0); [discriminate|].
  injection H7 as <- <-.
  exists warm, timed.
  split. { rewrite Ht6, Ht5, Ht4, Ht3, Ht2, Ht1, <- !app_assoc. reflexivity. }
  split; [exact Hlen|]. split; [exact Hall|]. split; [exact Hblock|].
  assert (Hck : clock σ4 = drop W (clock σ)) by congruence.
  split. { rewrite Htot, Hck. apply hd_drop. }
  split; [reflexivity|].
  split. { rewrite Hc6, Hc5, Hck. apply tl_drop. }
  congruence.
Qed.

Lemma calls_app (t1 t2 : list event) : calls (t1 ++ t2) = (calls t1 + calls t2)%nat.
Proof. unfold calls. now rewrite List.filter_app, length_app. Qed.

Lemma calls_call_block s e n t : call_block s e n t -> calls t = n.
Proof.
  intros [<- Hall]. unfold calls.
  induction Hall as [|ev t [b ->] _ IH]; cbn; [reflexivity | now rewrite IH].
Qed.

Lemma calls_timeit_block setup s e n t : timeit_block setup s e n t -> calls t = n.
Proof.
  intros (body & -> & Hb). unfold calls. cbn.
  now apply (calls_call_block s e).
Qed.

Lemma calls_blocks setup s e n blocks :
  Forall (timeit_block setup s e n) blocks ->
  calls (concat blocks) = (length blocks * n)%nat.
Proof.
  induction 1 as [|b blocks Hb _ IH]; [reflexivity|].
  cbn [concat length Nat.mul].
  now rewrite calls_app, IH, (calls_timeit_block setup s e n b Hb).
Qed.

End Benchmark.

(** ** What the measurements do to the arrays *)

Section Arrays.

Lemma for_app_bind {S I} (l1 l2 : list I) (body : I -> ST S unit) (s : S) :
  for_ (l1 ++ l2) body s = (for_ l1 body ≫= fun _ => for_ l2 body) s.
Proof.
  revert s. induction l1 as [|i l1 IH]; intros s; [reflexivity|].
  cbn [app for_]. unfold mbind, ST_bind in *.
  destruct (body i s) as [[[]|x] s1]; [apply IH | reflexivity].
Qed.

Lemma for_ext {S I} (l : list I) (body1 body2 : I -> ST S unit) (s : S) :
  (forall i s, body1 i s = body2 i s) -> for_ l body1 s = for_ l body2 s.
Proof.
  intros Hb. revert s. induction l as [|i l IH]; intros s; [reflexivity|].
  cbn [for_]. unfold mbind, ST_bind. rewrite Hb.
  destruct (body2 i s) as [[[]|x] s1]; [apply IH | reflexivity].
Qed.

Lemma invocations_add process s e (m n : nat) (h : heap_t) :
  invocations process s e (m + n) h
  = (invocations process s e m ≫= fun _ => invocations process s e n) h.
Proof. unfold invocations. rewrite replicate_add. apply for_app_bind. Qed.

(** [m] rounds of [n] invocations are [m * n] invocations. *)
Lemma invocations_mul process s e (m n : nat) (h : heap_t) :
  for_ (replicate m tt) (fun _ => invocations process s e n) h
  = invocations process s e (m * n) h.
Proof.
  revert h. induction m as [|m IH]; intros h; [reflexivity|].
  cbn [replicate for_ Nat.mul]. rewrite invocations_add.
  unfold mbind, ST_bind.
  destruct (invocations process s e n h) as [[[]|x] h1]; [apply IH | reflexivity].
Qed.

Lemma measurement_invocations g setup process s e n (h : heap_t) :
  allocates_nothing setup ->
  measurement g setup process s e n h = invocations process s e n h.
Proof.
  intros Hsetup. unfold measurement, mbind, ST_bind.
  now destruct (Hsetup g h) as [ns ->].
Qed.

(** With a setup code that leaves the heap alone, the measurements of a
    benchmark are the two copies and [NUM_WARMUP] squared plus [NUM_TRIALS]
    invocations. *)
Lemma measurements_invocations cfg setup process s e (h : heap_t) :
  allocates_nothing setup ->
  measurements cfg setup process s e h
  = (_ ← copy s; _ ← copy e;
     invocations process s e
       (Z.to_nat (NUM_WARMUP cfg) * Z.to_nat (NUM_WARMUP cfg)
        + Z.to_nat (NUM_TRIALS cfg))) h.
Proof.
  intros Hsetup. unfold measurements. cbv zeta. unfold mbind at 1 4, ST_bind at 1 4.
  destruct (copy s h) as [[sc|x] h1]; [|reflexivity].
  unfold mbind at 1 3, ST_bind at 1 3.
  destruct (copy e h1) as [[ec|x] h2]; [|reflexivity].
  rewrite invocations_add. unfold mbind, ST_bind.
  rewrite (for_ext _ _ (fun _ => invocations process s e (Z.to_nat (NUM_WARMUP cfg)))).
  2:{ intros _ h'. now apply measurement_invocations. }
  rewrite invocations_mul.
  destruct (invocations process s e _ h2) as [[[]|x] h3]; [|reflexivity].
  fold (@mbind (ST heap_t) _ namespace unit).
  now apply measurement_invocations.
Qed.

Lemma calls_arrays process s e n σ σ' :
  for_ (replicate n tt) (fun _ => call process s e) σ = (Ok tt, σ') ->
  invocations process s e n (heap σ) = (Ok tt, heap σ').
Proof.
  revert σ. induction n as [|n IH]; intros σ; cbn [replicate for_].
  - now intros [= <-].
  - intros Hc. apply bind_ok in Hc as ([] & σ1 & H1 & Hc).
    apply call_run in H1 as (_ & _ & _ & l & Hp).
    unfold invocations. cbn [replicate for_].
    unfold mbind, ST_bind, mret, ST_ret. rewrite Hp.
    apply IH, Hc.
Qed.

Lemma timeit_arrays process s e setup g n σ t σ' :
  timeit {| stmt := call process s e; timer_setup := setup; globals := g |} n σ
  = (Ok t, σ') ->
  measurement g setup process s e (Z.to_nat n) (heap σ) = (Ok tt, heap σ').
Proof.
  unfold timeit. cbn [stmt timer_setup globals]. intros Hc.
  apply bind_ok in Hc as ([] & σ1 & H1 & Hc).
  apply log_run in H1 as (_ & Hh1 & _).
  apply bind_ok in Hc as ([] & σ2 & H2 & Hc).
  apply log_run in H2 as (_ & Hh2 & _).
  apply bind_ok in Hc as (ns & σ3 & H3 & Hc).
  apply on_heap_run in H3 as (H3 & _).
  apply bind_ok in Hc as ([] & σ4 & H4 & Hc).
  apply calls_arrays in H4.
  apply elapsed_run in Hc as (_ & _ & _ & _ & Hh5).
  unfold measurement, mbind, ST_bind.
  rewrite <- Hh1, <- Hh2, H3, Hh5. exact H4.
Qed.

Lemma warmup_arrays {I} process s e setup g n (l : list I) σ σ' :
  for_ l (fun _ =>
    timeit {| stmt := call process s e; timer_setup := setup; globals := g |} n
    ≫= fun _ => mret tt) σ = (Ok tt, σ') ->
  for_ (replicate (length l) tt)
    (fun _ => measurement g setup process s e (Z.to_nat n)) (heap σ)
  = (Ok tt, heap σ').
Proof.
  revert σ. induction l as [|i l IH]; intros σ; cbn [for_ length replicate].
  - now intros [= <-].
  - intros Hc. apply bind_ok in Hc as ([] & σ1 & H1 & Hc).
    apply bind_ok in H1 as (t & σ0 & H0 & H1). injection H1 as Heq. subst σ1.
    apply timeit_arrays in H0. unfold mbind, ST_bind. rewrite H0.
    apply IH, Hc.
Qed.

(** What a run of [benchmark] that returns has done to the arrays. *)
Lemma benchmark_arrays cfg setup process s e σ r σ' :
  benchmark cfg setup process s e σ = (Ok r, σ') ->
  measurements cfg setup process s e (heap σ) = (Ok tt, heap σ').
Proof.
  intros Hc. unfold benchmark in Hc.
  apply bind_ok in Hc as (sc & σ1 & H1 & Hc).
  apply on_heap_run in H1 as (H1 & _).
  apply bind_ok in Hc as (ec & σ2 & H2 & Hc).
  apply on_heap_run in H2 as (H2 & _).
  apply bind_ok in Hc as ([] & σ3 & H3 & Hc).
  apply bind_ok in Hc as ([] & σ4 & H4 & Hc).
  apply bind_ok in Hc as (t & σ5 & H5 & Hc).
  apply timeit_arrays in H5.
  apply bind_ok in Hc as ([] & σ6 & H6 & Hc).
  apply bind_ok in Hc as (a & σ7 & H7 & Hc).
  unfold lift in H7. injection H7 as _ Hh7. injection Hc as _ Hh8.
  assert (Hh4 : heap σ4 = heap σ3).
  { destruct (DEBUG cfg).
    - now apply log_run in H4 as (_ & Hh & _).
    - now injection H4 as <-. }
  assert (Hh6 : heap σ6 = heap σ5).
  { destruct (DEBUG cfg).
    - apply bind_ok in H6 as ([] & σ8 & H8 & H6).
      apply log_run in H8 as (_ & Hh8' & _).
      apply print_run in H6 as (_ & Hh6 & _). congruence.
    - now injection H6 as <-. }
  unfold measurements, mbind, ST_bind. rewrite H1, H2. cbv zeta.
  assert (Hwarm : for_ (replicate (Z.to_nat (NUM_WARMUP cfg)) tt)
            (fun _ => measurement
               (timer_globals sc ec (Z.of_nat (SIZE cfg).1) (Z.of_nat (SIZE cfg).2))
               setup process s e (Z.to_nat (NUM_WARMUP cfg))) (heap σ2)
          = (Ok tt, heap σ3)).
  { destruct (0 <? NUM_WARMUP cfg) eqn:Hpos.
    - apply warmup_arrays in H3. unfold range in H3.
      now rewrite length_seq in H3.
    - injection H3 as <-. apply Z.ltb_ge in Hpos.
      now replace (Z.to_nat (NUM_WARMUP cfg)) with 0%nat by lia. }
  rewrite Hwarm, <- Hh4.
  fold (@mbind (ST heap_t) _ namespace unit).
  subst σ7 σ'. rewrite Hh6. exact H5.
Qed.

End Arrays.

(** ** Warm-up *)

(** C7: a run of [benchmark] that returns has made, before the timed
    trials, [NUM_WARMUP] measurements of [NUM_WARMUP] invocations each,
    that is [NUM_WARMUP] squared warm-up invocations, none at all when
    [NUM_WARMUP] is not positive.  The invocations are invocations of
    [process] on the two arrays: what the run has done to the heap is what
    the two copies, the warm-up measurements and the measurement of the
    [NUM_TRIALS] timed invocations do to it, and, with a setup code that
    creates no array, what the copies and [NUM_WARMUP] squared plus
    [NUM_TRIALS] invocations do.  The record of the run has the
    measurements in this order, and the timings of the warm-up are
    discarded: the total the run returns is the reading of the clock that
    follows them, the one of the timed invocations. *)
Theorem C7_warm_up (cfg : settings) (setup : code)
    (process : loc -> loc -> H loc) (s e : loc) (σ σ' : state)
    (total avg : float) :
  benchmark cfg setup process s e σ = (Ok (total, avg), σ') ->
  let W := Z.to_nat (NUM_WARMUP cfg) in
  let T := Z.to_nat (NUM_TRIALS cfg) in
  measurements cfg setup process s e (heap σ) = (Ok tt, heap σ') /\
  (allocates_nothing setup ->
   (_ ← copy s; _ ← copy e; invocations process s e (W * W + T)) (heap σ)
   = (Ok tt, heap σ')) /\
  exists warm timed,
    trace σ' = trace σ ++ concat warm
                 ++ (if DEBUG cfg then [EvProfiler true] else [])
                 ++ timed
                 ++ (if DEBUG cfg then [EvProfiler false] else []) /\
    length warm = W /\
    Forall (timeit_block setup s e W) warm /\
    calls (concat warm) = (W * W)%nat /\
    (NUM_WARMUP cfg <= 0 -> warm = []) /\
    timeit_block setup s e T timed /\
    total = nth W (clock σ) zero /\
    avg = mul (div total (of_int (NUM_TRIALS cfg))) (of_int 1000).
Proof.
  intros Hrun W T.
  pose proof (benchmark_arrays cfg setup process s e σ _ σ' Hrun) as Harrays.
  split; [exact Harrays|]. split.
  { intros Hsetup.
    now rewrite <- (measurements_invocations cfg setup process s e _ Hsetup). }
  destruct (benchmark_run cfg setup process s e σ total avg σ' Hrun)
    as (warm & timed & Ht & Hlen & Hall & Hblock & Htot & Havg & _ & _).
  exists warm, timed. fold W in Hlen, Hall, Htot. fold T in Hblock.
  repeat (split; [assumption|]).
  split. { now rewrite (calls_blocks setup s e W warm Hall), Hlen. }
  split. { intros Hle. destruct warm; [reflexivity|]. cbn in Hlen.
           unfold W in Hlen. lia. }
  now repeat split.
Qed.

Lemma C7_warm_up_witness :
  let cfg := {| DEBUG := false; SIZE := (1%nat, 1%nat);
                NUM_TRIALS := 3; NUM_WARMUP := 2 |} in
  let σ := {| heap := base_heap [[decimal 6 10]] 1 1; stdout := [];
              clock := [decimal 1 10; decimal 2 10; decimal 3 10]; trace := [] |} in
  exists σ' warm timed,
    benchmark cfg where_method.setup where_method.process 1%positive 2%positive σ
      = (Ok (decimal 3 10, mul (div (decimal 3 10) (of_int 3)) (of_int 1000)), σ') /\
    measurements cfg where_method.setup where_method.process
      1%positive 2%positive (heap σ) = (Ok tt, heap σ') /\
    (_ ← copy 1%positive; _ ← copy 2%positive;
     invocations where_method.process 1%positive 2%positive 7) (heap σ)
    = (Ok tt, heap σ') /\
    heap σ' !! 2%positive = Some (Image uint8 [[(153, 0, 0)]]) /\
    trace σ' = concat warm ++ timed /\
    length warm = 2%nat /\
    calls (concat warm) = 4%nat /\
    timeit_block where_method.setup 1%positive 2%positive 3 timed.
Proof.
  intros cfg σ.
  pose (out := benchmark cfg where_method.setup where_method.process
                 1%positive 2%positive σ).
  assert (Hrun : benchmark cfg where_method.setup where_method.process
                   1%positive 2%positive σ
                 = (Ok (decimal 3 10,
                        mul (div (decimal 3 10) (of_int 3)) (of_int 1000)),
                    out.2)).
  { vm_compute. reflexivity. }
  destruct (C7_warm_up cfg _ _ _ _ σ out.2 _ _ Hrun)
    as (Harrays & Hinv & warm & timed & Ht & Hlen & _ & Hcalls & _ & Hblock & _).
  exists out.2, warm, timed.
  split; [exact Hrun|]. split; [exact Harrays|].
  split. { apply Hinv. intros g h. eexists. reflexivity. }
  split. { vm_compute. reflexivity. }
  split; [|split; [exact Hlen|split; [exact Hcalls|exact Hblock]]].
  rewrite Ht. cbn [DEBUG cfg trace σ app]. now rewrite app_nil_r.
Defined.

(** ** Isolation of the kernels *)

(** The statement the timer runs is [process(start_array, end_array)] on the
    arrays [benchmark] was given: every call a returning run records is a
    call on them, whatever copies the namespace holds. *)
Lemma benchmark_calls_originals cfg setup process s e σ r σ' :
  benchmark cfg setup process s e σ = (Ok r, σ') ->
  exists t, trace σ' = trace σ ++ t /\ forallb (call_on s e) t = true.
Proof.
  destruct r as [total avg]. intros Hrun.
  destruct (benchmark_run cfg setup process s e σ total avg σ' Hrun)
    as (warm & timed & Ht & _ & Hall & Hblock & _).
  eexists. split; [exact Ht|].
  assert (Hb : forall setup n t, timeit_block setup s e n t ->
                 forallb (call_on s e) t = true).
  { intros c n t (body & -> & _ & Hbody). cbn [forallb call_on andb].
    induction Hbody as [|ev body [b ->] _ IH]; [reflexivity|].
    cbn [forallb call_on]. now rewrite !Pos.eqb_refl, IH. }
  rewrite !forallb_app, (Hb _ _ _ Hblock).
  replace (forallb (call_on s e) (if DEBUG cfg then [EvProfiler true] else []))
    with true by now destruct (DEBUG cfg).
  replace (forallb (call_on s e) (if DEBUG cfg then [EvProfiler false] else []))
    with true by now destruct (DEBUG cfg).
  cbn [andb]. rewrite andb_true_r. clear Ht Hrun.
  induction Hall as [|b warm Hbk _ IH]; [reflexivity|].
  cbn [concat]. now rewrite forallb_app, (Hb _ _ _ Hbk), IH.
Qed.

(** C1 (defect of the code): the copies [benchmark] makes go into the
    timer's namespace, but the timed statement calls [process] on the
    module's own [start_array] and [end_array], objects 1 and 2 of the run.
    With the kernels of the repository on a 1x1 field holding 0.6, every one
    of the 8008 calls is a call on these two objects; the first call of the
    first kernel finds the buffer of zeros, and the first call of the
    second kernel, the 1002nd of the run, finds in it what the first kernel
    has written. *)
Theorem C1_timed_calls_share_the_buffer :
  let cfg := {| DEBUG := false; SIZE := (1%nat, 1%nat);
                NUM_TRIALS := 1000; NUM_WARMUP := 1 |} in
  let out := program cfg (fun _ _ => [[decimal 6 10]]) source_listdir
               (import_from source_modules) (initial []) in
  let called := List.filter is_call (trace out.2) in
  out.1 = Ok tt /\
  length called = Z.to_nat 8008 /\
  forallb (call_on 1%positive 2%positive) called = true /\
  nth_error called 0
    = Some (EvCall 1%positive 2%positive (Some (zeros 1 1 uint8))) /\
  nth_error called (Z.to_nat 1001)
    = Some (EvCall 1%positive 2%positive (Some (Image uint8 [[(153, 0, 0)]]))).
Proof.
  intros cfg out called. vm_compute.
  split; [reflexivity|]. split; [reflexivity|]. split; [reflexivity|].
  split; reflexivity.
Qed.

(** ** Setup code and the kernels *)

Section Locality.

Lemma in_place_run c s e (h : heap_t) a b :
  h !! s = Some a -> h !! e = Some b ->
  in_place c s e h
  = (match (c a b).1 with Ok _ => Ok e | Err x => Err x end,
     <[e := (c a b).2]> h).
Proof.
  intros Hs He. unfold in_place, with_array. st_run. rewrite Hs, He.
  destruct (c a b) as [[[]|x] b']; reflexivity.
Qed.

Lemma in_place_local c : local (in_place c).
Proof.
  intros s e h1 h2 [a Hs] [b He] Hs2 He2.
  rewrite (in_place_run c s e h1 a b Hs He).
  rewrite (in_place_run c s e h2 a b) by congruence.
  unfold result_of, heap_t in *. cbn [fst snd].
  rewrite !lookup_insert_eq. split; [|split; [reflexivity|]].
  - destruct ((c a b).1); [|reflexivity]. now rewrite !lookup_insert_eq.
  - intros l a' Hne Hl. now rewrite lookup_insert_ne.
Qed.

Lemma assign_in_place rhs s e (h : heap_t) :
  is_Some (h !! e) -> assign rhs s e h = in_place (assigning rhs) s e h.
Proof.
  intros [b He]. unfold assign, in_place, assigning, with_array. st_run.
  destruct (h !! s) as [a|]; [|reflexivity]. rewrite He.
  destruct (as_field a) as [f|x]; cbn.
  - now destruct (setitem_channel0 b (rhs f)).
  - unfold heap_t in *. now rewrite insert_id.
Qed.

Lemma assign_local rhs : local (assign rhs).
Proof.
  intros s e h1 h2 Hs He Hs2 He2.
  rewrite (assign_in_place rhs s e h1 He).
  rewrite (assign_in_place rhs s e h2) by (rewrite <- He2; exact He).
  now apply in_place_local.
Qed.

Lemma returns_new_local compute : local (fun s _ => returns_new compute s).
Proof.
  intros s e h1 h2 [a Hs] [b He] Hs2 He2. cbv beta.
  rewrite !returns_new_run, <- Hs2, Hs.
  pose proof (fresh_not_allocated h1) as Hf1.
  pose proof (fresh_not_allocated h2) as Hf2.
  unfold result_of, heap_t in *.
  destruct (compute a) as [r|x]; cbn [fst snd].
  - rewrite !lookup_insert_eq. split; [reflexivity|]. split.
    + rewrite !lookup_insert_ne by congruence. exact He2.
    + intros l a' _ Hl. rewrite lookup_insert_ne by congruence. exact Hl.
  - split; [reflexivity|]. split; [exact He2|]. auto.
Qed.

Lemma local_ext (p q : loc -> loc -> H loc) :
  (forall s e h, p s e h = q s e h) -> local q -> local p.
Proof.
  intros Hpq Hq s e h1 h2 Hs He Hs2 He2. rewrite !Hpq. now apply Hq.
Qed.

Lemma registered_list :
  registered
  = [clip_method.process; dask_array_method.process; heaviside_method.process;
     list_comprehension_method.process; nested_loop_method.process;
     parallel_method.process; piecewise_method.process; where_method.process].
Proof. reflexivity. Qed.

Lemma registered_local : Forall local registered.
Proof.
  rewrite registered_list.
  repeat match goal with |- Forall _ _ => constructor end.
  - exact (assign_local clip_method.rhs).
  - exact (in_place_local dask_array_method.numba_jit_method).
  - exact (assign_local heaviside_method.rhs).
  - apply (local_ext _ (fun s _ => returns_new list_comprehension_result s));
      [apply list_comprehension_returns_new | apply returns_new_local].
  - exact (in_place_local nested_loop_method.process_loops).
  - apply (local_ext _ (fun s _ => returns_new parallel_result s));
      [apply parallel_returns_new | apply returns_new_local].
  - exact (assign_local piecewise_method.rhs).
  - exact (assign_local where_method.new_end_array).
Qed.

(** Setup code creates arrays; it changes none. *)
Lemma extends_ret {A} (x : A) : extends (mret x).
Proof. intros h r h' l a [= <- <-] Hl. exact Hl. Qed.

Lemma extends_lift {A} (x : res A) : extends (lift x).
Proof. intros h r h' l a [= <- <-] Hl. exact Hl. Qed.

Lemma extends_alloc (x : ndarray) : extends (alloc x).
Proof.
  intros h r h' l a [= <- <-] Hl. unfold heap_t in *.
  rewrite lookup_insert_ne; [exact Hl|].
  intros Heq. pose proof (fresh_not_allocated h) as Hf. unfold heap_t in *.
  rewrite Heq in Hf. congruence.
Qed.

Lemma extends_bind {A B} (m : H A) (k : A -> H B) :
  extends m -> (forall x, extends (k x)) -> extends (m ≫= k).
Proof.
  intros Hm Hk h r h' l a Hrun Hl. unfold mbind, ST_bind in Hrun.
  destruct (m h) as [[x|ex] h1] eqn:Hmh.
  - eapply Hk; [exact Hrun|]. eapply Hm; eauto.
  - injection Hrun as <- <-. eapply Hm; eauto.
Qed.

Lemma exec_stmt_extends g st ns :
  assigns_nothing [st] = true -> extends (exec_stmt g st ns).
Proof.
  destruct st as [m names|m|target rows cols dt|target callee|name|m name l
                 |target v];
    cbn [exec_stmt]; intros Hst; try discriminate;
    repeat first [apply extends_ret | apply extends_lift | apply extends_alloc
                 | apply extends_bind | intro].
Qed.

Lemma exec_extends g c ns : assigns_nothing c = true -> extends (exec g c ns).
Proof.
  revert ns. induction c as [|st c IH]; intros ns Hc; cbn [exec].
  - apply extends_ret.
  - unfold assigns_nothing in Hc. cbn [forallb] in Hc.
    apply andb_prop in Hc as [Hst Hc].
    apply extends_bind; [|intros ns'; now apply IH].
    apply exec_stmt_extends. unfold assigns_nothing. cbn [forallb].
    now rewrite Hst.
Qed.

End Locality.

Section Keeps.

Lemma frame_refl e h : frame e h h.
Proof. intros l a Hl. split; [eauto | auto]. Qed.

Lemma frame_trans e h1 h2 h3 : frame e h1 h2 -> frame e h2 h3 -> frame e h1 h3.
Proof.
  intros H12 H23 l a Hl. destruct (H12 l a Hl) as [[a2 Ha2] Hne].
  destruct (H23 l a2 Ha2) as [Hs3 Hne3]. split; [exact Hs3|].
  intros Hle. specialize (Hne Hle). rewrite Hne in Ha2. injection Ha2 as <-.
  now apply Hne3.
Qed.

Lemma frame_insert e (h : heap_t) a : frame e h (<[e := a]> h).
Proof.
  intros l x Hl. unfold heap_t in *. destruct (decide (l = e)) as [->|Hne].
  - rewrite lookup_insert_eq. split; [eauto | congruence].
  - rewrite lookup_insert_ne by congruence. split; [eauto | auto].
Qed.

Lemma frame_extends {A} e (c : H A) h r h' :
  extends c -> c h = (r, h') -> frame e h h'.
Proof.
  intros Hc Hrun l a Hl. pose proof (Hc h r h' l a Hrun Hl) as Hl'.
  split; [eauto | auto].
Qed.

Lemma in_place_keeps c : keeps_arrays (in_place c).
Proof.
  intros s e h r h'. unfold in_place, with_array. st_run.
  destruct (h !! s) as [a|]; [|intros [= <- <-]; apply frame_refl].
  destruct (h !! e) as [b|]; [|intros [= <- <-]; apply frame_refl].
  destruct (c a b) as [[[]|x] b']; intros [= <- <-]; apply frame_insert.
Qed.

Lemma assign_keeps rhs : keeps_arrays (assign rhs).
Proof.
  intros s e h r h'. unfold assign, with_array. st_run.
  destruct (h !! s) as [a|]; [|intros [= <- <-]; apply frame_refl].
  destruct (as_field a) as [f|x]; [|intros [= <- <-]; apply frame_refl].
  destruct (h !! e) as [b|]; [|intros [= <- <-]; apply frame_refl].
  destruct (setitem_channel0 b (rhs f)); intros [= <- <-]; apply frame_insert.
Qed.

Lemma returns_new_keeps compute :
  keeps_arrays (fun s _ => returns_new compute s).
Proof.
  intros s e h r h'. cbv beta. rewrite returns_new_run.
  destruct (h !! s) as [a|]; [|intros [= <- <-]; apply frame_refl].
  destruct (compute a) as [x|x]; intros [= <- <-]; [|apply frame_refl].
  apply (frame_extends e (alloc x) h (Ok (fresh (dom h)))).
  - apply extends_alloc.
  - reflexivity.
Qed.

Lemma keeps_arrays_ext (p q : loc -> loc -> H loc) :
  (forall s e h, p s e h = q s e h) -> keeps_arrays q -> keeps_arrays p.
Proof. intros Hpq Hq s e h r h'. rewrite Hpq. apply Hq. Qed.

Lemma registered_keep_arrays : Forall keeps_arrays registered.
Proof.
  rewrite registered_list.
  repeat match goal with |- Forall _ _ => constructor end.
  - exact (assign_keeps clip_method.rhs).
  - exact (in_place_keeps dask_array_method.numba_jit_method).
  - exact (assign_keeps heaviside_method.rhs).
  - apply (keeps_arrays_ext _ (fun s _ => returns_new list_comprehension_result s));
      [apply list_comprehension_returns_new | apply returns_new_keeps].
  - exact (in_place_keeps nested_loop_method.process_loops).
  - apply (keeps_arrays_ext _ (fun s _ => returns_new parallel_result s));
      [apply parallel_returns_new | apply returns_new_keeps].
  - exact (assign_keeps piecewise_method.rhs).
  - exact (assign_keeps where_method.new_end_array).
Qed.

End Keeps.

Section SetupCodes.

Ltac lookup_step :=
  match goal with
  | |- context [lookup_name ?g ?l ?x] =>
      let v := eval vm_compute in (lookup_name g l x) in
      replace (lookup_name g l x) with v by (vm_compute; reflexivity)
  end.

Ltac runs_setup :=
  intros sc ec rows cols h Hr Hc; unfold timer_globals;
  cbn [exec exec_stmt foldr]; unfold mbind, ST_bind, mret, ST_ret, lift;
  cbv beta; repeat lookup_step; cbn [mbind res_bind as_size];
  rewrite ?(proj2 (Z.leb_le 0 rows) Hr), ?(proj2 (Z.leb_le 0 cols) Hc);
  unfold alloc; eauto.

Lemma source_setups_run :
  Forall (fun kv : string * module =>
            forall setup, attr_setup kv.2 = Some setup -> runs_through setup)
    source_modules.
Proof.
  unfold source_modules, kernel.
  repeat match goal with |- Forall _ _ => constructor end;
    cbn [snd attr_setup]; intros setup [= <-].
  - unfold clip_method.setup. runs_setup.
  - unfold dask_array_method.setup. runs_setup.
  - unfold heaviside_method.setup. runs_setup.
  - unfold list_comprehension_method.setup. runs_setup.
  - unfold nested_loop_method.setup. runs_setup.
  - unfold parallel_method.setup. runs_setup.
  - unfold piecewise_method.setup. runs_setup.
  - unfold where_method.setup. runs_setup.
Qed.

End SetupCodes.

Lemma dask_setup_runs : runs_through dask_array_method.setup.
Proof.
  apply (proj1 (Forall_forall _ _) source_setups_run
           ("dask_array_method",
            kernel dask_array_method.setup dask_array_method.process)).
  - unfold source_modules.
    repeat first [apply list_elem_of_here | apply list_elem_of_further].
  - reflexivity.
Qed.

Lemma where_setup_runs : runs_through where_method.setup.
Proof.
  apply (proj1 (Forall_forall _ _) source_setups_run
           ("where_method", kernel where_method.setup where_method.process)).
  - unfold source_modules.
    repeat first [apply list_elem_of_here | apply list_elem_of_further].
  - reflexivity.
Qed.

Section Alike.

Variables s e : loc.

Lemma end_alike_ret {A B} (R : A -> B -> Prop) x y :
  R x y -> end_alike s e R (mret x) (mret y).
Proof. intros HR σ1 σ2 Hσ. split; [exact HR | exact Hσ]. Qed.

Lemma end_alike_lift {A} (x : res A) : end_alike s e eq (lift x) (lift x).
Proof.
  intros σ1 σ2 Hσ. split; [|exact Hσ]. cbn. now destruct x.
Qed.

Lemma end_alike_bind {A B C D} (R : A -> B -> Prop) (Q : C -> D -> Prop)
    (m1 : M A) (m2 : M B) (k1 : A -> M C) (k2 : B -> M D) :
  end_alike s e R m1 m2 ->
  (forall x y, R x y -> end_alike s e Q (k1 x) (k2 y)) ->
  end_alike s e Q (m1 ≫= k1) (m2 ≫= k2).
Proof.
  intros Hm Hk σ1 σ2 Hσ. specialize (Hm σ1 σ2 Hσ).
  unfold mbind, ST_bind.
  destruct (m1 σ1) as [[x|x1] σ1'], (m2 σ2) as [[y|x2] σ2'];
    cbn [fst snd res_rel] in Hm; destruct Hm as [Hr Hσ']; try contradiction.
  - now apply Hk.
  - split; [exact Hr | exact Hσ'].
Qed.

Lemma end_alike_for {I J} (l1 : list I) (l2 : list J)
    (body1 : I -> M unit) (body2 : J -> M unit) :
  length l1 = length l2 ->
  (forall i j, end_alike s e any (body1 i) (body2 j)) ->
  end_alike s e any (for_ l1 body1) (for_ l2 body2).
Proof.
  intros Hlen Hb. revert l2 Hlen.
  induction l1 as [|i l1 IH]; intros [|j l2] Hlen; try discriminate;
    cbn [for_].
  - now apply end_alike_ret.
  - apply (end_alike_bind any); [apply Hb|]. intros _ _ _. apply IH.
    now injection Hlen.
Qed.

Lemma end_alike_if {A B} (R : A -> B -> Prop) (b : bool)
    (c1 d1 : M A) (c2 d2 : M B) :
  end_alike s e R c1 c2 -> end_alike s e R d1 d2 ->
  end_alike s e R (if b then c1 else d1) (if b then c2 else d2).
Proof. now destruct b. Qed.

Lemma end_alike_log ev1 ev2 : end_alike s e any (log ev1) (log ev2).
Proof. intros σ1 σ2 Hσ. split; [exact I | exact Hσ]. Qed.

Lemma end_alike_print line : end_alike s e any (print line) (print line).
Proof.
  intros σ1 σ2 (H1 & H2 & H3 & H4 & H5 & H6). split; [exact I|].
  unfold alike, print. cbn. repeat split; auto. now rewrite H6.
Qed.

Lemma end_alike_elapsed : end_alike s e eq elapsed elapsed.
Proof.
  intros σ1 σ2 (H1 & H2 & H3 & H4 & H5 & H6). unfold elapsed. rewrite <- H5.
  destruct (clock σ1) as [|t ts] eqn:Hck; cbn.
  - split; [reflexivity|]. unfold alike. rewrite Hck. repeat split; auto.
  - split; [reflexivity|]. unfold alike. cbn. repeat split; auto.
Qed.

(** Two computations on the heap that return and only add arrays. *)
Lemma end_alike_extends {A B} (c1 : H A) (c2 : H B) :
  extends c1 -> extends c2 ->
  (forall h, exists a h', c1 h = (Ok a, h')) ->
  (forall h, exists b h', c2 h = (Ok b, h')) ->
  end_alike s e any (on_heap c1) (on_heap c2).
Proof.
  intros He1 He2 Hr1 Hr2 σ1 σ2 ([a Ha] & [b Hb] & H3 & H4 & H5 & H6).
  unfold on_heap.
  destruct (Hr1 (heap σ1)) as (x & h1 & Hc1).
  destruct (Hr2 (heap σ2)) as (y & h2 & Hc2).
  rewrite Hc1, Hc2. cbn [fst snd res_rel]. split; [exact I|].
  pose proof (He1 _ _ _ s a Hc1 Ha) as Hs1.
  pose proof (He1 _ _ _ e b Hc1 Hb) as Hb1.
  rewrite Ha in H3. rewrite Hb in H4.
  pose proof (He2 _ _ _ s a Hc2 (eq_sym H3)) as Hs2.
  pose proof (He2 _ _ _ e b Hc2 (eq_sym H4)) as Hb2.
  unfold alike, set_heap. cbn [heap clock stdout].
  rewrite Hs1, Hb1, Hs2, Hb2. repeat split; eauto.
Qed.

Lemma end_alike_copy l :
  l = s \/ l = e -> end_alike s e any (on_heap (copy l)) (on_heap (copy l)).
Proof.
  intros Hl σ1 σ2 Hσ.
  pose proof Hσ as ([a Ha] & [b Hb] & H3 & H4 & H5 & H6).
  assert (Hl1 : exists x, heap σ1 !! l = Some x /\ heap σ2 !! l = Some x).
  { destruct Hl as [-> | ->]; eexists; split; eauto; congruence. }
  destruct Hl1 as (x & Hx1 & Hx2).
  unfold on_heap, copy, mbind, ST_bind, load, alloc. rewrite Hx1, Hx2.
  cbn [fst snd res_rel]. split; [exact I|].
  pose proof (fresh_not_allocated (heap σ1)) as Hf1.
  pose proof (fresh_not_allocated (heap σ2)) as Hf2.
  unfold alike, set_heap, heap_t in *. cbn [heap clock stdout].
  rewrite !lookup_insert_ne by congruence. repeat split; eauto.
Qed.

Lemma end_alike_process p :
  local p -> keeps_arrays p ->
  end_alike s e any (on_heap (p s e)) (on_heap (p s e)).
Proof.
  intros Hloc Hkeep σ1 σ2 ([a Ha] & [b Hb] & H3 & H4 & H5 & H6).
  destruct (Hloc s e (heap σ1) (heap σ2)) as (Hr & He & Hf1); eauto.
  destruct (Hloc s e (heap σ2) (heap σ1)) as (_ & _ & Hf2);
    try (rewrite <- ?H3, <- ?H4; eauto); try congruence.
  unfold on_heap, result_of in *.
  destruct (p s e (heap σ1)) as [r1 h1] eqn:Hp1.
  destruct (p s e (heap σ2)) as [r2 h2] eqn:Hp2.
  cbn [fst snd] in *. split.
  - destruct r1, r2; cbn; try exact I; try discriminate. now injection Hr.
  - pose proof (Hkeep s e _ _ _ Hp1) as Hk1.
    destruct (Hk1 e b Hb) as [He1 _]. destruct (Hk1 s a Ha) as [Hs1 _].
    unfold alike, set_heap. cbn [heap clock stdout].
    split; [exact Hs1|]. split; [exact He1|]. split; [|auto].
    destruct (decide (s = e)) as [->|Hne]; [exact He|].
    rewrite (Hf1 s a Hne Ha). symmetry. apply Hf2; [exact Hne | congruence].
Qed.

Lemma end_alike_call p :
  local p -> keeps_arrays p ->
  end_alike s e any (call p s e) (call p s e).
Proof.
  intros Hloc Hkeep. unfold call.
  apply (end_alike_bind any).
  { intros σ1 σ2 Hσ. unfold on_heap. cbn. split; [exact I|].
    destruct Hσ as (H1 & H2 & H3 & H4 & H5 & H6).
    unfold alike. cbn. auto 10. }
  intros b1 b2 _. apply (end_alike_bind any); [apply end_alike_log|].
  intros _ _ _. apply (end_alike_bind any); [now apply end_alike_process|].
  intros _ _ _. now apply end_alike_ret.
Qed.

Lemma end_alike_timeit p c1 c2 sc1 ec1 sc2 ec2 rows cols n :
  0 <= rows -> 0 <= cols ->
  local p -> keeps_arrays p ->
  runs_through c1 -> runs_through c2 ->
  assigns_nothing c1 = true -> assigns_nothing c2 = true ->
  end_alike s e eq
    (timeit {| stmt := call p s e; timer_setup := c1;
               globals := timer_globals sc1 ec1 rows cols |} n)
    (timeit {| stmt := call p s e; timer_setup := c2;
               globals := timer_globals sc2 ec2 rows cols |} n).
Proof.
  intros Hr Hc Hloc Hkeep Hrun1 Hrun2 Hc1 Hc2. unfold timeit.
  cbn [stmt timer_setup globals].
  apply (end_alike_bind any); [apply end_alike_log|]. intros _ _ _.
  apply (end_alike_bind any); [apply end_alike_log|]. intros _ _ _.
  apply (end_alike_bind any).
  { apply end_alike_extends.
    - now apply exec_extends.
    - now apply exec_extends.
    - intros h. apply Hrun1; assumption.
    - intros h. apply Hrun2; assumption. }
  intros _ _ _. apply (end_alike_bind any).
  { apply end_alike_for; [reflexivity|]. intros _ _.
    now apply end_alike_call. }
  intros _ _ _. apply end_alike_elapsed.
Qed.

(** Two benchmarks of one kernel that differ in the setup code alone. *)
Lemma end_alike_benchmark cfg p c1 c2 :
  local p -> keeps_arrays p ->
  runs_through c1 -> runs_through c2 ->
  assigns_nothing c1 = true -> assigns_nothing c2 = true ->
  end_alike s e eq (benchmark cfg c1 p s e) (benchmark cfg c2 p s e).
Proof.
  intros Hloc Hkeep Hrun1 Hrun2 Hc1 Hc2. unfold benchmark. cbv zeta.
  apply (end_alike_bind any); [apply end_alike_copy; auto|].
  intros sc1 sc2 _.
  apply (end_alike_bind any); [apply end_alike_copy; auto|].
  intros ec1 ec2 _.
  assert (Htimeit : forall n,
    end_alike s e eq
      (timeit {| stmt := call p s e; timer_setup := c1;
                 globals := timer_globals sc1 ec1 (Z.of_nat (SIZE cfg).1)
                              (Z.of_nat (SIZE cfg).2) |} n)
      (timeit {| stmt := call p s e; timer_setup := c2;
                 globals := timer_globals sc2 ec2 (Z.of_nat (SIZE cfg).1)
                              (Z.of_nat (SIZE cfg).2) |} n)).
  { intros n. apply end_alike_timeit; auto; lia. }
  apply (end_alike_bind any).
  { apply end_alike_if; [|now apply end_alike_ret].
    apply end_alike_for; [reflexivity|]. intros _ _.
    apply (end_alike_bind eq); [apply Htimeit|].
    intros _ _ _. now apply end_alike_ret. }
  intros _ _ _. apply (end_alike_bind any).
  { apply end_alike_if; [apply end_alike_log | now apply end_alike_ret]. }
  intros _ _ _. apply (end_alike_bind eq); [apply Htimeit|].
  intros t ? <-. apply (end_alike_bind any).
  { apply end_alike_if; [|now apply end_alike_ret].
    apply (end_alike_bind any); [apply end_alike_log|].
    intros _ _ _. apply end_alike_print. }
  intros _ _ _. apply (end_alike_bind eq); [apply end_alike_lift|].
  intros avg ? <-. now apply end_alike_ret.
Qed.

End Alike.

Lemma res_rel_eq {A} (x y : res A) : res_rel eq x y -> x = y.
Proof. destruct x, y; cbn; intros Hxy; try contradiction; now subst. Qed.

(** C10, as amended: what a setup code leaves in the timer's bindings
    never reaches [process], which is called with its two arrays and
    nothing else; a setup code changes the timed invocations only by
    assigning into an array.  For every kernel of the repository and any two
    setup codes that run through in the timer's namespace and assign into no
    array (imports, definitions, and assignments of a new array or of the
    result of a call, as the setup strings of the repository have them), the
    two benchmarks of the kernel, from the same state, have the same
    outcome, the same total and average or the same exception, and leave
    the same buffer, the same field, the same clock and the same output;
    and a call of [process] after the one setup code and after the other,
    run from the same heap, returns the same array, or raises the same
    exception, and leaves the same buffer, and the arrays the setup code
    has created are after the call what they were before it. *)
Theorem C10_setup_independence (cfg : settings) (c1 c2 : code) (σ : state)
    (s e : loc) :
  assigns_nothing c1 = true -> assigns_nothing c2 = true ->
  runs_through c1 -> runs_through c2 ->
  is_Some (heap σ !! s) -> is_Some (heap σ !! e) ->
  Forall (fun p =>
    let out1 := benchmark cfg c1 p s e σ in
    let out2 := benchmark cfg c2 p s e σ in
    (out1.1 = out2.1 /\
     heap out1.2 !! e = heap out2.2 !! e /\
     heap out1.2 !! s = heap out2.2 !! s /\
     clock out1.2 = clock out2.2 /\ stdout out1.2 = stdout out2.2) /\
    (forall g ns1 ns2 h1 h2,
       exec g c1 ∅ (heap σ) = (Ok ns1, h1) ->
       exec g c2 ∅ (heap σ) = (Ok ns2, h2) ->
       result_of (p s e h1) = result_of (p s e h2) /\
       (p s e h1).2 !! e = (p s e h2).2 !! e /\
       (forall l a, heap σ !! l = None -> h1 !! l = Some a ->
          (p s e h1).2 !! l = Some a)))
    registered.
Proof.
  intros Hc1 Hc2 Hrun1 Hrun2 [a Hs] [b He].
  pose proof registered_local as Hlocal.
  pose proof registered_keep_arrays as Hkeep.
  rewrite Forall_forall in Hlocal, Hkeep. apply Forall_forall.
  intros p Hp. cbv zeta. split.
  - assert (Hσ : alike s e σ σ) by (unfold alike; eauto 10).
    destruct (end_alike_benchmark s e cfg p c1 c2 (Hlocal p Hp) (Hkeep p Hp)
                Hrun1 Hrun2 Hc1 Hc2 σ σ Hσ) as [Hr (_ & _ & H3 & H4 & H5 & H6)].
    split; [now apply res_rel_eq|]. auto.
  - intros g ns1 ns2 h1 h2 H1 H2.
    pose proof (exec_extends g c1 ∅ Hc1 _ _ h1 s a H1 Hs) as Hs1.
    pose proof (exec_extends g c1 ∅ Hc1 _ _ h1 e b H1 He) as He1.
    pose proof (exec_extends g c2 ∅ Hc2 _ _ h2 s a H2 Hs) as Hs2.
    pose proof (exec_extends g c2 ∅ Hc2 _ _ h2 e b H2 He) as He2.
    destruct (Hlocal p Hp s e h1 h2) as (Hr & Hb & Hf); try congruence; eauto.
    split; [exact Hr|]. split; [exact Hb|].
    intros l x Hl Hl1. apply Hf; [congruence | exact Hl1].
Qed.

Lemma C10_setup_independence_witness :
  let cfg := {| DEBUG := false; SIZE := (1%nat, 1%nat);
                NUM_TRIALS := 2; NUM_WARMUP := 1 |} in
  let σ := {| heap := base_heap [[decimal 6 10]] 1 1; stdout := [];
              clock := [decimal 1 10; decimal 2 10]; trace := [] |} in
  let g := timer_globals 3%positive 4%positive 1 1 in
  let h1 := (exec g dask_array_method.setup ∅ (heap σ)).2 in
  let h2 := (exec g where_method.setup ∅ (heap σ)).2 in
  h1 !! 3%positive = Some (zeros 1 1 uint64) /\
  h2 !! 3%positive = None /\
  Forall (fun p =>
    let out1 := benchmark cfg dask_array_method.setup p 1%positive 2%positive σ in
    let out2 := benchmark cfg where_method.setup p 1%positive 2%positive σ in
    (out1.1 = out2.1 /\
     heap out1.2 !! 2%positive = heap out2.2 !! 2%positive /\
     heap out1.2 !! 1%positive = heap out2.2 !! 1%positive /\
     clock out1.2 = clock out2.2 /\ stdout out1.2 = stdout out2.2) /\
    result_of (p 1%positive 2%positive h1) = result_of (p 1%positive 2%positive h2) /\
    (p 1%positive 2%positive h1).2 !! 2%positive
      = (p 1%positive 2%positive h2).2 !! 2%positive /\
    (forall l a, heap σ !! l = None -> h1 !! l = Some a ->
       (p 1%positive 2%positive h1).2 !! l = Some a))
    registered.
Proof.
  intros cfg σ g h1 h2.
  split; [vm_compute; reflexivity|]. split; [vm_compute; reflexivity|].
  pose (o1 := exec g dask_array_method.setup ∅ (heap σ)).
  pose (o2 := exec g where_method.setup ∅ (heap σ)).
  assert (Hall := C10_setup_independence cfg dask_array_method.setup
                    where_method.setup σ 1%positive 2%positive
                    eq_refl eq_refl dask_setup_runs where_setup_runs
                    (ex_intro _ (Field [[decimal 6 10]]) eq_refl)
                    (ex_intro _ (zeros 1 1 uint8) eq_refl)).
  eapply Forall_impl; [exact Hall|].
  intros p [Hruns Hcall]. split; [exact Hruns|].
  apply (Hcall g (match o1.1 with Ok ns => ns | Err _ => ∅ end)
               (match o2.1 with Ok ns => ns | Err _ => ∅ end) h1 h2).
  - vm_compute. reflexivity.
  - vm_compute. reflexivity.
Defined.

(** C10, as stated, fails for a setup string that assigns into an array of
    the program: [from __main__ import start_array] followed by
    [start_array[...] = -1.0] runs in the timer's namespace like any setup
    code, and the timed call of [where_method.process] then finds the field
    it has written: the call leaves 0 in the buffer where, after the
    kernel's own setup code, it leaves 153. *)
Lemma C10_assigning_setup_counterexample :
  let cfg := {| DEBUG := false; SIZE := (1%nat, 1%nat);
                NUM_TRIALS := 1; NUM_WARMUP := 0 |} in
  let σ := {| heap := base_heap [[decimal 6 10]] 1 1; stdout := [];
              clock := []; trace := [] |} in
  let assigning :=
    [FromImportArray "__main__" "start_array" 1%positive;
     AssignAll "start_array" (SFopp one)] in
  let g := timer_globals 3%positive 4%positive 1 1 in
  let h1 := (exec g where_method.setup ∅ (heap σ)).2 in
  let h2 := (exec g assigning ∅ (heap σ)).2 in
  let out1 := benchmark cfg where_method.setup where_method.process
                1%positive 2%positive σ in
  let out2 := benchmark cfg assigning where_method.process
                1%positive 2%positive σ in
  result_of (where_method.process 1%positive 2%positive h1)
    = Ok (Some (Image uint8 [[(153, 0, 0)]])) /\
  result_of (where_method.process 1%positive 2%positive h2)
    = Ok (Some (Image uint8 [[(0, 0, 0)]])) /\
  out1.1 = Ok (zero, zero) /\ out2.1 = Ok (zero, zero) /\
  heap out1.2 !! 2%positive = Some (Image uint8 [[(153, 0, 0)]]) /\
  heap out2.2 !! 2%positive = Some (Image uint8 [[(0, 0, 0)]]).
Proof.
  intros cfg σ assigning g h1 h2 out1 out2.
  vm_compute. repeat split; reflexivity.
Qed.

(** ** The order of the report *)

Section FloatOrder.

Lemma compare_defined (x y : float) :
  is_nan x = false -> is_nan y = false -> exists c, SFcompare x y = Some c.
Proof.
  destruct x as [sx|sx| |sx mx ex], y as [sy|sy| |sy my ey];
    try discriminate; intros _ _; cbn; eauto.
Qed.

Lemma compare_antisym (x y : float) (c : comparison) :
  SFcompare x y = Some c -> SFcompare y x = Some (CompOpp c).
Proof.
  destruct x as [sx|sx| |sx mx ex], y as [sy|sy| |sy my ey]; cbn;
    try discriminate;
    try (destruct sx; intros [= <-]; reflexivity);
    try (destruct sy; intros [= <-]; reflexivity);
    try (destruct sx, sy; intros [= <-]; reflexivity).
  assert (Hm : Pos.compare_cont Eq my mx = CompOpp (Pos.compare_cont Eq mx my)).
  { now rewrite (Pos.compare_cont_antisym mx my Eq). }
  rewrite (Z.compare_antisym ex ey), Hm.
  destruct sx, sy; intros [= <-]; try reflexivity;
    destruct (ex ?= ey); cbn; try reflexivity;
    now rewrite ?CompOpp_involutive.
Qed.

Lemma ltb_false_leb (x y : float) :
  is_nan x = false -> is_nan y = false -> ltb y x = false -> leb x y = true.
Proof.
  intros Hx Hy. unfold ltb, leb, SFltb, SFleb.
  destruct (compare_defined y x Hy Hx) as [c Hc].
  rewrite Hc, (compare_antisym y x c Hc). now destruct c.
Qed.

Lemma ltb_leb (x y : float) : ltb x y = true -> leb x y = true.
Proof.
  unfold ltb, leb, SFltb, SFleb. now destruct (SFcompare x y) as [[]|].
Qed.

Lemma compare_Eq (x y : float) :
  SFcompare x y = Some Eq ->
  (exists sx sy, x = S754_zero sx /\ y = S754_zero sy) \/ x = y.
Proof.
  destruct x as [sx|sx| |sx mx ex], y as [sy|sy| |sy my ey]; cbn;
    try discriminate; try (destruct sx; discriminate);
    try (destruct sy; discriminate).
  - eauto.
  - destruct sx, sy; try discriminate; auto.
  - destruct sx, sy; try discriminate;
      destruct (ex ?= ey) eqn:He; try discriminate;
      apply Z.compare_eq in He; subst ey; intros [= Hm]; right.
    + apply (f_equal CompOpp) in Hm. rewrite CompOpp_involutive in Hm.
      cbn in Hm. now apply Pos.compare_eq in Hm as ->.
    + now apply Pos.compare_eq in Hm as ->.
Qed.

Lemma compare_refl (x : float) : is_nan x = false -> SFcompare x x = Some Eq.
Proof.
  destruct x as [s|s| |s m e]; try discriminate; intros _; cbn.
  - reflexivity.
  - now destruct s.
  - rewrite Z.compare_refl.
    change (Pos.compare_cont Eq m m) with (Pos.compare m m).
    rewrite Pos.compare_refl. now destruct s.
Qed.

(** Two floats equal to a third are not one below the other. *)
Lemma eqb_not_ltb (x z k : float) :
  eqb x k = true -> eqb z k = true -> ltb z x = false.
Proof.
  unfold eqb, ltb, SFeqb, SFltb.
  destruct (SFcompare x k) as [[]|] eqn:Hx; try discriminate.
  destruct (SFcompare z k) as [[]|] eqn:Hz; try discriminate. intros _ _.
  apply compare_Eq in Hx as [(sx & sk & Hx1 & Hx2)|Hx];
    apply compare_Eq in Hz as [(sz & sk' & Hz1 & Hz2)|Hz]; subst;
    try reflexivity.
  destruct k as [s|s| |s m e]; try reflexivity.
  - now destruct s.
  - now rewrite compare_refl.
Qed.

End FloatOrder.

Section Sorting.

Context {A : Type} (key : A -> float).

Lemma insert_by_perm (x : A) (l : list A) :
  Permutation (insert_by key x l) (x :: l).
Proof.
  induction l as [|y l IH]; cbn; [reflexivity|].
  destruct (ltb (key y) (key x)); [|reflexivity].
  rewrite IH. apply perm_swap.
Qed.

Lemma sorted_perm (l : list A) : Permutation (sorted key l) l.
Proof.
  induction l as [|x l IH]; cbn; [reflexivity|].
  fold (sorted key l). now rewrite insert_by_perm, IH.
Qed.

Lemma insert_by_chain (x : A) (l : list A) :
  is_nan (key x) = false -> Forall (fun y => is_nan (key y) = false) l ->
  chain key l -> chain key (insert_by key x l).
Proof.
  intros Hx Hl Hc. induction Hc as [|y|y z l Hyz Hc IH]; cbn.
  - constructor.
  - inversion Hl; subst.
    destruct (ltb (key y) (key x)) eqn:Hlt; constructor;
      auto using ltb_leb, ltb_false_leb; constructor.
  - inversion Hl as [|? ? Hy Hl']; subst.
    destruct (ltb (key y) (key x)) eqn:Hlt.
    + specialize (IH Hl'). cbn in IH.
      destruct (ltb (key z) (key x)); constructor; auto using ltb_leb.
    + constructor; [auto using ltb_false_leb|]. now constructor.
Qed.

Lemma sorted_chain (l : list A) :
  Forall (fun y => is_nan (key y) = false) l -> chain key (sorted key l).
Proof.
  induction 1 as [|x l Hx Hl IH]; cbn; [constructor|].
  fold (sorted key l). apply insert_by_chain; auto.
  eapply Permutation_Forall; [|exact Hl]. symmetry. apply sorted_perm.
Qed.

Lemma chain_lookup (l : list A) i a b :
  chain key l -> l !! i = Some a -> l !! S i = Some b ->
  leb (key a) (key b) = true.
Proof.
  intros Hc. revert i. induction Hc as [|x|x y l Hxy Hc IH]; intros i Ha Hb.
  - discriminate.
  - destruct i; discriminate.
  - destruct i as [|i]; cbn in *.
    + now injection Ha as <-; injection Hb as <-.
    + eapply IH; eauto.
Qed.

(** The insertion does not change the order of the elements with one key. *)
Lemma insert_by_filter (k : float) (x : A) (l : list A) :
  List.filter (fun r => eqb (key r) k) (insert_by key x l)
  = List.filter (fun r => eqb (key r) k) (x :: l).
Proof.
  induction l as [|y l IH]; [reflexivity|]. cbn [insert_by].
  destruct (ltb (key y) (key x)) eqn:Hlt; [|reflexivity].
  cbn [List.filter] in *. rewrite IH.
  destruct (eqb (key x) k) eqn:Hx, (eqb (key y) k) eqn:Hy; try reflexivity.
  now rewrite (eqb_not_ltb (key x) (key y) k Hx Hy) in Hlt.
Qed.

Lemma sorted_filter (k : float) (l : list A) :
  List.filter (fun r => eqb (key r) k) (sorted key l)
  = List.filter (fun r => eqb (key r) k) l.
Proof.
  induction l as [|x l IH]; [reflexivity|]. cbn [sorted foldr].
  fold (sorted key l). rewrite insert_by_filter. cbn [List.filter].
  now rewrite IH.
Qed.

End Sorting.

Section Report.

Lemma print_lines {A} (f : A -> string) (l : list A) (σ : state) :
  for_ l (fun r => print (f r)) σ
  = (Ok tt, {| heap := heap σ; stdout := stdout σ ++ map f l;
               clock := clock σ; trace := trace σ |}).
Proof.
  revert σ. induction l as [|x l IH]; intros σ; cbn [for_ map].
  - rewrite app_nil_r. now destruct σ.
  - unfold mbind, ST_bind, print at 1. rewrite IH. cbn.
    now rewrite <- app_assoc.
Qed.

End Report.

(** ** The report *)

Section DisplayResults.

Variable cfg : settings.
Variables s e : loc.

Lemma printed_printed l1 l2 σ : printed l2 (printed l1 σ) = printed (l1 ++ l2) σ.
Proof. unfold printed. cbn. now rewrite app_assoc. Qed.

Lemma print_printed line σ : print line σ = (Ok tt, printed [line] σ).
Proof. reflexivity. Qed.

(** The loop over the registry, when it goes through. *)
Lemma run_methods_run methods results overall σ results' overall' σ' :
  run_methods cfg s e methods results overall σ = (Ok (results', overall'), σ') ->
  exists new,
    results' = results ++ new /\
    map method_name new = map fst methods /\
    overall' = foldl add overall (map total_time new) /\
    stdout σ' = stdout σ ++ profiler_lines cfg (length methods).
Proof.
  revert results overall σ.
  induction methods as [|[name m] methods IH]; intros results overall σ Hrun;
    cbn [run_methods] in Hrun.
  - injection Hrun as <- <- <-. exists []. unfold profiler_lines.
    rewrite app_nil_r. split; [reflexivity|]. split; [reflexivity|].
    split; [reflexivity|]. destruct (DEBUG cfg); cbn; now rewrite app_nil_r.
  - apply bind_ok in Hrun as (setup & σ1 & H1 & Hrun). injection H1 as _ <-.
    apply bind_ok in Hrun as (process & σ2 & H2 & Hrun). injection H2 as _ <-.
    apply bind_ok in Hrun as ([total avg] & σ3 & H3 & Hrun).
    apply benchmark_run in H3 as (_ & _ & _ & _ & _ & _ & _ & _ & _ & Ho).
    apply IH in Hrun as (new & -> & Hnames & -> & Ho').
    exists ((name, avg, total) :: new). rewrite <- app_assoc.
    split; [reflexivity|]. split; [cbn; now rewrite Hnames|].
    split; [reflexivity|].
    rewrite Ho', Ho, <- app_assoc. f_equal. unfold profiler_lines.
    now destruct (DEBUG cfg).
Qed.

Lemma run_methods_app pre rest results overall σ :
  run_methods cfg s e (pre ++ rest) results overall σ
  = match run_methods cfg s e pre results overall σ with
    | (Ok (results', overall'), σ') =>
        run_methods cfg s e rest results' overall' σ'
    | (Err x, σ') => (Err x, σ')
    end.
Proof.
  revert results overall σ.
  induction pre as [|[name m] pre IH]; intros results overall σ;
    [reflexivity|].
  cbn [app run_methods]. unfold mbind, ST_bind, lift.
  destruct (getattr (attr_setup m)); [|reflexivity].
  destruct (getattr (attr_process m)); [|reflexivity].
  destruct (benchmark cfg a a0 s e σ) as [[[total avg]|x] σ1]; [|reflexivity].
  apply IH.
Qed.

Lemma run_methods_malformed name m post results overall σ :
  malformed m ->
  run_methods cfg s e ((name, m) :: post) results overall σ
  = (Err AttributeError, σ).
Proof.
  intros [Hm|Hm]; cbn [run_methods]; unfold mbind, ST_bind, lift;
    rewrite Hm; cbn [getattr]; [reflexivity|].
  now destruct (attr_setup m).
Qed.

End DisplayResults.

Section Statistics.

Lemma statistics_quiet {A} (c : M A) :
  (forall σ r σ', c σ = (r, σ') -> stdout σ' = stdout σ) ->
  prints_statistics c.
Proof.
  intros Hc σ r σ' Hrun. exists 0%nat. cbn.
  now rewrite app_nil_r, (Hc σ r σ' Hrun).
Qed.

Lemma statistics_ret {A} (x : A) : prints_statistics (mret x : M A).
Proof. apply statistics_quiet. now intros σ r σ' [= <- <-]. Qed.

Lemma statistics_lift {A} (x : res A) : prints_statistics (lift x : M A).
Proof. apply statistics_quiet. now intros σ r σ' [= <- <-]. Qed.

Lemma statistics_on_heap {A} (c : H A) : prints_statistics (on_heap c).
Proof.
  apply statistics_quiet. intros σ r σ' Hrun.
  now apply on_heap_run in Hrun as (_ & _ & _ & ->).
Qed.

Lemma statistics_log ev : prints_statistics (log ev).
Proof.
  apply statistics_quiet. intros σ r σ' Hrun.
  now apply log_run in Hrun as (_ & _ & _ & _ & ->).
Qed.

Lemma statistics_elapsed : prints_statistics elapsed.
Proof.
  apply statistics_quiet. intros σ r σ'. unfold elapsed.
  destruct (clock σ); now intros [= <- <-].
Qed.

Lemma statistics_print : prints_statistics (print "(profiler statistics)").
Proof. intros σ r σ' [= <- <-]. now exists 1%nat. Qed.

Lemma statistics_bind {A B} (m : M A) (k : A -> M B) :
  prints_statistics m -> (forall x, prints_statistics (k x)) ->
  prints_statistics (m ≫= k).
Proof.
  intros Hm Hk σ r σ' Hrun. unfold mbind, ST_bind in Hrun.
  destruct (m σ) as [[x|ex] σ1] eqn:Hmσ.
  - destruct (Hm _ _ _ Hmσ) as [k1 H1]. destruct (Hk x _ _ _ Hrun) as [k2 H2].
    exists (k1 + k2)%nat. now rewrite H2, H1, replicate_add, app_assoc.
  - injection Hrun as <- <-. eapply Hm. exact Hmσ.
Qed.

Lemma statistics_for {I} (l : list I) (body : I -> M unit) :
  (forall i, prints_statistics (body i)) -> prints_statistics (for_ l body).
Proof.
  intros Hb. induction l as [|i l IH]; cbn [for_].
  - apply statistics_ret.
  - apply statistics_bind; auto.
Qed.

Lemma statistics_if {A} (b : bool) (c1 c2 : M A) :
  prints_statistics c1 -> prints_statistics c2 ->
  prints_statistics (if b then c1 else c2).
Proof. now destruct b. Qed.

Lemma statistics_call process s e : prints_statistics (call process s e).
Proof.
  unfold call.
  apply statistics_bind; [apply statistics_on_heap|]. intros buffer.
  apply statistics_bind; [apply statistics_log|]. intros _.
  apply statistics_bind; [apply statistics_on_heap|]. intros _.
  apply statistics_ret.
Qed.

Lemma statistics_timeit timer n :
  prints_statistics (stmt timer) -> prints_statistics (timeit timer n).
Proof.
  intros Hs. unfold timeit.
  apply statistics_bind; [apply statistics_log|]. intros _.
  apply statistics_bind; [apply statistics_log|]. intros _.
  apply statistics_bind; [apply statistics_on_heap|]. intros _.
  apply statistics_bind; [apply statistics_for; intros _; exact Hs|].
  intros _. apply statistics_elapsed.
Qed.

Lemma statistics_benchmark cfg setup process s e :
  prints_statistics (benchmark cfg setup process s e).
Proof.
  unfold benchmark. cbv zeta.
  apply statistics_bind; [apply statistics_on_heap|]. intros start_copy.
  apply statistics_bind; [apply statistics_on_heap|]. intros end_copy.
  apply statistics_bind.
  { apply statistics_if; [|apply statistics_ret].
    apply statistics_for. intros _.
    apply statistics_bind; [|intros; apply statistics_ret].
    apply statistics_timeit, statistics_call. }
  intros _. apply statistics_bind.
  { apply statistics_if; [apply statistics_log | apply statistics_ret]. }
  intros _. apply statistics_bind.
  { apply statistics_timeit, statistics_call. }
  intros elapsed_time. apply statistics_bind.
  { apply statistics_if; [|apply statistics_ret].
    apply statistics_bind; [apply statistics_log|].
    intros _. apply statistics_print. }
  intros _. apply statistics_bind; [apply statistics_lift|].
  intros avg. apply statistics_ret.
Qed.

Lemma statistics_run_methods cfg s e methods results overall :
  prints_statistics (run_methods cfg s e methods results overall).
Proof.
  revert results overall.
  induction methods as [|[name m] methods IH]; intros results overall;
    cbn [run_methods].
  - apply statistics_ret.
  - apply statistics_bind; [apply statistics_lift|]. intros setup.
    apply statistics_bind; [apply statistics_lift|]. intros process.
    apply statistics_bind; [apply statistics_benchmark|]. intros [total avg].
    apply IH.
Qed.

End Statistics.

Section DisplayResultsRun.

Lemma display_results_run cfg s e methods σ :
  display_results cfg s e methods σ
  = match run_methods cfg s e methods [] (of_int 0)
            (printed (report_header cfg) σ) with
    | (Ok (results, overall), σ1) =>
        (Ok tt, printed (map result_line (sorted avg_time results)
                           ++ report_footer overall) σ1)
    | (Err x, σ1) => (Err x, σ1)
    end.
Proof.
  unfold display_results, mbind, ST_bind.
  rewrite !print_printed, !printed_printed.
  change ([separator] ++
          [Format.ljust 40 "-> Benchmark started" +:+ Format.rjust 60 (header cfg)]
          ++ [separator]) with (report_header cfg).
  destruct (run_methods cfg s e methods [] (of_int 0)
              (printed (report_header cfg) σ)) as [[[results overall]|x] σ1];
    [|reflexivity].
  rewrite print_lines. unfold print, printed, report_footer.
  cbn [heap stdout clock trace]. f_equal. f_equal.
  now rewrite <- !app_assoc.
Qed.

End DisplayResultsRun.

(** ** What a run measures *)

Section WholeRun.

Variable cfg : settings.
Variables s e : loc.

Lemma calls_profiler (b : bool) (on : bool) :
  calls (if b then [EvProfiler on] else []) = 0%nat.
Proof. now destruct b. Qed.

Lemma benchmark_calls setup process σ total avg σ' :
  benchmark cfg setup process s e σ = (Ok (total, avg), σ') ->
  let W := Z.to_nat (NUM_WARMUP cfg) in
  let T := Z.to_nat (NUM_TRIALS cfg) in
  calls (trace σ') = (calls (trace σ) + (W * W + T))%nat /\
  clock σ' = drop (S W) (clock σ) /\
  total = nth W (clock σ) zero /\
  avg = mul (div total (of_int (NUM_TRIALS cfg))) (of_int 1000).
Proof.
  intros Hb W T.
  apply benchmark_run in Hb
    as (warm & timed & Ht & Hlen & Hwarm & Htimed & Htot & Havg & Hck & _).
  split; [|auto].
  rewrite Ht, !calls_app, !calls_profiler.
  rewrite (calls_blocks _ _ _ _ _ Hwarm), Hlen.
  rewrite (calls_timeit_block _ _ _ _ _ Htimed). fold W T. lia.
Qed.

Lemma run_methods_calls methods results overall σ results' overall' σ' :
  run_methods cfg s e methods results overall σ = (Ok (results', overall'), σ') ->
  let W := Z.to_nat (NUM_WARMUP cfg) in
  let T := Z.to_nat (NUM_TRIALS cfg) in
  calls (trace σ') = (calls (trace σ) + length methods * (W * W + T))%nat /\
  clock σ' = drop (length methods * S W) (clock σ) /\
  length results' = (length results + length methods)%nat /\
  (forall i r, results !! i = Some r -> results' !! i = Some r) /\
  (forall i name m,
     methods !! i = Some (name, m) ->
     let total := nth (i * S W + W) (clock σ) zero in
     results' !! (length results + i)%nat
     = Some (name, mul (div total (of_int (NUM_TRIALS cfg))) (of_int 1000), total)).
Proof.
  intros Hrun W T. revert results overall σ Hrun.
  induction methods as [|[name m] methods IH]; intros results overall σ Hrun;
    cbn [run_methods] in Hrun.
  - injection Hrun as <- <- <-. cbn [length]. rewrite Nat.add_0_r.
    repeat split; auto. intros i name m Hi. discriminate.
  - apply bind_ok in Hrun as (setup & σ1 & H1 & Hrun).
    unfold lift in H1. injection H1 as H1 <-.
    apply bind_ok in Hrun as (process & σ2 & H2 & Hrun).
    unfold lift in H2. injection H2 as H2 <-.
    apply bind_ok in Hrun as ([total avg] & σ3 & H3 & Hrun).
    apply benchmark_calls in H3 as (Hc3 & Hk3 & Htot & Havg).
    apply IH in Hrun as (Hc & Hk & Hlen & Hold & Hnew).
    fold W T in Hc3, Hk3, Htot.
    split; [rewrite Hc, Hc3; cbn [length]; lia|].
    split; [rewrite Hk, Hk3, drop_drop; cbn [length]; f_equal; lia|].
    split; [rewrite Hlen, length_app; cbn [length]; lia|].
    split.
    + intros i r Hi. apply Hold. apply lookup_app_l_Some. exact Hi.
    + intros [|i] name' m' Hi; cbn [lookup list_lookup] in Hi.
      * injection Hi as <- <-. cbv zeta.
        replace (length results + 0)%nat with (length results) by lia.
        assert (Hr : results' !! length results = Some (name, avg, total)).
        { apply Hold. rewrite lookup_app_r by lia. now rewrite Nat.sub_diag. }
        etransitivity; [exact Hr|].
        cbn [Nat.mul Nat.add]. now rewrite <- Htot, <- Havg.
      * specialize (Hnew i name' m' Hi). cbv zeta in Hnew.
        rewrite length_app in Hnew. cbn [length] in Hnew.
        replace (length results + S i)%nat
          with (length results + 1 + i)%nat by lia.
        etransitivity; [exact Hnew|]. rewrite Hk3.
        try match goal with x := nth _ _ _ |- _ => subst x end.
        rewrite !nth_lookup, lookup_drop.
        replace (S W + (i * S W + W))%nat with (S i * S W + W)%nat by lia.
        reflexivity.
Qed.

End WholeRun.

Section NotNaN.

Lemma shr_1_nonneg (mrs : shr_record) : 0 <= shr_m mrs -> 0 <= shr_m (shr_1 mrs).
Proof.
  destruct mrs as [m r s0]. cbn [shr_m shr_1].
  destruct m as [|[p|p|]|p]; cbn [shr_m]; lia.
Qed.

Lemma iter_shr_1_nonneg (k : nat) (mrs : shr_record) :
  0 <= shr_m mrs -> 0 <= shr_m (Nat.iter k shr_1 mrs).
Proof.
  intros Hm. induction k as [|k IH]; [exact Hm|].
  cbn [Nat.iter nat_rect]. now apply shr_1_nonneg.
Qed.

Lemma shr_fexp_nonneg (m e : Z) (l : location) :
  0 <= m -> 0 <= shr_m (shr_fexp prec emax m e l).1.
Proof.
  intros Hm. unfold shr_fexp, shr.
  assert (H0 : 0 <= shr_m (shr_record_of_loc m l)).
  { destruct l as [|[]]; exact Hm. }
  destruct (fexp prec emax (Zdigits2 m + e) - e) as [|p|p]; cbn [fst];
    [exact H0| |exact H0].
  rewrite iter_pos_nat. now apply iter_shr_1_nonneg.
Qed.

Lemma round_nearest_even_nonneg (m : Z) (l : location) :
  0 <= m -> 0 <= round_nearest_even m l.
Proof.
  intros Hm. destruct l as [|[]]; cbn [round_nearest_even]; try lia.
  destruct (Z.even m); lia.
Qed.

(** Rounding a mantissa that is not negative gives a number. *)
Lemma round_aux_not_nan (sx : bool) (mx ex : Z) (lx : location) :
  0 <= mx -> is_nan (binary_round_aux prec emax sx mx ex lx) = false.
Proof.
  intros Hm. unfold binary_round_aux.
  pose proof (shr_fexp_nonneg mx ex lx Hm) as H1.
  destruct (shr_fexp prec emax mx ex lx) as [mrs' e']. cbn [fst] in H1.
  pose proof (shr_fexp_nonneg
                (round_nearest_even (shr_m mrs') (loc_of_shr_record mrs'))
                e' loc_Exact (round_nearest_even_nonneg _ _ H1)) as H2.
  destruct (shr_fexp prec emax _ e' loc_Exact) as [mrs'' e'']. cbn [fst] in H2.
  destruct (shr_m mrs'') as [|m|m]; [reflexivity| |lia].
  now destruct (e'' <=? emax - prec).
Qed.

Lemma mul_finite_not_nan (x : float) (s : bool) (m : positive) (e : Z) :
  is_nan x = false -> is_nan (mul x (S754_finite s m e)) = false.
Proof.
  destruct x as [sx|sx| |sx mx ex]; intros Hx; try reflexivity;
    [discriminate|].
  unfold mul, SFmul. now apply round_aux_not_nan.
Qed.

Lemma div_finite_not_nan (x : float) (s : bool) (m : positive) (e : Z) :
  is_finite x = true -> is_nan (div x (S754_finite s m e)) = false.
Proof.
  destruct x as [sx|sx| |sx mx ex]; intros Hx; try reflexivity;
    try discriminate.
  unfold div, SFdiv, SFdiv_core_binary.
  set (m' := match _ - _ - _ with Zpos _ => _ | 0 => _ | Zneg _ => 0 end).
  assert (Hm' : 0 <= m').
  { unfold m'. destruct (_ - _ - _) as [|p|p]; try lia.
    apply Z.shiftl_nonneg. lia. }
  pose proof (Z_div_mod m' (Zpos m) ltac:(lia)) as Hq.
  destruct (Z.div_eucl m' (Z.pos m)) as [q r].
  apply round_aux_not_nan. destruct Hq as [Hq Hr]. nia.
Qed.

Lemma digits2_pos_le (p : positive) (n : nat) :
  Zpos p < 2 ^ Z.of_nat n -> Zpos (digits2_pos p) <= Z.of_nat n.
Proof.
  revert n. induction p as [p IH|p IH|]; intros [|n] Hp;
    try (cbn in Hp; lia); cbn [digits2_pos].
  - rewrite Nat2Z.inj_succ, Z.pow_succ_r in Hp by lia.
    specialize (IH n ltac:(lia)). lia.
  - rewrite Nat2Z.inj_succ, Z.pow_succ_r in Hp by lia.
    specialize (IH n ltac:(lia)). lia.
  - lia.
Qed.

(** A positive integer below [2^53] is a float, exactly. *)
Lemma of_int_finite (n : Z) :
  0 < n < 2 ^ 53 -> exists m e, of_int n = S754_finite false m e.
Proof.
  intros [Hpos Hlt]. destruct n as [|p|p]; try lia.
  unfold of_int, binary_normalize, binary_round.
  pose proof (digits2_pos_le p 53 Hlt) as Hd.
  assert (Hd1 : 1 <= Zpos (digits2_pos p)) by lia.
  set (d := Zpos (digits2_pos p)) in *.
  assert (Hfexp : fexp prec emax (d + 0) = d - 53).
  { unfold fexp, emin, prec, emax. lia. }
  rewrite Hfexp. unfold shl_align.
  destruct (d - 53 - 0) as [|k|k] eqn:Hk; try lia.
  - exists p, 0. unfold binary_round_aux, shr_fexp.
    cbn [Zdigits2]. fold d. rewrite Hfexp.
    replace (d - 53 - 0) with 0 by lia.
    cbn [shr shr_record_of_loc shr_m loc_of_shr_record round_nearest_even
         Zdigits2].
    fold d. rewrite Hfexp. replace (d - 53 - 0) with 0 by lia.
    cbn [shr shr_m]. reflexivity.
  - exists (Pos.iter xO p k), (d - 53).
    unfold binary_round_aux, shr_fexp. cbn [Zdigits2].
    assert (Hdig : Zpos (digits2_pos (Pos.iter xO p k)) = 53).
    { rewrite Pos2Nat.inj_iter.
      change (nat_rect _ p (fun _ => xO) (Pos.to_nat k))
        with (Nat.iter (Pos.to_nat k) xO p).
      rewrite digits2_pos_iter. fold d. rewrite positive_nat_Z. lia. }
    rewrite Hdig.
    assert (Hfexp' : fexp prec emax (53 + (d - 53)) = d - 53).
    { unfold fexp, emin, prec, emax. lia. }
    rewrite Hfexp', Z.sub_diag.
    cbn [shr shr_record_of_loc shr_m loc_of_shr_record round_nearest_even
         Zdigits2].
    rewrite Hdig, Hfexp', Z.sub_diag. cbn [shr shr_m].
    assert (Hle : (d - 53 <=? emax - prec) = true).
    { apply Z.leb_le. unfold emax, prec. lia. }
    now rewrite Hle.
Qed.

Lemma avg_not_nan (t : float) (n : Z) :
  0 < n < 2 ^ 53 -> is_finite t = true ->
  is_nan (mul (div t (of_int n)) (of_int 1000)) = false.
Proof.
  intros Hn Ht. destruct (of_int_finite n Hn) as (m & e & ->).
  apply (mul_finite_not_nan _ false 8796093022208000 (-43)).
  now apply div_finite_not_nan.
Qed.

End NotNaN.

Section RunArrays.

Variable cfg : settings.
Variables s e : loc.

Lemma run_methods_arrays methods results overall σ r σ' :
  run_methods cfg s e methods results overall σ = (Ok r, σ') ->
  all_measurements cfg s e methods (heap σ) = (Ok tt, heap σ').
Proof.
  revert results overall σ.
  induction methods as [|[name m] methods IH]; intros results overall σ Hrun;
    cbn [run_methods] in Hrun.
  - now injection Hrun as _ <-.
  - apply bind_ok in Hrun as (setup & σ1 & H1 & Hrun).
    unfold lift in H1. injection H1 as H1 <-.
    apply bind_ok in Hrun as (process & σ2 & H2 & Hrun).
    unfold lift in H2. injection H2 as H2 <-.
    apply bind_ok in Hrun as ([total avg] & σ3 & H3 & Hrun).
    apply benchmark_arrays in H3. apply IH in Hrun.
    unfold all_measurements in *. cbn [for_ snd].
    unfold mbind, ST_bind, lift. rewrite H1, H2, H3. exact Hrun.
Qed.

Lemma display_results_arrays methods σ r σ' :
  display_results cfg s e methods σ = (Ok r, σ') ->
  all_measurements cfg s e methods (heap σ) = (Ok tt, heap σ').
Proof.
  rewrite display_results_run.
  destruct (run_methods cfg s e methods [] (of_int 0)
              (printed (report_header cfg) σ))
    as [[[results overall]|x] σ1] eqn:Hrun; [|discriminate].
  intros [= _ <-]. apply run_methods_arrays in Hrun. exact Hrun.
Qed.

End RunArrays.

Section Parts.

Variable cfg : settings.
Variables s e : loc.

Lemma timeit_block_part setup n t :
  timeit_block setup s e n t -> kernel_part setup s e n t.
Proof.
  intros Hb. split; [exact (calls_timeit_block setup s e n t Hb)|].
  destruct Hb as (body & -> & _ & Hbody). split.
  - cbn [forallb call_on andb].
    induction Hbody as [|ev body [b ->] _ IH]; [reflexivity|].
    cbn [forallb call_on]. now rewrite !Pos.eqb_refl, IH.
  - constructor; [discriminate|]. constructor; [now intros c [= <-]|].
    eapply Forall_impl; [exact Hbody|]. intros ev [b ->] c. discriminate.
Qed.

Lemma kernel_part_app setup m n t1 t2 :
  kernel_part setup s e m t1 -> kernel_part setup s e n t2 ->
  kernel_part setup s e (m + n) (t1 ++ t2).
Proof.
  intros (H1 & H2 & H3) (H4 & H5 & H6). split; [|split].
  - now rewrite calls_app, H1, H4.
  - now rewrite forallb_app, H2, H5.
  - now apply Forall_app.
Qed.

Lemma kernel_part_profiler setup (b on : bool) :
  kernel_part setup s e 0 (if b then [EvProfiler on] else []).
Proof.
  destruct b; (split; [reflexivity|]; split; [reflexivity|]);
    repeat constructor; discriminate.
Qed.

Lemma kernel_part_blocks setup n blocks :
  Forall (timeit_block setup s e n) blocks ->
  kernel_part setup s e (length blocks * n) (concat blocks).
Proof.
  induction 1 as [|b blocks Hb _ IH]; cbn [concat length Nat.mul].
  - split; [reflexivity|]. split; [reflexivity | constructor].
  - apply kernel_part_app; [now apply timeit_block_part | exact IH].
Qed.

Lemma benchmark_part setup process σ r σ' :
  benchmark cfg setup process s e σ = (Ok r, σ') ->
  exists part,
    trace σ' = trace σ ++ part /\
    kernel_part setup s e
      (Z.to_nat (NUM_WARMUP cfg) * Z.to_nat (NUM_WARMUP cfg)
       + Z.to_nat (NUM_TRIALS cfg)) part.
Proof.
  destruct r as [total avg]. intros Hrun.
  apply benchmark_run in Hrun
    as (warm & timed & Ht & Hlen & Hwarm & Htimed & _).
  eexists. split; [exact Ht|].
  pose proof (kernel_part_blocks setup _ warm Hwarm) as Hw. rewrite Hlen in Hw.
  replace (Z.to_nat (NUM_WARMUP cfg) * Z.to_nat (NUM_WARMUP cfg)
           + Z.to_nat (NUM_TRIALS cfg))%nat
    with (Z.to_nat (NUM_WARMUP cfg) * Z.to_nat (NUM_WARMUP cfg)
          + (0 + (Z.to_nat (NUM_TRIALS cfg) + 0)))%nat by lia.
  apply kernel_part_app; [exact Hw|].
  apply kernel_part_app; [apply kernel_part_profiler|].
  apply kernel_part_app; [now apply timeit_block_part|].
  apply kernel_part_profiler.
Qed.

Lemma run_methods_parts methods results overall σ r σ' :
  run_methods cfg s e methods results overall σ = (Ok r, σ') ->
  exists parts,
    trace σ' = trace σ ++ concat parts /\
    Forall2 (fun (kv : string * module) part =>
      exists setup,
        attr_setup kv.2 = Some setup /\
        kernel_part setup s e
          (Z.to_nat (NUM_WARMUP cfg) * Z.to_nat (NUM_WARMUP cfg)
           + Z.to_nat (NUM_TRIALS cfg)) part)
      methods parts.
Proof.
  revert results overall σ.
  induction methods as [|[name m] methods IH]; intros results overall σ Hrun;
    cbn [run_methods] in Hrun.
  - injection Hrun as _ <-. exists []. cbn. rewrite app_nil_r.
    split; [reflexivity | constructor].
  - apply bind_ok in Hrun as (setup & σ1 & H1 & Hrun).
    unfold lift in H1. injection H1 as H1 <-.
    apply bind_ok in Hrun as (process & σ2 & H2 & Hrun).
    unfold lift in H2. injection H2 as H2 <-.
    apply bind_ok in Hrun as ([total avg] & σ3 & H3 & Hrun).
    apply benchmark_part in H3 as (part & Ht3 & Hpart).
    apply IH in Hrun as (parts & Ht & Hparts).
    exists (part :: parts). cbn [concat].
    split; [now rewrite Ht, Ht3, <- app_assoc|].
    constructor; [|exact Hparts].
    exists setup. split; [|exact Hpart]. cbn [snd].
    destruct (attr_setup m); [now injection H1 as -> | discriminate].
Qed.

End Parts.

Section Measured.

Variable cfg : settings.
Variables s e : loc.

(** What a run of [display_results] that returns has measured and
    printed. *)
Lemma display_results_measured methods σ r σ' :
  display_results cfg s e methods σ = (Ok r, σ') ->
  let W := Z.to_nat (NUM_WARMUP cfg) in
  clock σ' = drop (length methods * S W) (clock σ) /\
  exists results : list result,
    map method_name results = map fst methods /\
    length results = length methods /\
    (forall i name m,
       methods !! i = Some (name, m) ->
       let total := nth (i * S W + W) (clock σ) zero in
       results !! i
       = Some (name, mul (div total (of_int (NUM_TRIALS cfg))) (of_int 1000),
               total)) /\
    stdout σ' = stdout σ ++ report_header cfg
                  ++ profiler_lines cfg (length methods)
                  ++ map result_line (sorted avg_time results)
                  ++ report_footer
                       (foldl add (of_int 0) (map total_time results)).
Proof.
  rewrite display_results_run.
  destruct (run_methods cfg s e methods [] (of_int 0)
              (printed (report_header cfg) σ))
    as [[[results overall]|x] σ1] eqn:Hrun; [|discriminate].
  intros [= _ <-] W.
  pose proof (run_methods_calls cfg s e methods [] (of_int 0) _ _ _ _ Hrun)
    as (_ & Hk & Hlen & _ & Hnew).
  apply run_methods_run in Hrun as (new & -> & Hnames & -> & Ho).
  cbn [printed clock stdout length Nat.add app] in *.
  split; [exact Hk|]. exists new.
  split; [exact Hnames|]. split; [exact Hlen|]. split; [exact Hnew|].
  rewrite Ho. now rewrite <- !app_assoc.
Qed.

(** Finite readings of the clock give averages that are numbers. *)
Lemma measured_not_nan (methods : dict module) (clock : list float)
    (results : list result) :
  0 < NUM_TRIALS cfg < 2 ^ 53 ->
  Forall (fun t => is_finite t = true) clock ->
  length results = length methods ->
  (forall i name m,
     methods !! i = Some (name, m) ->
     let total := nth (i * S (Z.to_nat (NUM_WARMUP cfg))
                       + Z.to_nat (NUM_WARMUP cfg)) clock zero in
     results !! i
     = Some (name, mul (div total (of_int (NUM_TRIALS cfg))) (of_int 1000),
             total)) ->
  Forall (fun r => is_nan (avg_time r) = false) results.
Proof.
  intros HT Hclock Hlen Hnew.
  apply Forall_lookup. intros i r Hr.
  destruct (lookup_lt_is_Some_2 methods i) as [[name m] Hm].
  { rewrite <- Hlen. eapply lookup_lt_Some. exact Hr. }
  pose proof (Hnew i name m Hm) as Hri. cbv zeta in Hri.
  assert (Heq : Some r = Some (name,
            mul (div (nth (i * S (Z.to_nat (NUM_WARMUP cfg))
                          + Z.to_nat (NUM_WARMUP cfg)) clock zero)
                   (of_int (NUM_TRIALS cfg))) (of_int 1000),
            nth (i * S (Z.to_nat (NUM_WARMUP cfg))
                 + Z.to_nat (NUM_WARMUP cfg)) clock zero)).
  { etransitivity; [symmetry; exact Hr | exact Hri]. }
  injection Heq as ->. unfold avg_time. cbn [fst snd].
  apply avg_not_nan; [exact HT|].
  rewrite nth_lookup.
  destruct (clock !! _) as [t|] eqn:Ht; [|reflexivity].
  exact (proj1 (Forall_lookup _ _) Hclock _ _ Ht).
Qed.

End Measured.

(** C5: [display_results] lists the results it has measured in ascending
    order of the average time, by a stable sort.  In a run that returns,
    with a [NUM_TRIALS] that is a positive integer below [2^53] and a clock
    of finite readings, the lines printed between the header and the footer
    are the lines of a list that holds the same results as the list of the
    measurements in the order of the registry, those of equal average in
    the order they were measured in, and in which every result has an
    average at most that of the next one, whatever the order of the
    registry. *)
Theorem C5_report_order (cfg : settings) (s e : loc) (methods : dict module)
    (σ σ' : state) :
  display_results cfg s e methods σ = (Ok tt, σ') ->
  0 < NUM_TRIALS cfg < 2 ^ 53 ->
  Forall (fun t => is_finite t = true) (clock σ) ->
  let W := Z.to_nat (NUM_WARMUP cfg) in
  exists results listed : list result,
    length results = length methods /\
    (forall i name m,
       methods !! i = Some (name, m) ->
       let total := nth (i * S W + W) (clock σ) zero in
       results !! i
       = Some (name, mul (div total (of_int (NUM_TRIALS cfg))) (of_int 1000),
               total)) /\
    stdout σ' = stdout σ ++ report_header cfg
                  ++ profiler_lines cfg (length methods)
                  ++ map result_line listed
                  ++ report_footer
                       (foldl add (of_int 0) (map total_time results)) /\
    Permutation listed results /\
    (forall k, with_avg k listed = with_avg k results) /\
    ascending listed.
Proof.
  intros Hrun HT Hclock W.
  destruct (display_results_measured cfg s e methods σ tt σ' Hrun)
    as (_ & results & _ & Hlen & Hnew & Ho).
  exists results, (sorted avg_time results).
  split; [exact Hlen|]. split; [exact Hnew|]. split; [exact Ho|].
  split; [apply sorted_perm|].
  split; [intros k; apply sorted_filter|].
  intros i a b. apply chain_lookup. apply sorted_chain.
  exact (measured_not_nan cfg methods (clock σ) results HT Hclock Hlen Hnew).
Qed.

Lemma C5_report_order_witness :
  let cfg := {| DEBUG := false; SIZE := (1%nat, 1%nat);
                NUM_TRIALS := 2; NUM_WARMUP := 1 |} in
  let σ := {| heap := base_heap [[decimal 6 10]] 1 1; stdout := [];
              clock := [decimal 1 1; decimal 3 4; decimal 1 1; decimal 1 4;
                        decimal 1 1; decimal 3 4];
              trace := [] |} in
  let methods := [("where_method", kernel where_method.setup where_method.process);
                  ("clip_method", kernel clip_method.setup clip_method.process);
                  ("piecewise_method",
                   kernel piecewise_method.setup piecewise_method.process)] in
  let σ' := (display_results cfg 1%positive 2%positive methods σ).2 in
  stdout σ'
  = report_header cfg
      ++ map result_line
           [("clip_method", decimal 125 1, decimal 1 4);
            ("where_method", decimal 375 1, decimal 3 4);
            ("piecewise_method", decimal 375 1, decimal 3 4)]
      ++ report_footer (decimal 7 4) /\
  exists results listed : list result,
    results !! 0%nat = Some ("where_method", decimal 375 1, decimal 3 4) /\
    results !! 1%nat = Some ("clip_method", decimal 125 1, decimal 1 4) /\
    results !! 2%nat = Some ("piecewise_method", decimal 375 1, decimal 3 4) /\
    stdout σ' = report_header cfg ++ map result_line listed
                  ++ report_footer
                       (foldl add (of_int 0) (map total_time results)) /\
    Permutation listed results /\
    (forall k, with_avg k listed = with_avg k results) /\
    ascending listed.
Proof.
  intros cfg σ methods σ'.
  split; [vm_compute; reflexivity|].
  assert (Hrun : display_results cfg 1%positive 2%positive methods σ
                 = (Ok tt, σ')) by (vm_compute; reflexivity).
  destruct (C5_report_order cfg _ _ methods σ σ' Hrun)
    as (results & listed & _ & Hnew & Ho & Hperm & Hstable & Hasc).
  - cbn. lia.
  - repeat constructor.
  - exists results, listed.
    split. { etransitivity; [exact (Hnew 0%nat _ _ eq_refl)|].
             vm_compute. reflexivity. }
    split. { etransitivity; [exact (Hnew 1%nat _ _ eq_refl)|].
             vm_compute. reflexivity. }
    split. { etransitivity; [exact (Hnew 2%nat _ _ eq_refl)|].
             vm_compute. reflexivity. }
    split; [exact Ho|]. split; [exact Hperm|]. split; [exact Hstable|].
    exact Hasc.
Defined.

(** C6, as amended: [display_results] is no function of a sequence of
    results and returns no text.  It takes the registry, runs the benchmark
    of every kernel itself and prints.  A run that returns has returned
    [None]; it has made the measurements of every kernel of the registry,
    in its order, on the two arrays, taking [NUM_WARMUP] + 1 readings of
    the clock for each; its results are, kernel by kernel, the name, the
    reading that follows the kernel's warm-up and the average computed from
    it; and it has appended to the standard output the header, the
    statistics of the profiler if [DEBUG] is set, one line for each of
    these results, in the sorted order, and the footer with the sum of the
    total times. *)
Theorem C6_display_results_prints (cfg : settings) (s e : loc)
    (methods : dict module) (σ σ' : state) (r : unit) :
  display_results cfg s e methods σ = (Ok r, σ') ->
  let W := Z.to_nat (NUM_WARMUP cfg) in
  all_measurements cfg s e methods (heap σ) = (Ok tt, heap σ') /\
  clock σ' = drop (length methods * S W) (clock σ) /\
  exists results : list result,
    map method_name results = map fst methods /\
    (forall i name m,
       methods !! i = Some (name, m) ->
       let total := nth (i * S W + W) (clock σ) zero in
       results !! i
       = Some (name, mul (div total (of_int (NUM_TRIALS cfg))) (of_int 1000),
               total)) /\
    stdout σ' = stdout σ ++ report_header cfg
                  ++ profiler_lines cfg (length methods)
                  ++ map result_line (sorted avg_time results)
                  ++ report_footer
                       (foldl add (of_int 0) (map total_time results)).
Proof.
  intros Hrun W.
  split; [exact (display_results_arrays cfg s e methods σ r σ' Hrun)|].
  destruct (display_results_measured cfg s e methods σ r σ' Hrun)
    as (Hk & results & Hnames & _ & Hnew & Ho).
  split; [exact Hk|]. exists results. auto.
Qed.

Lemma C6_display_results_prints_witness :
  let cfg := {| DEBUG := false; SIZE := (1%nat, 1%nat);
                NUM_TRIALS := 2; NUM_WARMUP := 1 |} in
  let σ := {| heap := base_heap [[decimal 6 10]] 1 1; stdout := [];
              clock := [decimal 1 1; decimal 1 2; decimal 1 1; decimal 1 4];
              trace := [] |} in
  let methods := [("where_method", kernel where_method.setup where_method.process);
                  ("clip_method", kernel clip_method.setup clip_method.process)] in
  let σ' := (display_results cfg 1%positive 2%positive methods σ).2 in
  all_measurements cfg 1%positive 2%positive methods (heap σ) = (Ok tt, heap σ') /\
  heap σ' !! 2%positive = Some (Image uint8 [[(153, 0, 0)]]) /\
  clock σ' = [] /\
  exists results : list result,
    map method_name results = ["where_method"; "clip_method"] /\
    results !! 0%nat = Some ("where_method", decimal 250 1, decimal 1 2) /\
    results !! 1%nat = Some ("clip_method", decimal 125 1, decimal 1 4) /\
    stdout σ'
    = report_header cfg
        ++ map result_line (sorted avg_time results)
        ++ report_footer (foldl add (of_int 0) (map total_time results)).
Proof.
  intros cfg σ methods σ'.
  assert (Hrun : display_results cfg 1%positive 2%positive methods σ
                 = (Ok tt, σ')) by (vm_compute; reflexivity).
  destruct (C6_display_results_prints cfg _ _ methods σ σ' tt Hrun)
    as (Harrays & Hk & results & Hnames & Hnew & Ho).
  split; [exact Harrays|].
  split; [vm_compute; reflexivity|].
  split; [exact Hk|].
  exists results. split; [exact Hnames|].
  split. { etransitivity; [exact (Hnew 0%nat _ _ eq_refl)|].
           vm_compute. reflexivity. }
  split. { etransitivity; [exact (Hnew 1%nat _ _ eq_refl)|].
           vm_compute. reflexivity. }
  exact Ho.
Defined.

(** C6, as stated, fails already on the empty registry: [display_results]
    returns [None], and the standard output has six lines more. *)
Lemma C6_prints_counterexample :
  let out := display_results source_settings 1%positive 2%positive []
               (initial []) in
  out.1 = Ok tt /\
  stdout (initial []) = [] /\
  stdout out.2
  = [separator;
     "-> Benchmark started                                                          2560x1440 | Runs: 1000";
     separator; separator;
     "Total Runtime:                                                                                0.00 s";
     separator].
Proof. intros out. vm_compute. split; [|split]; reflexivity. Qed.

(** ** Discovery *)

Section Discovery.

Lemma import_all_total (import_module : string -> res module) files methods :
  (forall name, exists m, import_module name = Ok m) ->
  exists d, import_all import_module files methods = Ok d.
Proof.
  intros Himp. revert methods.
  induction files as [|f files IH]; intros methods; cbn [import_all]; [eauto|].
  destruct (Himp ("src.methods." +:+ f)) as [m ->]. cbn [mbind res_bind].
  apply IH.
Qed.

End Discovery.

(** C4, as amended: discovery does not look at what a definition defines:
    when every file loads, [create_methods_list] returns a registry,
    malformed definitions included, and there is no [DiscoveryError].  A
    definition that lacks [setup] or [process] makes [display_results] fail
    when its loop reaches it: the run raises, after the header and before any
    result line is printed; the kernels before the malformed entry have been
    benchmarked by then, and when they all went through, the exception is an
    [AttributeError]. *)
Theorem C4_malformed_definition (cfg : settings) (s e : loc)
    (listdir : list string) (import_module : string -> res module) :
  (forall name, exists m, import_module name = Ok m) ->
  exists methods,
    create_methods_list listdir import_module = Ok methods /\
    forall pre name m post σ,
      methods = pre ++ (name, m) :: post -> malformed m ->
      exists x σ',
        display_results cfg s e methods σ = (Err x, σ') /\
        (exists k, stdout σ' = stdout σ ++ report_header cfg
                                 ++ replicate k "(profiler statistics)") /\
        (forall results overall σ1,
           run_methods cfg s e pre [] (of_int 0) (printed (report_header cfg) σ)
             = (Ok (results, overall), σ1) ->
           x = AttributeError /\ σ' = σ1).
Proof.
  intros Himp.
  destruct (import_all_total import_module
              (map (drop_last 3)
                 (List.filter
                    (fun f => endswith f ".py" && negb (String.eqb f "__init__.py"))
                    listdir)) [] Himp) as [methods Hm].
  exists methods. split; [exact Hm|].
  intros pre name m post σ -> Hbad.
  rewrite display_results_run, run_methods_app.
  pose proof (statistics_run_methods cfg s e pre [] (of_int 0)
                (printed (report_header cfg) σ)) as Hout.
  destruct (run_methods cfg s e pre [] (of_int 0) (printed (report_header cfg) σ))
    as [[[results overall]|x] σ1] eqn:Hpre.
  - rewrite (run_methods_malformed cfg s e name m post results overall σ1 Hbad).
    exists AttributeError, σ1. split; [reflexivity|].
    destruct (Hout _ _ eq_refl) as [k Hk]. split.
    + exists k. rewrite Hk. cbn [printed stdout]. now rewrite <- app_assoc.
    + intros results' overall' σ1' [= _ _ <-]. now split.
  - exists x, σ1. split; [reflexivity|].
    destruct (Hout _ _ eq_refl) as [k Hk]. split.
    + exists k. rewrite Hk. cbn [printed stdout]. now rewrite <- app_assoc.
    + discriminate.
Qed.

Lemma C4_malformed_definition_witness :
  let cfg := {| DEBUG := false; SIZE := (1%nat, 1%nat);
                NUM_TRIALS := 2; NUM_WARMUP := 1 |} in
  let σ := {| heap := base_heap [[decimal 6 10]] 1 1; stdout := [];
              clock := []; trace := [] |} in
  create_methods_list ["where_method.py"; "broken_method.py"] load_two_files
    = Ok two_files /\
  exists σ',
    display_results cfg 1%positive 2%positive two_files σ
      = (Err AttributeError, σ') /\
    exists k, stdout σ' = stdout σ ++ report_header cfg
                            ++ replicate k "(profiler statistics)".
Proof.
  intros cfg σ. split; [reflexivity|].
  destruct (C4_malformed_definition cfg 1%positive 2%positive
              ["where_method.py"; "broken_method.py"] load_two_files)
    as (methods & Hm & Hdisplay).
  { intros name. unfold load_two_files. eauto. }
  assert (Hlist : create_methods_list ["where_method.py"; "broken_method.py"]
                    load_two_files = Ok two_files) by reflexivity.
  rewrite Hlist in Hm. injection Hm as <-.
  destruct (Hdisplay [("where_method", kernel where_method.setup where_method.process)]
              "broken_method" broken_method [] σ eq_refl (or_intror eq_refl))
    as (x & σ' & Hrun & Hout & Hx).
  pose (o := run_methods cfg 1%positive 2%positive
               [("where_method", kernel where_method.setup where_method.process)]
               [] (of_int 0) (printed (report_header cfg) σ)).
  destruct (Hx (match o.1 with Ok r => r.1 | Err _ => [] end)
               (match o.1 with Ok r => r.2 | Err _ => zero end) o.2)
    as [-> _].
  { vm_compute. reflexivity. }
  exists σ'. split; [exact Hrun | exact Hout].
Defined.

(** C4, as stated, fails on a directory whose second definition has no
    [process]: discovery returns the registry of both, the first kernel is
    benchmarked, 1001 calls of its [process], and the run then stops on an
    [AttributeError], which no discovery step raised. *)
Lemma C4_discovery_counterexample :
  let cfg := {| DEBUG := false; SIZE := (1%nat, 1%nat);
                NUM_TRIALS := 1000; NUM_WARMUP := 1 |} in
  let out := program cfg (fun _ _ => [[decimal 6 10]])
               ["where_method.py"; "broken_method.py"] load_two_files
               (initial []) in
  create_methods_list ["where_method.py"; "broken_method.py"] load_two_files
    = Ok two_files /\
  out.1 = Err AttributeError /\
  calls (trace out.2) = Z.to_nat 1001.
Proof.
  intros cfg out. split; [reflexivity|]. vm_compute. split; reflexivity.
Qed.

(** * Further properties of the code *)

(** ** The buffer the in-place kernels leave *)

Section BufferContents.

Lemma same_shape_zip2d {A B} (u : A -> B -> A) (b : list (list A))
    (f : list (list B)) :
  same_shape b f -> same_shape (zip2d u b f) f.
Proof.
  intros (Hl & Hb & Hf). unfold same_shape, zip2d, rect in *.
  assert (Hw : width (zip_with (zip_with u) b f) = width b).
  { destruct b as [|rb b], f as [|rf f]; simpl in *; try discriminate;
      [reflexivity|].
    inversion Hf; subst. rewrite length_zip_with. lia. }
  rewrite Hw. split; [|split; [|exact Hf]].
  - rewrite length_zip_with. lia.
  - clear Hw. generalize dependent (width b). intros w Hb Hf.
    revert f Hl Hf. induction Hb as [|rb b' Hrb Hb IH];
      intros [|rf f] Hl Hf; simpl in *; try discriminate; constructor.
    + inversion Hf; subst. rewrite length_zip_with. lia.
    + inversion Hf; subst. apply IH; [lia | assumption].
Qed.

Lemma zip_with_again {A B} (u : A -> B -> A) (l : list A) (m : list B) :
  (forall a b, u (u a b) b = u a b) ->
  zip_with u (zip_with u l m) m = zip_with u l m.
Proof.
  intros Hu. revert m. induction l as [|a l IH]; intros [|b m]; simpl;
    try reflexivity.
  now rewrite Hu, IH.
Qed.

Lemma zip2d_again {A B} (u : A -> B -> A) (b : list (list A))
    (f : list (list B)) :
  (forall a v, u (u a v) v = u a v) ->
  zip2d u (zip2d u b f) f = zip2d u b f.
Proof.
  intros Hu. unfold zip2d. apply zip_with_again.
  intros rb rf. now apply zip_with_again.
Qed.

Lemma channel0_process_ok (h : heap_t) s e f b :
  h !! s = Some (Field f) -> h !! e = Some (Image uint8 b) ->
  same_shape b f -> Forall (Forall (fun v => nominal v = true)) f ->
  Forall (fun p =>
    p s e h = (Ok e, <[e := Image uint8 (zip2d (put_channel0 pixel) b f)]> h))
    channel0_kernels.
Proof.
  intros Hs He Hsh Hnom.
  pose proof (nominal_storable f Hnom) as Hst.
  pose proof (where_process_ok h s e f b Hs He Hsh Hst) as Hw.
  destruct (vectorised_agree h s e) as (Hclip & Hheav & Hpiece).
  { intros f' Hs'. rewrite Hs in Hs'. injection Hs' as <-.
    now apply nominal_ordinary. }
  unfold channel0_kernels.
  repeat match goal with |- Forall _ _ => constructor end.
  - exact Hw.
  - now rewrite Hclip.
  - now rewrite Hheav.
  - now rewrite Hpiece.
  - now apply dask_array_process_ok.
Qed.

End BufferContents.

(** X1: [nested_loop_method.process] rewrites whole cells.  On a field
    whose positive cells have a 255-fold that 8 bits hold, whatever an 8-bit
    buffer of the field's shape held, the kernel returns the buffer, and
    every cell of it holds afterwards the pixel of the field's cell in
    channel 0 and 0 in channels 1 and 2.  A cell that is not positive, a NaN
    with them, gives [(0, 0, 0)]. *)
Theorem nested_loop_overwrites_cells (h : heap_t) (s e : loc)
    (f : list (list float)) (b : list (list cell)) :
  h !! s = Some (Field f) -> h !! e = Some (Image uint8 b) ->
  same_shape b f -> Forall (Forall (fun v => storable v = true)) f ->
  exists out,
    nested_loop_method.process s e h = (Ok e, <[e := Image uint8 out]> h) /\
    forall x y v,
      cell_at f x y = Some v ->
      cell_at out x y = Some (pixel v, 0, 0) /\
      (ltb (of_int 0) v = false -> pixel v = 0).
Proof.
  intros Hs He Hsh Hst. exists (expected f). split.
  - exact (nested_loop_process_ok h s e f b Hs He Hsh Hst).
  - intros x y v Hv. split; [|apply pixel_nonpositive].
    unfold cell_at, expected, map2d in *.
    destruct (f !! x) as [rf|] eqn:Hx; [|discriminate]. simpl in Hv.
    rewrite list_lookup_fmap, Hx. simpl.
    now rewrite list_lookup_fmap, Hv.
Qed.

Lemma nested_loop_overwrites_cells_witness :
  let f := [[decimal 6 10; S754_nan]] in
  let b := [[(7, 8, 9); (1, 2, 3)]] in
  let h : heap_t := <[2%positive := Image uint8 b]> (<[1%positive := Field f]> ∅) in
  exists out,
    nested_loop_method.process 1%positive 2%positive h
      = (Ok 2%positive, <[2%positive := Image uint8 out]> h) /\
    forall x y v,
      cell_at f x y = Some v ->
      cell_at out x y = Some (pixel v, 0, 0) /\
      (ltb (of_int 0) v = false -> pixel v = 0).
Proof.
  intros f b h.
  apply (nested_loop_overwrites_cells h 1%positive 2%positive f b).
  - reflexivity.
  - reflexivity.
  - vm_compute. repeat constructor.
  - repeat constructor.
Defined.

(** X2: the five kernels that assign into channel 0 ([where_method],
    [clip_method], [heaviside_method], [piecewise_method] and
    [dask_array_method]) leave channels 1 and 2 of the buffer as they
    were: every cell keeps its two last components and receives the pixel
    of the field's cell in the first. *)
Theorem channel0_kernels_keep_channels (h : heap_t) (s e : loc)
    (f : list (list float)) (b : list (list cell)) :
  h !! s = Some (Field f) -> h !! e = Some (Image uint8 b) ->
  same_shape b f -> Forall (Forall (fun v => nominal v = true)) f ->
  exists out,
    Forall (fun p => p s e h = (Ok e, <[e := Image uint8 out]> h))
      channel0_kernels /\
    forall x y v r g bl,
      cell_at f x y = Some v -> cell_at b x y = Some (r, g, bl) ->
      cell_at out x y = Some (pixel v, g, bl).
Proof.
  intros Hs He Hsh Hnom. exists (zip2d (put_channel0 pixel) b f). split.
  - now apply channel0_process_ok.
  - intros x y v r g bl Hv Hb. unfold cell_at, zip2d in *.
    destruct (f !! x) as [rf|] eqn:Hfx; [|discriminate].
    destruct (b !! x) as [rb|] eqn:Hbx; [|discriminate].
    simpl in *.
    rewrite lookup_zip_with, Hbx, Hfx. simpl.
    rewrite lookup_zip_with, Hb, Hv. reflexivity.
Qed.

Lemma channel0_kernels_keep_channels_witness :
  let f := [[decimal 6 10; SFopp (decimal 1 2)]] in
  let b := [[(7, 8, 9); (1, 2, 3)]] in
  let h : heap_t := <[2%positive := Image uint8 b]> (<[1%positive := Field f]> ∅) in
  exists out,
    Forall (fun p => p 1%positive 2%positive h
                     = (Ok 2%positive, <[2%positive := Image uint8 out]> h))
      channel0_kernels /\
    forall x y v r g bl,
      cell_at f x y = Some v -> cell_at b x y = Some (r, g, bl) ->
      cell_at out x y = Some (pixel v, g, bl).
Proof.
  intros f b h.
  apply (channel0_kernels_keep_channels h 1%positive 2%positive f b).
  - reflexivity.
  - reflexivity.
  - vm_compute. repeat constructor.
  - repeat constructor.
Defined.

(** X3: a second call of an in-place kernel changes nothing.  After one
    call on a nominal field and an 8-bit buffer of its shape, the same call
    returns the buffer again and leaves every array as the first call left
    it: the repetitions of the timed statement all end in the same state. *)
Theorem in_place_kernels_idempotent (h : heap_t) (s e : loc)
    (f : list (list float)) (b : list (list cell)) :
  h !! s = Some (Field f) -> h !! e = Some (Image uint8 b) ->
  same_shape b f -> Forall (Forall (fun v => nominal v = true)) f ->
  Forall (fun p =>
    exists h1, p s e h = (Ok e, h1) /\ p s e h1 = (Ok e, h1))
    in_place_kernels.
Proof.
  intros Hs He Hsh Hnom.
  assert (Hse : s <> e) by (intros ->; congruence).
  pose proof (nominal_storable f Hnom) as Hst.
  unfold heap_t in *.
  constructor.
  - exists (<[e := Image uint8 (expected f)]> h). split.
    + now apply (nested_loop_process_ok h s e f b).
    + rewrite (nested_loop_process_ok _ s e f (expected f)).
      * f_equal. apply (insert_insert_eq (M := gmap loc)).
      * unfold heap_t. now rewrite lookup_insert_ne.
      * unfold heap_t. now rewrite lookup_insert_eq.
      * unfold expected. rewrite <- (zip2d_const _ b f Hsh).
        now apply same_shape_zip2d.
      * exact Hst.
  - pose proof (channel0_process_ok h s e f b Hs He Hsh Hnom) as H1.
    pose proof (channel0_process_ok (<[e := Image uint8 (zip2d (put_channel0 pixel) b f)]> h)
                  s e f (zip2d (put_channel0 pixel) b f)) as H2.
    unfold heap_t in *.
    rewrite lookup_insert_ne, lookup_insert_eq in H2 by congruence.
    specialize (H2 Hs eq_refl (same_shape_zip2d _ b f Hsh) Hnom).
    rewrite (insert_insert_eq (M := gmap loc)) in H2.
    rewrite zip2d_again in H2 by reflexivity.
    rewrite Forall_forall in H1, H2. apply Forall_forall. intros p Hp.
    exists (<[e := Image uint8 (zip2d (put_channel0 pixel) b f)]> h).
    split; [now apply H1 | now apply H2].
Qed.

Lemma in_place_kernels_idempotent_witness :
  let f := [[decimal 6 10; SFopp (decimal 1 2)]] in
  let b := [[(7, 8, 9); (1, 2, 3)]] in
  let h : heap_t := <[2%positive := Image uint8 b]> (<[1%positive := Field f]> ∅) in
  Forall (fun p =>
    exists h1, p 1%positive 2%positive h = (Ok 2%positive, h1) /\
               p 1%positive 2%positive h1 = (Ok 2%positive, h1))
    in_place_kernels.
Proof.
  intros f b h.
  apply (in_place_kernels_idempotent h 1%positive 2%positive f b).
  - reflexivity.
  - reflexivity.
  - vm_compute. repeat constructor.
  - repeat constructor.
Defined.

(** ** Arrays of different shapes *)

Section Mismatch.

Lemma for_app {S I} (l1 l2 : list I) (body : I -> ST S unit) (σ : S) :
  for_ (l1 ++ l2) body σ
  = match for_ l1 body σ with
    | (Ok _, σ') => for_ l2 body σ'
    | (Err x, σ') => (Err x, σ')
    end.
Proof.
  revert σ. induction l1 as [|i l1 IH]; intros σ; simpl; [reflexivity|].
  unfold mbind, ST_bind. destruct (body i σ) as [[[]|x] σ']; [apply IH|reflexivity].
Qed.

Lemma assign_mismatch rhs s e (h : heap_t) f dt b :
  h !! s = Some (Field f) -> h !! e = Some (Image dt b) ->
  length (rhs f) <> length b -> length (rhs f) <> 1%nat ->
  assign rhs s e h = (Err ValueError, h).
Proof.
  intros Hs He Hl H1. unfold assign.
  unfold mbind at 1, ST_bind at 1, load at 1. rewrite Hs.
  cbn [as_field]. unfold mbind at 1, ST_bind at 1, lift at 1.
  unfold mbind at 1, ST_bind at 1, with_array.
  unfold mbind at 1, ST_bind at 1, load at 1. rewrite He.
  unfold update, setitem_channel0, broadcast.
  destruct (decide (length (rhs f) = length b)) as [|_]; [contradiction|].
  assert (Hb : match rhs f with [a] => Ok (replicate (length b) a)
                              | _ => Err ValueError end
               = (Err ValueError : res (list (list float)))).
  { destruct (rhs f) as [|r0 [|r1 r]]; simpl in *; congruence. }
  rewrite Hb. cbn [mbind res_bind].
  unfold mbind, ST_bind, write, lift. unfold heap_t in *.
  now rewrite insert_id.
Qed.

End Mismatch.

(** X4: the assignment of the vectorised kernels is all or nothing.  When
    the field has a number of rows that is neither the buffer's nor 1, the
    four kernels raise [ValueError] and every array, the buffer with them,
    is what it was. *)
Theorem vectorised_shape_mismatch (h : heap_t) (s e : loc)
    (f : list (list float)) (dt : dtype) (b : list (list cell)) :
  h !! s = Some (Field f) -> h !! e = Some (Image dt b) ->
  length f <> length b -> length f <> 1%nat ->
  Forall (fun p => p s e h = (Err ValueError, h)) vectorised_kernels.
Proof.
  intros Hs He Hl H1. unfold vectorised_kernels.
  change where_method.process with (assign where_method.new_end_array).
  change clip_method.process with (assign clip_method.rhs).
  change heaviside_method.process with (assign heaviside_method.rhs).
  change piecewise_method.process with (assign piecewise_method.rhs).
  repeat match goal with |- Forall _ _ => constructor end;
    apply (assign_mismatch _ s e h f dt b Hs He);
    rewrite ?where_rhs_cells, ?clip_rhs_cells, ?heaviside_rhs_cells,
      ?piecewise_rhs_cells; unfold map2d; rewrite length_map; assumption.
Qed.

Lemma vectorised_shape_mismatch_witness :
  let f := [[decimal 6 10]; [decimal 6 10]] in
  let h := base_heap f 3 1 in
  Forall (fun p => p 1%positive 2%positive h = (Err ValueError, h))
    vectorised_kernels.
Proof.
  intros f h.
  apply (vectorised_shape_mismatch h 1%positive 2%positive f uint8
           (replicate 3 (replicate 1 (0, 0, 0)))).
  - reflexivity.
  - reflexivity.
  - simpl. lia.
  - simpl. lia.
Defined.

Section ShortBuffer.

Lemma nested_outer_prefix (f : list (list float)) (b : list (list cell)) c :
  (length b <= length f)%nat -> rect c f -> rect c b ->
  Forall (Forall (fun v => storable v = true)) f ->
  for_ (seq 0 (length b))
    (fun x => cols ← lift (shape_at (Field f) 1);
              for_ (range cols) (nested_body (Field f) x))
    (Image uint8 b)
  = (Ok tt, Image uint8 (expected (take (length b) f))).
Proof.
  intros Hlen Hf Hb Hst.
  set (u := fun (_ : cell) (v : float) => ((pixel v, 0, 0) : cell)).
  set (m := take (length b) f).
  assert (Hm : length b = length m) by (unfold m; rewrite length_take; lia).
  pose (J := fun x => Image uint8 (done_prefix (zip_with u) x b m)).
  assert (HJ0 : Image uint8 b = J 0%nat) by (unfold J; now rewrite done_prefix_0).
  rewrite HJ0. rewrite (for_seq_inv _ J).
  - unfold J. cbn [Nat.add]. rewrite done_prefix_all by exact Hm.
    f_equal. f_equal. unfold expected, map2d.
    clear -Hm Hf Hb. assert (Hmr : rect c m) by (apply Forall_take; exact Hf).
    clearbody m. revert m Hm Hmr.
    induction Hb as [|rb b Hrb Hb IH]; intros [|rm m] Hm Hmr; simpl in *;
      try discriminate; [reflexivity|].
    inversion Hmr; subst. f_equal; [|apply IH; [lia | assumption]].
    match goal with H : length rm = length rb |- _ => revert H end. clear.
    revert rb. induction rm as [|v rm IH]; intros [|x rb] Hl; simpl in *;
      try discriminate; [reflexivity|].
    unfold u at 1. f_equal. apply IH. lia.
  - intros x Hx. unfold J, mbind, ST_bind, lift, shape_at.
    cbn [shape lookup list_lookup].
    destruct (lookup_lt_is_Some_2 b x) as [row Hrow]; [lia|].
    destruct (lookup_lt_is_Some_2 f x) as [rf Hrf]; [lia|].
    assert (Hmx : m !! x = Some rf).
    { unfold m. rewrite lookup_take_lt by lia. exact Hrf. }
    assert (Hw : width f = length rf).
    { destruct f as [|r0 f']; [discriminate|]. cbn [width].
      rewrite (proj1 (Forall_lookup _ _) Hf _ _ Hrf).
      now inversion Hf. }
    assert (Hrl : length row = length rf).
    { rewrite (proj1 (Forall_lookup _ _) Hf _ _ Hrf).
      now rewrite (proj1 (Forall_lookup _ _) Hb _ _ Hrow). }
    rewrite Hw.
    rewrite (inner_loop uint8 u f (nested_body (Field f)) x _ row rf).
    + now rewrite (done_prefix_step (zip_with u) x b m row rf).
    + apply nested_body_rewrites. exact Hst.
    + rewrite done_prefix_lookup; auto. lia.
    + exact Hrf.
    + exact Hrl.
Qed.

End ShortBuffer.

(** X5: the loops of [nested_loop_method.process] write before they fail.
    On a buffer with fewer rows than the field, of the same positive width,
    the kernel raises [IndexError] at the first row the buffer lacks, and
    by then it has rewritten every row of the buffer. *)
Theorem nested_loop_short_buffer (h : heap_t) (s e : loc)
    (f : list (list float)) (b : list (list cell)) (c : nat) :
  h !! s = Some (Field f) -> h !! e = Some (Image uint8 b) ->
  (length b < length f)%nat -> (0 < c)%nat -> rect c f -> rect c b ->
  Forall (Forall (fun v => storable v = true)) f ->
  nested_loop_method.process s e h
  = (Err IndexError,
     <[e := Image uint8 (expected (take (length b) f))]> h).
Proof.
  intros Hs He Hlen Hc Hf Hb Hst. unfold nested_loop_method.process.
  unfold mbind at 1, ST_bind at 1, load at 1. rewrite Hs.
  unfold mbind at 1, ST_bind at 1, with_array.
  unfold mbind at 1, ST_bind at 1, load at 1. rewrite He.
  assert (Hrun : nested_loop_method.process_loops (Field f) (Image uint8 b)
                 = (Err IndexError, Image uint8 (expected (take (length b) f)))).
  { unfold nested_loop_method.process_loops, lift, shape_at.
    cbn [shape lookup list_lookup]. unfold mbind at 1, ST_bind at 1.
    unfold range at 1.
    replace (length f) with (length b + (length f - length b))%nat by lia.
    rewrite seq_app, for_app.
    pose proof (nested_outer_prefix f b c ltac:(lia) Hf Hb Hst) as Hpre.
    unfold nested_body, lift, shape_at in Hpre.
    cbn [shape lookup list_lookup] in Hpre.
    rewrite Hpre. clear Hpre.
    destruct (length f - length b)%nat as [|k] eqn:Hk; [lia|].
    cbn [seq for_ Nat.add]. unfold mbind at 1, ST_bind at 1.
    unfold mbind at 1, ST_bind at 1.
    destruct (lookup_lt_is_Some_2 f (length b)) as [rf Hrf]; [lia|].
    assert (Hw : width f = c).
    { destruct f as [|r0 f']; [discriminate|]. cbn [width]. now inversion Hf. }
    rewrite Hw. destruct c as [|c']; [lia|].
    unfold range. cbn [seq for_]. unfold mbind at 1, ST_bind at 1.
    unfold mbind at 1, ST_bind at 1, lift, getitem2. rewrite Hrf.
    assert (Hrl : length rf = S c') by exact (proj1 (Forall_lookup _ _) Hf _ _ Hrf).
    destruct rf as [|v rf]; [discriminate|]. cbn [lookup list_lookup].
    unfold update, setitem2, expected, map2d.
    rewrite (lookup_ge_None_2 (map _ _)); [reflexivity|].
    rewrite length_map, length_take. lia. }
  rewrite Hrun. unfold mbind, ST_bind, write, lift. reflexivity.
Qed.

Lemma nested_loop_short_buffer_witness :
  let f := [[decimal 6 10]; [decimal 6 10]] in
  let h := base_heap f 1 1 in
  nested_loop_method.process 1%positive 2%positive h
  = (Err IndexError, <[2%positive := Image uint8 [[(153, 0, 0)]]]> h).
Proof.
  intros f h.
  apply (nested_loop_short_buffer h 1%positive 2%positive f [[(0, 0, 0)]] 1).
  - reflexivity.
  - reflexivity.
  - simpl. lia.
  - lia.
  - repeat constructor.
  - repeat constructor.
  - repeat constructor.
Defined.

(** ** The list comprehension without negative cells *)

Section NonNegative.

Lemma int255_pixel (v : float) :
  nominal v = true -> negative v = false ->
  int (mul v (of_int 255)) = Ok (pixel v).
Proof.
  unfold nominal, negative, pixel, storable. intros Hn Hneg.
  apply andb_prop in Hn as [Hn Hst]. apply andb_prop in Hn as [Hval Hfin].
  destruct (ltb (of_int 0) v) eqn:Hpos.
  - rewrite mul_comm.
    destruct (trunc (mul (of_int 255) v)) as [z|] eqn:Hz; [|discriminate].
    now apply int_of_trunc.
  - destruct v as [sv| | |sv mv ev]; try discriminate.
    + now destruct sv.
    + destruct sv; [discriminate Hneg | discriminate Hpos].
Qed.

Lemma expected_fits (f : list (list float)) :
  Forall (Forall (fun v => nominal v = true)) f ->
  forallb (forallb (fits int64)) (expected f) = true.
Proof.
  intros Hf. pose proof (nominal_storable f Hf) as Hst.
  apply forallb_forall. intros r Hr. apply forallb_forall. intros x Hx.
  unfold expected, map2d in Hr. apply in_map_iff in Hr as (r0 & <- & Hr0).
  apply in_map_iff in Hx as (v0 & <- & Hv0).
  apply list_elem_of_In in Hr0, Hv0.
  pose proof (proj1 (Forall_forall _ _) Hst r0 Hr0) as Hr0'. cbv beta in Hr0'.
  pose proof (proj1 (Forall_forall (fun v => storable v = true) r0)
                Hr0' v0 Hv0) as Hv.
  pose proof (pixel_range v0 Hv) as Hrange.
  unfold fits, in_range in *.
  apply andb_prop in Hrange as [H0 H8].
  apply Z.leb_le in H0. apply Z.ltb_lt in H8.
  rewrite !andb_true_iff, !Z.leb_le, !Z.ltb_lt. lia.
Qed.

End NonNegative.

(** X6: [list_comprehension_method.process] agrees with the reference on
    a field without negative cells.  On a nominal field with at least one
    row and one column, none of whose cells is below zero, it returns a new
    [int64] array that holds, cell for cell, what [nested_loop_method]
    writes into a buffer of zeros. *)
Theorem list_comprehension_nonnegative (h : heap_t) (s e : loc)
    (f : list (list float)) (c : nat) :
  h !! s = Some (Field f) -> f <> [] -> (0 < c)%nat -> rect c f ->
  Forall (Forall (fun v => nominal v = true /\ negative v = false)) f ->
  exists l,
    list_comprehension_method.process s e h
      = (Ok l, <[l := Image int64 (expected f)]> h) /\
    h !! l = None.
Proof.
  intros Hs Hne Hc Hrect Hf.
  assert (Hnom : Forall (Forall (fun v => nominal v = true)) f).
  { eapply Forall_impl; [exact Hf|]. intros r Hr.
    eapply Forall_impl; [exact Hr|]. now intros v [Hv _]. }
  exists (fresh (dom h)).
  rewrite list_comprehension_returns_new, returns_new_run, Hs.
  unfold list_comprehension_result. cbn [as_field mbind res_bind].
  assert (Hl : list_comprehension_method.grid_array_list f = Ok (expected f)).
  { unfold list_comprehension_method.grid_array_list, expected, map2d.
    apply mapM_ok_map. eapply Forall_impl; [exact Hf|]. intros r Hr.
    apply mapM_ok_map. eapply Forall_impl; [exact Hr|]. intros v [Hv Hneg].
    now rewrite (int255_pixel v Hv Hneg). }
  rewrite Hl. cbn [mbind res_bind].
  pose proof (expected_fits f Hnom) as Hfit.
  destruct f as [|[|v rf] f]; [congruence| |].
  { inversion Hrect; subst; simpl in *; lia. }
  unfold array. unfold expected in *. cbn [map2d map] in *. rewrite Hfit.
  split; [reflexivity | apply fresh_not_allocated].
Qed.

Lemma list_comprehension_nonnegative_witness :
  let f := [[decimal 6 10; zero]] in
  let h := base_heap f 1 2 in
  exists l,
    list_comprehension_method.process 1%positive 2%positive h
      = (Ok l, <[l := Image int64 [[(153, 0, 0); (0, 0, 0)]]]> h) /\
    h !! l = None.
Proof.
  intros f h.
  apply (list_comprehension_nonnegative h 1%positive 2%positive f 2).
  - reflexivity.
  - discriminate.
  - lia.
  - repeat constructor.
  - repeat constructor.
Defined.

(** ** Discovery of the kernels *)

Section Discovered.

Lemma substring_all (s : string) : String.substring 0 (String.length s) s = s.
Proof. induction s as [|c s IH]; simpl; [reflexivity | now rewrite IH]. Qed.

Lemma substring_split (s : string) (k : nat) :
  (k <= String.length s)%nat ->
  String.substring 0 k s +:+ String.substring k (String.length s - k) s = s.
Proof.
  revert k. induction s as [|c s IH]; intros [|k] Hk.
  - reflexivity.
  - simpl in Hk. lia.
  - rewrite Nat.sub_0_r, substring_all. reflexivity.
  - simpl in Hk. cbn [String.substring String.length Nat.sub].
    change (String c (String.substring 0 k s) +:+
              String.substring k (String.length s - k) s)
      with (String c (String.substring 0 k s +:+
              String.substring k (String.length s - k) s)).
    f_equal. apply IH. lia.
Qed.

Lemma endswith_split (s suffix : string) :
  endswith s suffix = true ->
  s = drop_last (String.length suffix) s +:+ suffix.
Proof.
  unfold endswith, drop_last. intros H.
  apply andb_prop in H as [Hlen Heq].
  apply Nat.leb_le in Hlen. apply String.eqb_eq in Heq.
  pose proof (substring_split s (String.length s - String.length suffix)
                ltac:(lia)) as Hs.
  replace (String.length s - (String.length s - String.length suffix))%nat
    with (String.length suffix) in Hs by lia.
  rewrite Heq in Hs. now symmetry.
Qed.

Lemma method_files_NoDup (listdir : list string) :
  NoDup listdir -> NoDup (method_files listdir).
Proof.
  intros Hnd. unfold method_files.
  apply (NoDup_fmap_2_strong (drop_last 3)).
  - intros x y Hx Hy Heq.
    apply list_elem_of_In, filter_In in Hx as [_ Hx].
    apply list_elem_of_In, filter_In in Hy as [_ Hy].
    apply andb_prop in Hx as [Hx _]. apply andb_prop in Hy as [Hy _].
    rewrite (endswith_split x ".py" Hx), (endswith_split y ".py" Hy).
    cbn [String.length]. now rewrite Heq.
  - apply NoDup_ListNoDup. apply List.NoDup_filter.
    now apply NoDup_ListNoDup.
Qed.

Lemma dict_set_new {V} (k : string) (v : V) (d : dict V) :
  k ∉ map fst d -> dict_set k v d = d ++ [(k, v)].
Proof.
  induction d as [|[k' v'] d IH]; intros Hk; simpl; [reflexivity|].
  destruct (String.eqb_spec k k') as [->|Hne].
  - exfalso. apply Hk. simpl. left.
  - f_equal. apply IH. intros Hin. apply Hk. simpl. now right.
Qed.

Lemma import_all_new (import_module : string -> res module)
    (mods : string -> module) (files : list string) (d : dict module) :
  NoDup (map fst d ++ files) ->
  (forall name, name ∈ files ->
     import_module ("src.methods." +:+ name) = Ok (mods name)) ->
  import_all import_module files d
  = Ok (d ++ map (fun name => (name, mods name)) files).
Proof.
  revert d. induction files as [|name files IH]; intros d Hnd Himp; simpl.
  - now rewrite app_nil_r.
  - rewrite (Himp name) by left. cbn [mbind res_bind].
    apply NoDup_app in Hnd as (Hd & Hdf & Hf).
    rewrite dict_set_new.
    2:{ intros Hin. apply (Hdf name Hin). left. }
    rewrite IH.
    + now rewrite <- app_assoc.
    + rewrite map_app. cbn [map fst]. rewrite <- app_assoc. cbn [app].
      apply NoDup_app. split; [exact Hd|]. split; [|exact Hf].
      intros x Hx. apply Hdf. exact Hx.
    + intros x Hx. apply Himp. now right.
Qed.

Lemma import_all_error (import_module : string -> res module)
    (pre : list string) (name : string) (post : list string)
    (d : dict module) (x : exn) :
  (forall n, n ∈ pre -> exists m, import_module ("src.methods." +:+ n) = Ok m) ->
  import_module ("src.methods." +:+ name) = Err x ->
  import_all import_module (pre ++ name :: post) d = Err x.
Proof.
  revert d. induction pre as [|n pre IH]; intros d Hpre Hx; simpl.
  - now rewrite Hx.
  - destruct (Hpre n) as [m Hm]; [left|]. rewrite Hm. cbn [mbind res_bind].
    apply IH; [|exact Hx]. intros n' Hn'. apply Hpre. now right.
Qed.

End Discovered.

(** X7: what [create_methods_list] returns.  For a directory listing
    without repeated entries whose kernel files all import, the registry
    holds one entry for every file that ends in [.py] other than
    [__init__.py], keyed by the file name without the suffix and bound to
    the module the import returned, in the order of the listing; every
    other entry of the directory is passed over. *)
Theorem create_methods_list_contents (listdir : list string)
    (import_module : string -> res module) (mods : string -> module) :
  NoDup listdir ->
  (forall name, name ∈ method_files listdir ->
     import_module ("src.methods." +:+ name) = Ok (mods name)) ->
  create_methods_list listdir import_module
  = Ok (map (fun name => (name, mods name)) (method_files listdir)).
Proof.
  intros Hnd Himp.
  change (create_methods_list listdir import_module)
    with (import_all import_module (method_files listdir) []).
  rewrite (import_all_new import_module mods); [reflexivity| |exact Himp].
  cbn [map app]. now apply method_files_NoDup.
Qed.

Lemma create_methods_list_contents_witness :
  create_methods_list
    ["where_method.py"; "__init__.py"; "__pycache__"; "clip_method.py"]
    (fun name => Ok (match import_from source_modules name with
                     | Ok m => m | Err _ => broken_method end))
  = Ok [("where_method", kernel where_method.setup where_method.process);
        ("clip_method", kernel clip_method.setup clip_method.process)].
Proof.
  apply (create_methods_list_contents
           ["where_method.py"; "__init__.py"; "__pycache__"; "clip_method.py"]
           (fun name => Ok (match import_from source_modules name with
                            | Ok m => m | Err _ => broken_method end))
           (fun name => match import_from source_modules ("src.methods." +:+ name) with
                        | Ok m => m | Err _ => broken_method end)).
  - apply NoDup_ListNoDup. repeat constructor; simpl; intuition discriminate.
  - intros name _. reflexivity.
Defined.

(** X8: a kernel file that does not import stops the program at once.
    When the import of a kernel file raises, [create_methods_list] raises
    the same exception, and the program ends with it before the base arrays
    exist: nothing is printed, no kernel is called and no clock is read. *)
Theorem import_error_stops_program (cfg : settings)
    (genAsGrid : nat -> nat -> list (list float))
    (listdir : list string) (import_module : string -> res module)
    (pre : list string) (name : string) (post : list string) (x : exn)
    (σ : state) :
  method_files listdir = pre ++ name :: post ->
  (forall n, n ∈ pre -> exists m, import_module ("src.methods." +:+ n) = Ok m) ->
  import_module ("src.methods." +:+ name) = Err x ->
  create_methods_list listdir import_module = Err x /\
  program cfg genAsGrid listdir import_module σ = (Err x, σ).
Proof.
  intros Hfiles Hpre Hx.
  assert (Hc : create_methods_list listdir import_module = Err x).
  { change (create_methods_list listdir import_module)
      with (import_all import_module (method_files listdir) []).
    rewrite Hfiles. now apply import_all_error. }
  split; [exact Hc|]. unfold program.
  unfold mbind at 1, ST_bind at 1, lift at 1. now rewrite Hc.
Qed.

Lemma import_error_stops_program_witness :
  let import_module := fun name : string =>
    if String.eqb name "src.methods.clip_method" then Err ImportError
    else import_from source_modules name in
  create_methods_list source_listdir import_module = Err ImportError /\
  program source_settings (fun _ _ => [[decimal 6 10]]) source_listdir
    import_module (initial [])
  = (Err ImportError, initial []).
Proof.
  intros import_module.
  apply (import_error_stops_program source_settings (fun _ _ => [[decimal 6 10]])
           source_listdir import_module [] "clip_method"
           ["dask_array_method"; "heaviside_method"; "list_comprehension_method";
            "nested_loop_method"; "parallel_method"; "piecewise_method";
            "where_method"] ImportError (initial [])).
  - reflexivity.
  - intros n Hn. inversion Hn.
  - reflexivity.
Defined.

(** ** The arrays a run leaves alone *)

Section Frame.

Lemma framed_same e {A} (c : M A) :
  (forall σ r σ', c σ = (r, σ') -> heap σ' = heap σ) -> framed e c.
Proof. intros Hc σ r σ' Hrun. rewrite (Hc σ r σ' Hrun). apply frame_refl. Qed.

Lemma framed_ret e {A} (x : A) : framed e (mret x : M A).
Proof. apply framed_same. now intros σ r σ' [= <- <-]. Qed.

Lemma framed_lift e {A} (x : res A) : framed e (lift x : M A).
Proof. apply framed_same. now intros σ r σ' [= <- <-]. Qed.

Lemma framed_log e ev : framed e (log ev).
Proof. apply framed_same. now intros σ r σ' [= <- <-]. Qed.

Lemma framed_print e line : framed e (print line).
Proof. apply framed_same. now intros σ r σ' [= <- <-]. Qed.

Lemma framed_elapsed e : framed e elapsed.
Proof.
  apply framed_same. intros σ r σ'. unfold elapsed.
  destruct (clock σ); now intros [= <- <-].
Qed.

Lemma framed_on_heap e {A} (c : H A) :
  (forall h r h', c h = (r, h') -> frame e h h') -> framed e (on_heap c).
Proof.
  intros Hc σ r σ' Hrun. apply on_heap_run in Hrun as (Hrun & _).
  eapply Hc. exact Hrun.
Qed.

Lemma framed_bind e {A B} (m : M A) (k : A -> M B) :
  framed e m -> (forall x, framed e (k x)) -> framed e (m ≫= k).
Proof.
  intros Hm Hk σ r σ' Hrun. unfold mbind, ST_bind in Hrun.
  destruct (m σ) as [[x|ex] σ1] eqn:Hmσ.
  - eapply frame_trans; [eapply Hm; exact Hmσ | eapply Hk; exact Hrun].
  - injection Hrun as <- <-. eapply Hm. exact Hmσ.
Qed.

Lemma framed_for e {I} (l : list I) (body : I -> M unit) :
  (forall i, framed e (body i)) -> framed e (for_ l body).
Proof.
  intros Hb. induction l as [|i l IH]; cbn [for_].
  - apply framed_ret.
  - apply framed_bind; auto.
Qed.

Lemma framed_if e {A} (b : bool) (c1 c2 : M A) :
  framed e c1 -> framed e c2 -> framed e (if b then c1 else c2).
Proof. now destruct b. Qed.

Lemma framed_call e process s :
  keeps_arrays process -> framed e (call process s e).
Proof.
  intros Hp. unfold call.
  apply framed_bind.
  { apply framed_on_heap. intros h r h' [= <- <-]. apply frame_refl. }
  intros buffer. apply framed_bind; [apply framed_log|]. intros _.
  apply framed_bind; [|intros; apply framed_ret].
  apply framed_on_heap. intros h r h'. apply Hp.
Qed.

Lemma framed_timeit e timer n :
  assigns_nothing (timer_setup timer) = true ->
  framed e (stmt timer) -> framed e (timeit timer n).
Proof.
  intros Hc Hs. unfold timeit.
  apply framed_bind; [apply framed_log|]. intros _.
  apply framed_bind; [apply framed_log|]. intros _.
  apply framed_bind.
  { apply framed_on_heap. intros h r h'.
    apply frame_extends, exec_extends, Hc. }
  intros _. apply framed_bind; [apply framed_for; intros _; exact Hs|].
  intros _. apply framed_elapsed.
Qed.

Lemma copy_extends l : extends (copy l).
Proof.
  unfold copy. apply extends_bind; [|intros; apply extends_alloc].
  intros h r h' l' a. unfold load.
  destruct (h !! l); now intros [= <- <-].
Qed.

Lemma framed_benchmark cfg setup process s e :
  assigns_nothing setup = true ->
  keeps_arrays process -> framed e (benchmark cfg setup process s e).
Proof.
  intros Hc Hp. unfold benchmark. cbv zeta.
  apply framed_bind.
  { apply framed_on_heap. intros h r h'. apply frame_extends, copy_extends. }
  intros start_copy. apply framed_bind.
  { apply framed_on_heap. intros h r h'. apply frame_extends, copy_extends. }
  intros end_copy. apply framed_bind.
  { apply framed_if; [|apply framed_ret].
    apply framed_for. intros _.
    apply framed_bind; [|intros; apply framed_ret].
    apply framed_timeit; [exact Hc | apply framed_call, Hp]. }
  intros _. apply framed_bind.
  { apply framed_if; [apply framed_log | apply framed_ret]. }
  intros _. apply framed_bind.
  { apply framed_timeit; [exact Hc | apply framed_call, Hp]. }
  intros elapsed_time. apply framed_bind.
  { apply framed_if; [|apply framed_ret].
    apply framed_bind; [apply framed_log|].
    intros _. apply framed_print. }
  intros _. apply framed_bind; [apply framed_lift|].
  intros avg. apply framed_ret.
Qed.

Lemma framed_lift_bind e {A B} (x : res A) (k : A -> M B) :
  (forall a, x = Ok a -> framed e (k a)) -> framed e (lift x ≫= k).
Proof.
  intros Hk σ r σ'. unfold mbind, ST_bind, lift.
  destruct x as [a|ex].
  - apply (Hk a eq_refl).
  - intros [= <- <-]. apply frame_refl.
Qed.

Lemma framed_run_methods cfg s e methods results overall :
  Forall (fun kv : string * module =>
            (forall c, attr_setup kv.2 = Some c -> assigns_nothing c = true) /\
            (forall p, attr_process kv.2 = Some p -> keeps_arrays p)) methods ->
  framed e (run_methods cfg s e methods results overall).
Proof.
  intros Hm. revert results overall.
  induction Hm as [|[name m] methods [Hc Hp] _ IH]; intros results overall;
    cbn [run_methods].
  - apply framed_ret.
  - apply framed_lift_bind. intros setup Hsetup.
    apply framed_lift_bind. intros process Hprocess.
    apply framed_bind.
    + apply framed_benchmark.
      * apply Hc. cbn [snd].
        destruct (attr_setup m); [now injection Hsetup as -> | discriminate].
      * apply Hp. cbn [snd].
        destruct (attr_process m); [now injection Hprocess as -> | discriminate].
    + intros [total avg]. apply IH.
Qed.

Lemma framed_display_results cfg s e methods :
  Forall (fun kv : string * module =>
            (forall c, attr_setup kv.2 = Some c -> assigns_nothing c = true) /\
            (forall p, attr_process kv.2 = Some p -> keeps_arrays p)) methods ->
  framed e (display_results cfg s e methods).
Proof.
  intros Hm. unfold display_results.
  apply framed_bind; [apply framed_print|]. intros _.
  apply framed_bind; [apply framed_print|]. intros _.
  apply framed_bind; [apply framed_print|]. intros _.
  apply framed_bind; [now apply framed_run_methods|]. intros [results overall].
  apply framed_bind; [apply framed_for; intros r; apply framed_print|].
  intros _. apply framed_bind; [apply framed_print|]. intros _.
  apply framed_bind; [apply framed_print|]. intros _.
  apply framed_print.
Qed.

Lemma source_modules_keep_arrays :
  Forall (fun kv : string * module =>
            (forall c, attr_setup kv.2 = Some c -> assigns_nothing c = true) /\
            (forall p, attr_process kv.2 = Some p -> keeps_arrays p))
    source_modules.
Proof.
  pose proof registered_keep_arrays as Hr. rewrite registered_list in Hr.
  unfold source_modules, kernel.
  repeat match goal with
         | |- Forall _ [] => constructor
         | |- Forall _ (_ :: _) =>
             constructor;
             [split;
              [cbn [snd attr_setup]; intros c [= <-]; reflexivity
              |cbn [snd attr_process]; intros p [= <-];
               repeat match goal with
                      | H : Forall _ (_ :: _) |- _ => inversion_clear H
                      end; assumption]|]
         end.
Qed.

End Frame.

(** X9: a run changes no array but the buffer.  Whatever the settings and
    the state it starts in, and whether it ends or raises,
    [display_results] on the kernels of the repository leaves every array
    that existed alive, and each of them but [end_array] with the contents
    it had: the input field is never written. *)
Theorem run_changes_only_the_buffer (cfg : settings) (s e : loc) (σ : state)
    (l : loc) (a : ndarray) :
  heap σ !! l = Some a ->
  is_Some (heap (display_results cfg s e source_modules σ).2 !! l) /\
  (l <> e -> heap (display_results cfg s e source_modules σ).2 !! l = Some a).
Proof.
  intros Hl.
  destruct (display_results cfg s e source_modules σ) as [r σ'] eqn:Hrun.
  exact (framed_display_results cfg s e source_modules
           source_modules_keep_arrays σ r σ' Hrun l a Hl).
Qed.

Lemma run_changes_only_the_buffer_witness :
  let σ := {| heap := base_heap [[decimal 6 10]] 1 1; stdout := [];
              clock := []; trace := [] |} in
  is_Some (heap (display_results source_settings 1%positive 2%positive
                   source_modules σ).2 !! 1%positive) /\
  (1%positive <> 2%positive ->
   heap (display_results source_settings 1%positive 2%positive
           source_modules σ).2 !! 1%positive
   = Some (Field [[decimal 6 10]])).
Proof.
  intros σ.
  apply (run_changes_only_the_buffer source_settings 1%positive 2%positive σ
           1%positive (Field [[decimal 6 10]])).
  reflexivity.
Defined.

(** ** A run on the noise field ends *)

Section Ready.

Variable f : list (list float).
Variables s e : loc.
Hypothesis Hnoise : Forall (Forall (fun v => noise v = true)) f.

Lemma noise_nominal : Forall (Forall (fun v => nominal v = true)) f.
Proof.
  eapply Forall_impl; [exact Hnoise|]. intros r Hr.
  eapply Forall_impl; [exact Hr|]. intros v Hv.
  now apply andb_prop in Hv as [Hv _].
Qed.

Lemma noise_integral : Forall (Forall (fun v => integral_in int32 v = true)) f.
Proof.
  eapply Forall_impl; [exact Hnoise|]. intros r Hr.
  eapply Forall_impl; [exact Hr|]. intros v Hv.
  now apply andb_prop in Hv as [_ Hv].
Qed.

Lemma ready_distinct h : ready f s e h -> s <> e.
Proof. intros [Hs (b & He & _)] ->. congruence. Qed.

Lemma ready_insert h b :
  ready f s e h -> same_shape b f -> ready f s e (<[e := Image uint8 b]> h).
Proof.
  intros Hr Hsh. pose proof (ready_distinct h Hr) as Hse.
  destruct Hr as [Hs _]. unfold ready, heap_t in *. split.
  - now rewrite lookup_insert_ne.
  - exists b. now rewrite lookup_insert_eq.
Qed.

Lemma ready_extends {A} (c : H A) h r h' :
  extends c -> c h = (r, h') -> ready f s e h -> ready f s e h'.
Proof.
  intros Hc Hrun [Hs (b & He & Hsh)]. split.
  - exact (Hc h r h' s _ Hrun Hs).
  - exists b. split; [exact (Hc h r h' e _ Hrun He) | exact Hsh].
Qed.

Lemma in_place_kernels_ready : Forall (returns_ready f s e) in_place_kernels.
Proof.
  pose proof noise_nominal as Hnom.
  pose proof (nominal_storable f Hnom) as Hst.
  unfold in_place_kernels. constructor.
  - intros h Hr. destruct Hr as [Hs (b & He & Hsh)] eqn:Hready.
    exists e, (<[e := Image uint8 (expected f)]> h). split.
    + now apply (nested_loop_process_ok h s e f b).
    + apply ready_insert; [split; eauto|].
      unfold expected. rewrite <- (zip2d_const _ b f Hsh).
      now apply same_shape_zip2d.
  - apply Forall_forall. intros p Hp h Hr.
    destruct Hr as [Hs (b & He & Hsh)] eqn:Hready.
    pose proof (channel0_process_ok h s e f b Hs He Hsh Hnom) as Hall.
    rewrite Forall_forall in Hall.
    exists e, (<[e := Image uint8 (zip2d (put_channel0 pixel) b f)]> h). split.
    + now apply Hall.
    + apply ready_insert; [split; eauto|]. now apply same_shape_zip2d.
Qed.

Lemma returns_new_ready compute :
  (exists r, compute (Field f) = Ok r) ->
  returns_ready f s e (fun s _ => returns_new compute s).
Proof.
  intros [r Hc] h Hr. cbv beta. rewrite returns_new_run.
  destruct Hr as [Hs Hb] eqn:Hready. rewrite Hs, Hc.
  exists (fresh (dom h)), (<[fresh (dom h) := r]> h). split; [reflexivity|].
  apply (ready_extends (alloc r) h (Ok (fresh (dom h)))).
  - apply extends_alloc.
  - reflexivity.
  - split; assumption.
Qed.

Lemma returns_ready_ext (p q : loc -> loc -> H loc) :
  (forall s e h, p s e h = q s e h) ->
  returns_ready f s e q -> returns_ready f s e p.
Proof. intros Hpq Hq h Hr. rewrite Hpq. now apply Hq. Qed.

Lemma registered_ready : Forall (returns_ready f s e) registered.
Proof.
  pose proof in_place_kernels_ready as Hin.
  unfold in_place_kernels, channel0_kernels in Hin.
  repeat match goal with
         | H : Forall _ (_ :: _) |- _ => apply Forall_cons in H as [? H]
         end.
  rewrite registered_list.
  repeat match goal with |- Forall _ _ => constructor end; try assumption.
  - apply (returns_ready_ext _ (fun s _ => returns_new list_comprehension_result s));
      [apply list_comprehension_returns_new|].
    apply returns_new_ready. unfold list_comprehension_result.
    cbn [as_field mbind res_bind].
    rewrite (grid_array_list_ok f noise_integral). cbn [mbind res_bind]. eauto.
  - apply (returns_ready_ext _ (fun s _ => returns_new parallel_result s));
      [apply parallel_returns_new|].
    apply returns_new_ready. unfold parallel_result.
    cbn [as_field mbind res_bind].
    destruct (mapM_process_row f noise_integral) as (rows & -> & _).
    cbn [mbind res_bind]. eauto.
Qed.

End Ready.

Section Quiet.

Variable I : heap_t -> Prop.

Lemma quietly_ret {A} (x : A) : returns_quietly I (mret x : M A).
Proof. intros σ HI. exists x, σ. auto. Qed.

Lemma quietly_log ev : returns_quietly I (log ev).
Proof. intros σ HI. exists tt. eexists. split; [reflexivity|]. auto. Qed.

Lemma quietly_elapsed : returns_quietly I elapsed.
Proof.
  intros σ HI. unfold elapsed.
  destruct (clock σ); eexists; eexists; (split; [reflexivity|]); auto.
Qed.

Lemma quietly_on_heap {A} (c : H A) :
  (forall h, I h -> exists a h', c h = (Ok a, h') /\ I h') ->
  returns_quietly I (on_heap c).
Proof.
  intros Hc σ HI. destruct (Hc _ HI) as (a & h' & Hrun & HI').
  exists a, (set_heap h' σ). unfold on_heap. rewrite Hrun. auto.
Qed.

Lemma quietly_bind {A B} (m : M A) (k : A -> M B) :
  returns_quietly I m -> (forall x, returns_quietly I (k x)) ->
  returns_quietly I (m ≫= k).
Proof.
  intros Hm Hk σ HI. destruct (Hm σ HI) as (a & σ1 & H1 & HI1 & Ho1).
  destruct (Hk a σ1 HI1) as (b & σ2 & H2 & HI2 & Ho2).
  exists b, σ2. unfold mbind, ST_bind. rewrite H1.
  split; [exact H2|]. split; [exact HI2 | congruence].
Qed.

Lemma quietly_for {J} (l : list J) (body : J -> M unit) :
  (forall i, returns_quietly I (body i)) -> returns_quietly I (for_ l body).
Proof.
  intros Hb. induction l as [|i l IH]; cbn [for_].
  - apply quietly_ret.
  - apply quietly_bind; auto.
Qed.

Lemma quietly_if {A} (b : bool) (c1 c2 : M A) :
  returns_quietly I c1 -> returns_quietly I c2 ->
  returns_quietly I (if b then c1 else c2).
Proof. now destruct b. Qed.

End Quiet.

Section Runs.

Variable f : list (list float).
Variables s e : loc.

Lemma quietly_call process :
  returns_ready f s e process ->
  returns_quietly (ready f s e) (call process s e).
Proof.
  intros Hp. unfold call.
  apply quietly_bind.
  { apply quietly_on_heap. intros h Hh. eauto. }
  intros buffer. apply quietly_bind; [apply quietly_log|]. intros _.
  apply quietly_bind; [|intros; apply quietly_ret].
  apply quietly_on_heap. exact Hp.
Qed.

Lemma quietly_timeit process setup sc ec rows cols n :
  0 <= rows -> 0 <= cols ->
  runs_through setup -> assigns_nothing setup = true ->
  returns_ready f s e process ->
  returns_quietly (ready f s e)
    (timeit {| stmt := call process s e; timer_setup := setup;
               globals := timer_globals sc ec rows cols |} n).
Proof.
  intros Hr Hc Hsetup Hpure Hp. unfold timeit. cbn [stmt timer_setup globals].
  apply quietly_bind; [apply quietly_log|]. intros _.
  apply quietly_bind; [apply quietly_log|]. intros _.
  apply quietly_bind.
  { apply quietly_on_heap. intros h Hh.
    destruct (Hsetup sc ec rows cols h Hr Hc) as (ns & h' & Hrun).
    exists ns, h'. split; [exact Hrun|].
    eapply ready_extends; [apply exec_extends, Hpure | exact Hrun | exact Hh]. }
  intros _. apply quietly_bind.
  { apply quietly_for. intros _. now apply quietly_call. }
  intros _. apply quietly_elapsed.
Qed.

Lemma quietly_copy l :
  (forall h, ready f s e h -> is_Some (h !! l)) ->
  returns_quietly (ready f s e) (on_heap (copy l)).
Proof.
  intros Hl. apply quietly_on_heap. intros h Hh.
  destruct (Hl h Hh) as [a Ha].
  exists (fresh (dom h)), (<[fresh (dom h) := a]> h).
  assert (Hrun : copy l h = (Ok (fresh (dom h)), <[fresh (dom h) := a]> h)).
  { unfold copy. st_run. now rewrite Ha. }
  split; [exact Hrun|].
  eapply ready_extends; [apply copy_extends | exact Hrun | exact Hh].
Qed.

(** One benchmark on ready arrays: the measurements return; the division
    by [NUM_TRIALS] decides the outcome. *)
Lemma benchmark_ready cfg setup process σ :
  runs_through setup -> assigns_nothing setup = true ->
  returns_ready f s e process ->
  ready f s e (heap σ) ->
  exists t σ',
    ready f s e (heap σ') /\
    stdout σ' = stdout σ
                  ++ (if DEBUG cfg then ["(profiler statistics)"] else []) /\
    benchmark cfg setup process s e σ
    = (if NUM_TRIALS cfg =? 0 then Err ZeroDivisionError
       else Ok (t, mul (div t (of_int (NUM_TRIALS cfg))) (of_int 1000)), σ').
Proof.
  intros Hsetup Hpure Hp Hσ. unfold benchmark. cbv zeta.
  fold (timer_globals).
  destruct (quietly_copy s (fun h Hh => ex_intro _ _ (proj1 Hh)) σ Hσ)
    as (sc & σ1 & H1 & Hr1 & Ho1).
  unfold mbind at 1, ST_bind at 1. rewrite H1.
  assert (He : forall h, ready f s e h -> is_Some (h !! e)).
  { intros h (_ & b & Hb & _). eauto. }
  destruct (quietly_copy e He σ1 Hr1) as (ec & σ2 & H2 & Hr2 & Ho2).
  unfold mbind at 1, ST_bind at 1. rewrite H2.
  change (<["start_array" := VArray sc]>
          (<["end_array" := VArray ec]>
          (<["GRID_ROW" := VInt (Z.of_nat (SIZE cfg).1)]>
          (<["GRID_COL" := VInt (Z.of_nat (SIZE cfg).2)]> ∅))))
    with (timer_globals sc ec (Z.of_nat (SIZE cfg).1) (Z.of_nat (SIZE cfg).2)).
  set (g := timer_globals sc ec (Z.of_nat (SIZE cfg).1) (Z.of_nat (SIZE cfg).2)).
  assert (Htimeit : forall n, returns_quietly (ready f s e)
            (timeit {| stmt := call process s e; timer_setup := setup;
                       globals := g |} n)).
  { intros n. apply quietly_timeit; auto; lia. }
  assert (Hwarm : returns_quietly (ready f s e)
            (if 0 <? NUM_WARMUP cfg
             then for_ (range (Z.to_nat (NUM_WARMUP cfg)))
                    (fun _ => timeit {| stmt := call process s e;
                                        timer_setup := setup; globals := g |}
                                (NUM_WARMUP cfg) ≫= fun _ => mret tt)
             else mret tt)).
  { apply quietly_if; [|apply quietly_ret]. apply quietly_for. intros _.
    apply quietly_bind; [apply Htimeit | intros; apply quietly_ret]. }
  destruct (Hwarm σ2 Hr2) as ([] & σ3 & H3 & Hr3 & Ho3).
  unfold mbind at 1, ST_bind at 1. rewrite H3.
  assert (Hlog : forall b, returns_quietly (ready f s e)
            (if DEBUG cfg then log (EvProfiler b) else mret tt)).
  { intros b. apply quietly_if; [apply quietly_log | apply quietly_ret]. }
  destruct (Hlog true σ3 Hr3) as ([] & σ4 & H4 & Hr4 & Ho4).
  unfold mbind at 1, ST_bind at 1. rewrite H4.
  destruct (Htimeit (NUM_TRIALS cfg) σ4 Hr4) as (t & σ5 & H5 & Hr5 & Ho5).
  unfold mbind at 1, ST_bind at 1. rewrite H5.
  exists t.
  destruct (DEBUG cfg) eqn:Hdebug.
  - exists {| heap := heap σ5; stdout := stdout σ5 ++ ["(profiler statistics)"];
              clock := clock σ5; trace := trace σ5 ++ [EvProfiler false] |}.
    split; [exact Hr5|]. split; [cbn; congruence|].
    unfold mbind, ST_bind, log, print, lift. cbn.
    destruct (NUM_TRIALS cfg =? 0); reflexivity.
  - exists σ5. split; [exact Hr5|]. split; [rewrite app_nil_r; congruence|].
    unfold mbind, ST_bind, lift. cbn.
    destruct (NUM_TRIALS cfg =? 0); reflexivity.
Qed.

End Runs.


Section RunsToTheEnd.

Variable f : list (list float).
Variables s e : loc.
Hypothesis Hnoise : Forall (Forall (fun v => noise v = true)) f.

Lemma source_modules_measurable :
  Forall (fun kv : string * module => measurable f s e kv.2) source_modules.
Proof.
  pose proof (registered_ready f s e Hnoise) as Hp.
  rewrite registered_list in Hp.
  pose proof source_setups_run as Hs. unfold source_modules, kernel in *.
  repeat match goal with
         | H : Forall _ (_ :: _) |- _ => apply Forall_cons in H as [? H]
         end.
  repeat match goal with |- Forall _ _ => constructor end;
    (eexists; eexists; cbn [attr_setup attr_process];
     split; [reflexivity|]; split; [reflexivity|];
     split; [|split; [reflexivity | assumption]]);
    match goal with
    | H : forall setup, attr_setup _ = Some setup -> _ |- runs_through ?c =>
        solve [apply H; reflexivity]
    end.
Qed.

Lemma run_methods_ready cfg methods results overall σ :
  NUM_TRIALS cfg <> 0 ->
  Forall (fun kv : string * module => measurable f s e kv.2) methods ->
  ready f s e (heap σ) ->
  exists results' overall' σ',
    run_methods cfg s e methods results overall σ
      = (Ok (results', overall'), σ') /\
    ready f s e (heap σ').
Proof.
  intros HT Hm. revert results overall σ.
  induction Hm
    as [|[name m] methods (setup & process & Hs & Hp & Hrun & Hpure & Hret) _ IH];
    intros results overall σ Hσ; cbn [run_methods].
  - exists results, overall, σ. auto.
  - cbn [snd] in *. rewrite Hs, Hp. cbn [getattr].
    unfold mbind at 1, ST_bind at 1, lift at 1.
    unfold mbind at 1, ST_bind at 1, lift at 1.
    destruct (benchmark_ready f s e cfg setup process σ Hrun Hpure Hret Hσ)
      as (t & σ1 & Hσ1 & _ & Hb).
    apply Z.eqb_neq in HT. rewrite HT in Hb.
    unfold mbind at 1, ST_bind at 1. rewrite Hb.
    apply IH. exact Hσ1.
Qed.

Lemma run_methods_no_trials cfg name m methods results overall σ :
  NUM_TRIALS cfg = 0 -> measurable f s e m -> ready f s e (heap σ) ->
  exists σ',
    run_methods cfg s e ((name, m) :: methods) results overall σ
      = (Err ZeroDivisionError, σ') /\
    stdout σ' = stdout σ
                  ++ (if DEBUG cfg then ["(profiler statistics)"] else []).
Proof.
  intros HT (setup & process & Hs & Hp & Hrun & Hpure & Hret) Hσ.
  cbn [run_methods].
  rewrite Hs, Hp. cbn [getattr].
  unfold mbind at 1, ST_bind at 1, lift at 1.
  unfold mbind at 1, ST_bind at 1, lift at 1.
  destruct (benchmark_ready f s e cfg setup process σ Hrun Hpure Hret Hσ)
    as (t & σ1 & _ & Ho & Hb).
  rewrite HT in Hb. cbn [Z.eqb] in Hb.
  unfold mbind at 1, ST_bind at 1. rewrite Hb. eauto.
Qed.

Lemma from_source_measurable (methods : dict module) :
  Forall (fun kv => kv ∈ source_modules) methods ->
  Forall (fun kv : string * module => measurable f s e kv.2) methods.
Proof.
  intros Hm. eapply Forall_impl; [exact Hm|]. intros kv Hkv.
  pose proof source_modules_measurable as Hall.
  rewrite Forall_forall in Hall. now apply Hall.
Qed.

End RunsToTheEnd.

Section BaseArraysCreated.

Lemma create_base_arrays_run (genAsGrid : nat -> nat -> list (list float))
    (r c : nat) (h : heap_t) :
  exists s e,
    create_base_arrays genAsGrid r c h
      = (Ok (s, e), <[e := zeros r c uint8]> (<[s := Field (genAsGrid r c)]> h)) /\
    h !! s = None /\ h !! e = None /\ s <> e.
Proof.
  exists (fresh (dom h)), (fresh (dom (<[fresh (dom h) := Field (genAsGrid r c)]> h))).
  pose proof (fresh_not_allocated h) as H1.
  pose proof (fresh_not_allocated (<[fresh (dom h) := Field (genAsGrid r c)]> h)) as H2.
  unfold heap_t in *.
  split; [reflexivity|]. split; [exact H1|].
  assert (Hne : fresh (dom h)
                <> fresh (dom (<[fresh (dom h) := Field (genAsGrid r c)]> h))).
  { intros Heq. rewrite <- Heq in H2. now rewrite lookup_insert_eq in H2. }
  split; [|exact Hne].
  rewrite lookup_insert_ne in H2 by exact Hne. exact H2.
Qed.

End BaseArraysCreated.

(** X10: [create_base_arrays] creates two new arrays.  It returns two
    different objects, neither of which existed: the field the noise
    generator made, and a [uint8] array of zeros that has, when the
    generator keeps to the size it is asked for, the field's two
    dimensions and three channels; every array that existed is left as it
    was. *)
Theorem create_base_arrays_fresh (genAsGrid : nat -> nat -> list (list float))
    (r c : nat) (h : heap_t) :
  exists s e h',
    create_base_arrays genAsGrid r c h = (Ok (s, e), h') /\
    s <> e /\ h !! s = None /\ h !! e = None /\
    h' !! s = Some (Field (genAsGrid r c)) /\
    h' !! e = Some (zeros r c uint8) /\
    (forall l a, h !! l = Some a -> h' !! l = Some a) /\
    ((0 < r)%nat -> shape (zeros r c uint8) = [r; c; 3%nat]) /\
    (length (genAsGrid r c) = r -> rect c (genAsGrid r c) ->
     ready (genAsGrid r c) s e h').
Proof.
  destruct (create_base_arrays_run genAsGrid r c h) as (s & e & Hrun & Hs & He & Hne).
  exists s, e, (<[e := zeros r c uint8]> (<[s := Field (genAsGrid r c)]> h)).
  unfold heap_t in *.
  assert (Hls : (<[e := zeros r c uint8]> (<[s := Field (genAsGrid r c)]> h)) !! s
                = Some (Field (genAsGrid r c))).
  { rewrite lookup_insert_ne by congruence. now rewrite lookup_insert_eq. }
  assert (Hle : (<[e := zeros r c uint8]> (<[s := Field (genAsGrid r c)]> h)) !! e
                = Some (zeros r c uint8)) by now rewrite lookup_insert_eq.
  split; [exact Hrun|]. split; [exact Hne|]. split; [exact Hs|].
  split; [exact He|]. split; [exact Hls|]. split; [exact Hle|].
  split; [|split].
  - intros l a Hl. rewrite !lookup_insert_ne by congruence. exact Hl.
  - intros Hr. unfold zeros. cbn [shape].
    rewrite length_replicate. destruct r as [|r']; [lia|].
    cbn [replicate width]. now rewrite length_replicate.
  - intros Hlen Hrect. split; [exact Hls|].
    exists (replicate r (replicate c (0, 0, 0))). split; [exact Hle|].
    now apply same_shape_zeros.
Qed.

Section Ends.

Lemma display_results_ready (cfg : settings) (s e : loc)
    (f : list (list float)) (methods : dict module) (σ : state) :
  NUM_TRIALS cfg <> 0 ->
  Forall (Forall (fun v => noise v = true)) f ->
  ready f s e (heap σ) ->
  Forall (fun kv => kv ∈ source_modules) methods ->
  exists σ',
    display_results cfg s e methods σ = (Ok tt, σ') /\ ready f s e (heap σ').
Proof.
  intros HT Hnoise Hσ Hm.
  pose proof (from_source_measurable f s e Hnoise methods Hm) as Hmeas.
  destruct (run_methods_ready f s e cfg methods [] (of_int 0)
              (printed (report_header cfg) σ) HT Hmeas Hσ)
    as (results & overall & σ1 & Hrun & Hσ1).
  rewrite display_results_run, Hrun.
  eexists. split; [reflexivity | exact Hσ1].
Qed.

End Ends.

(** X11: on a noise field the report is printed to the end.  From a state
    in which [start_array] is a field of noise cells and [end_array] an
    8-bit buffer of its shape, with [NUM_TRIALS] other than 0,
    [display_results] on any registry made of kernels of the repository
    returns: no kernel, setup code or measurement raises.  It leaves the
    two arrays as a further run needs them and, with [DEBUG] off, has
    printed the three lines of the header, one line for each kernel and the
    three lines of the footer. *)
Theorem display_results_ends (cfg : settings) (s e : loc)
    (f : list (list float)) (methods : dict module) (σ : state) :
  NUM_TRIALS cfg <> 0 ->
  Forall (Forall (fun v => noise v = true)) f ->
  ready f s e (heap σ) ->
  Forall (fun kv => kv ∈ source_modules) methods ->
  exists σ',
    display_results cfg s e methods σ = (Ok tt, σ') /\
    ready f s e (heap σ') /\
    (DEBUG cfg = false ->
     length (stdout σ') = (length (stdout σ) + 6 + length methods)%nat).
Proof.
  intros HT Hnoise Hσ Hm.
  destruct (display_results_ready cfg s e f methods σ HT Hnoise Hσ Hm)
    as (σ' & Hrun & Hσ').
  exists σ'. split; [exact Hrun|]. split; [exact Hσ'|]. intros Hdebug.
  destruct (display_results_measured cfg s e methods σ tt σ' Hrun)
    as (_ & results & _ & Hlen & _ & Ho).
  rewrite Ho, !length_app, length_map.
  rewrite (Permutation_length (sorted_perm avg_time results)), Hlen.
  unfold profiler_lines, report_header, report_footer. rewrite Hdebug.
  cbn [length]. lia.
Qed.

Lemma display_results_ends_witness :
  let cfg := {| DEBUG := false; SIZE := (1%nat, 1%nat);
                NUM_TRIALS := 2; NUM_WARMUP := 1 |} in
  let σ := {| heap := base_heap [[decimal 6 10]] 1 1; stdout := [];
              clock := []; trace := [] |} in
  exists σ',
    display_results cfg 1%positive 2%positive source_modules σ = (Ok tt, σ') /\
    ready [[decimal 6 10]] 1%positive 2%positive (heap σ') /\
    length (stdout σ') = 14%nat.
Proof.
  intros cfg σ.
  destruct (display_results_ends cfg 1%positive 2%positive [[decimal 6 10]]
              source_modules σ) as (σ' & Hrun & Hready & Hlines).
  - discriminate.
  - repeat constructor.
  - split; [reflexivity|]. exists [[(0, 0, 0)]]. split; [reflexivity|].
    repeat constructor.
  - apply Forall_forall. auto.
  - exists σ'. split; [exact Hrun|]. split; [exact Hready|].
    exact (Hlines eq_refl).
Defined.

(** X12: with [NUM_TRIALS] set to 0 the run ends in [ZeroDivisionError]
    and reports nothing.  On the same arrays, and for a registry with at
    least one kernel of the repository, [display_results] raises
    [ZeroDivisionError], the division of the first kernel's time by the
    number of trials, and has printed the header alone (and, under [DEBUG],
    the profiler's statistics of that kernel). *)
Theorem no_trials_no_report (cfg : settings) (s e : loc)
    (f : list (list float)) (methods : dict module) (σ : state) :
  NUM_TRIALS cfg = 0 ->
  Forall (Forall (fun v => noise v = true)) f ->
  ready f s e (heap σ) ->
  Forall (fun kv => kv ∈ source_modules) methods -> methods <> [] ->
  exists σ',
    display_results cfg s e methods σ = (Err ZeroDivisionError, σ') /\
    stdout σ' = stdout σ ++ report_header cfg ++ profiler_lines cfg 1.
Proof.
  intros HT Hnoise Hσ Hm Hne.
  pose proof (from_source_measurable f s e Hnoise methods Hm) as Hmeas.
  destruct methods as [|[name m] methods]; [congruence|].
  apply Forall_cons in Hmeas as [Hmeas _]. cbn [snd] in Hmeas.
  destruct (run_methods_no_trials f s e cfg name m methods [] (of_int 0)
              (printed (report_header cfg) σ) HT Hmeas Hσ)
    as (σ1 & Hrun & Ho).
  rewrite display_results_run, Hrun.
  exists σ1. split; [reflexivity|].
  rewrite Ho. cbn [printed stdout]. unfold profiler_lines.
  rewrite <- app_assoc. now destruct (DEBUG cfg).
Qed.

Lemma no_trials_no_report_witness :
  let cfg := {| DEBUG := false; SIZE := (1%nat, 1%nat);
                NUM_TRIALS := 0; NUM_WARMUP := 1 |} in
  let σ := {| heap := base_heap [[decimal 6 10]] 1 1; stdout := [];
              clock := []; trace := [] |} in
  exists σ',
    display_results cfg 1%positive 2%positive source_modules σ
      = (Err ZeroDivisionError, σ') /\
    stdout σ' = stdout σ ++ report_header cfg ++ profiler_lines cfg 1.
Proof.
  intros cfg σ.
  apply (no_trials_no_report cfg 1%positive 2%positive [[decimal 6 10]]
           source_modules σ).
  - reflexivity.
  - repeat constructor.
  - split; [reflexivity|]. exists [[(0, 0, 0)]]. split; [reflexivity|].
    repeat constructor.
  - apply Forall_forall. auto.
  - discriminate.
Defined.

(** X13: [python benchmark.py] runs to the end.  When the discovery
    returns kernels of the repository, the noise generator returns a field
    of the size it is asked for, of noise cells, and [NUM_TRIALS] is not 0,
    the program returns.  It has created the two base arrays, the field of
    the generator and a buffer of zeros, in an empty heap, and has then made
    the measurements of every kernel of the registry on them, in its order,
    after which the two arrays are still a field and a buffer of its shape;
    it has one result for each kernel, with the kernel's name, the reading
    of the clock that follows the kernel's warm-up as the total and the
    average computed from it; and what it has printed is the header, the
    profiler's statistics if [DEBUG] is set, the lines of these results in
    the sorted order and the footer with their sum. *)
Theorem program_ends (cfg : settings)
    (genAsGrid : nat -> nat -> list (list float))
    (listdir : list string) (import_module : string -> res module)
    (methods : dict module) (clock : list float) :
  create_methods_list listdir import_module = Ok methods ->
  Forall (fun kv => kv ∈ source_modules) methods ->
  NUM_TRIALS cfg <> 0 ->
  length (genAsGrid (SIZE cfg).1 (SIZE cfg).2) = (SIZE cfg).1 ->
  rect (SIZE cfg).2 (genAsGrid (SIZE cfg).1 (SIZE cfg).2) ->
  Forall (Forall (fun v => noise v = true)) (genAsGrid (SIZE cfg).1 (SIZE cfg).2) ->
  let f := genAsGrid (SIZE cfg).1 (SIZE cfg).2 in
  let W := Z.to_nat (NUM_WARMUP cfg) in
  exists σ' s e h0 (results : list result),
    program cfg genAsGrid listdir import_module (initial clock) = (Ok tt, σ') /\
    create_base_arrays genAsGrid (SIZE cfg).1 (SIZE cfg).2 ∅ = (Ok (s, e), h0) /\
    h0 !! s = Some (Field f) /\
    h0 !! e = Some (zeros (SIZE cfg).1 (SIZE cfg).2 uint8) /\
    all_measurements cfg s e methods h0 = (Ok tt, heap σ') /\
    ready f s e (heap σ') /\
    Interp.clock σ' = drop (length methods * S W) clock /\
    length results = length methods /\
    (forall i name m,
       methods !! i = Some (name, m) ->
       let total := nth (i * S W + W) clock zero in
       results !! i
       = Some (name, mul (div total (of_int (NUM_TRIALS cfg))) (of_int 1000),
               total)) /\
    stdout σ' = report_header cfg
                  ++ profiler_lines cfg (length methods)
                  ++ map result_line (sorted avg_time results)
                  ++ report_footer
                       (foldl add (of_int 0) (map total_time results)).
Proof.
  intros Hc Hm HT Hlen Hrect Hnoise f W. subst f. unfold program.
  rewrite Hc. unfold mbind at 1, ST_bind at 1, lift at 1.
  destruct (create_base_arrays_run genAsGrid (SIZE cfg).1 (SIZE cfg).2 ∅)
    as (s & e & Hrun & Hs & He & Hne).
  unfold mbind at 1, ST_bind at 1, on_heap at 1. cbn [initial heap].
  rewrite Hrun. unfold main.
  set (f := genAsGrid (SIZE cfg).1 (SIZE cfg).2) in *.
  set (h0 := <[e := zeros (SIZE cfg).1 (SIZE cfg).2 uint8]>
               (<[s := Field f]> (∅ : heap_t))) in *.
  set (σ0 := set_heap h0 _).
  assert (Hs0 : h0 !! s = Some (Field f)).
  { unfold h0, heap_t in *. rewrite lookup_insert_ne by congruence.
    now rewrite lookup_insert_eq. }
  assert (He0 : h0 !! e = Some (zeros (SIZE cfg).1 (SIZE cfg).2 uint8)).
  { unfold h0, heap_t in *. now rewrite lookup_insert_eq. }
  assert (Hσ0 : ready f s e (heap σ0)).
  { unfold σ0. cbn [set_heap heap]. split; [exact Hs0|].
    eexists. split; [exact He0|]. now apply same_shape_zeros. }
  destruct (display_results_ready cfg s e f methods σ0 HT Hnoise Hσ0 Hm)
    as (σ' & Hd & Hσ').
  destruct (display_results_measured cfg s e methods σ0 tt σ' Hd)
    as (Hk & results & _ & Hl & Hnew & Ho).
  pose proof (display_results_arrays cfg s e methods σ0 tt σ' Hd) as Harrays.
  exists σ', s, e, h0, results.
  split; [exact Hd|]. split; [reflexivity|]. split; [exact Hs0|].
  split; [exact He0|]. split; [exact Harrays|]. split; [exact Hσ'|].
  split; [exact Hk|]. split; [exact Hl|]. split; [exact Hnew|].
  exact Ho.
Qed.

Lemma program_ends_witness :
  let cfg := {| DEBUG := false; SIZE := (1%nat, 1%nat);
                NUM_TRIALS := 2; NUM_WARMUP := 1 |} in
  let listdir := ["where_method.py"; "__init__.py"; "clip_method.py"] in
  let methods :=
    [("where_method", kernel where_method.setup where_method.process);
     ("clip_method", kernel clip_method.setup clip_method.process)] in
  let clock := [decimal 1 1; decimal 1 2; decimal 1 1; decimal 1 4] in
  exists σ' (results : list result),
    program cfg (fun _ _ => [[decimal 6 10]]) listdir
      (import_from source_modules) (initial clock) = (Ok tt, σ') /\
    all_measurements cfg 1%positive 2%positive methods
      (base_heap [[decimal 6 10]] 1 1) = (Ok tt, heap σ') /\
    ready [[decimal 6 10]] 1%positive 2%positive (heap σ') /\
    results !! 0%nat = Some ("where_method", decimal 250 1, decimal 1 2) /\
    results !! 1%nat = Some ("clip_method", decimal 125 1, decimal 1 4) /\
    stdout σ' = report_header cfg
                  ++ map result_line (sorted avg_time results)
                  ++ report_footer
                       (foldl add (of_int 0) (map total_time results)).
Proof.
  intros cfg listdir methods clock.
  destruct (program_ends cfg (fun _ _ => [[decimal 6 10]]) listdir
              (import_from source_modules) methods clock)
    as (σ' & s & e & h0 & results & Hrun & Hbase & _ & _ & Harrays & Hready
        & _ & _ & Hnew & Ho).
  - reflexivity.
  - unfold source_modules. repeat constructor.
  - discriminate.
  - reflexivity.
  - repeat constructor.
  - repeat constructor.
  - assert (Hb : create_base_arrays (fun _ _ => [[decimal 6 10]]) 1 1 ∅
                 = (Ok (1%positive, 2%positive), base_heap [[decimal 6 10]] 1 1))
      by reflexivity.
    cbn [SIZE cfg fst snd] in Hbase. rewrite Hb in Hbase.
    injection Hbase as <- <- <-.
    exists σ', results.
    split; [exact Hrun|]. split; [exact Harrays|]. split; [exact Hready|].
    split. { etransitivity; [exact (Hnew 0%nat _ _ eq_refl)|].
             vm_compute. reflexivity. }
    split. { etransitivity; [exact (Hnew 1%nat _ _ eq_refl)|].
             vm_compute. reflexivity. }
    exact Ho.
Defined.


(** ** The whole run: calls and clock *)

(** X14: the calls of a whole run.  A run of [display_results] that
    returns has made, for every kernel of the registry in turn, the
    measurements of one benchmark on the two arrays: its heap is what these
    invocations of the kernels' [process], [NUM_WARMUP] squared plus
    [NUM_TRIALS] for each kernel, leave.  The record of the run divides
    into one part for each kernel, in the order of the registry, with that
    number of calls, all on the two arrays, under the kernel's own setup
    code; and the run has taken [NUM_WARMUP] + 1 readings of the clock for
    each kernel. *)
Theorem run_call_count (cfg : settings) (s e : loc) (methods : dict module)
    (σ σ' : state) :
  display_results cfg s e methods σ = (Ok tt, σ') ->
  let W := Z.to_nat (NUM_WARMUP cfg) in
  let T := Z.to_nat (NUM_TRIALS cfg) in
  all_measurements cfg s e methods (heap σ) = (Ok tt, heap σ') /\
  (exists parts,
     trace σ' = trace σ ++ concat parts /\
     Forall2 (fun (kv : string * module) part =>
       exists setup,
         attr_setup kv.2 = Some setup /\
         kernel_part setup s e (W * W + T) part)
       methods parts) /\
  calls (trace σ') = (calls (trace σ) + length methods * (W * W + T))%nat /\
  clock σ' = drop (length methods * S W) (clock σ).
Proof.
  intros Hrun W T.
  split; [exact (display_results_arrays cfg s e methods σ tt σ' Hrun)|].
  rewrite display_results_run in Hrun.
  destruct (run_methods cfg s e methods [] (of_int 0)
              (printed (report_header cfg) σ))
    as [[[results overall]|x] σ1] eqn:Hrm; [|discriminate].
  injection Hrun as <-.
  pose proof (run_methods_parts cfg s e methods _ _ _ _ _ Hrm) as Hparts.
  apply run_methods_calls in Hrm as (Hc & Hk & _).
  cbn [printed trace clock] in *. auto.
Qed.

Lemma run_call_count_witness :
  let cfg := {| DEBUG := false; SIZE := (1%nat, 1%nat);
                NUM_TRIALS := 3; NUM_WARMUP := 2 |} in
  let σ := {| heap := base_heap [[decimal 6 10]] 1 1; stdout := [];
              clock := [decimal 1 10; decimal 2 10; decimal 3 10;
                        decimal 4 10; decimal 5 10; decimal 6 10;
                        decimal 7 10];
              trace := [] |} in
  let methods := [("where_method", kernel where_method.setup where_method.process);
                  ("clip_method", kernel clip_method.setup clip_method.process)] in
  let σ' := (display_results cfg 1%positive 2%positive methods σ).2 in
  all_measurements cfg 1%positive 2%positive methods (heap σ)
    = (Ok tt, heap σ') /\
  (exists parts,
     trace σ' = concat parts /\
     Forall2 (fun (kv : string * module) part =>
       exists setup,
         attr_setup kv.2 = Some setup /\
         kernel_part setup 1%positive 2%positive 7 part)
       methods parts) /\
  calls (trace σ') = 14%nat /\ clock σ' = [decimal 7 10].
Proof.
  intros cfg σ methods σ'.
  apply (run_call_count cfg 1%positive 2%positive methods σ σ').
  vm_compute. reflexivity.
Defined.

(** X15: the results keep each kernel with its own measurement.  In a run
    of the loop over the registry that returns, the entry of the [i]-th
    kernel carries that kernel's name and, as its total time, the reading
    of the clock that follows the kernel's warm-up readings; its average is
    that total divided by [NUM_TRIALS], times 1000.  The readings of the
    warm-up appear in no result. *)
Theorem results_follow_the_registry (cfg : settings) (s e : loc)
    (methods : dict module) (σ σ' : state) (results : list result)
    (overall : float) :
  run_methods cfg s e methods [] (of_int 0) σ = (Ok (results, overall), σ') ->
  let W := Z.to_nat (NUM_WARMUP cfg) in
  length results = length methods /\
  forall i name m,
    methods !! i = Some (name, m) ->
    let total := nth (i * S W + W) (clock σ) zero in
    results !! i
    = Some (name, mul (div total (of_int (NUM_TRIALS cfg))) (of_int 1000), total).
Proof.
  intros Hrun W.
  apply run_methods_calls in Hrun as (_ & _ & Hlen & _ & Hnew).
  split; [exact Hlen|]. intros i name m Hi. exact (Hnew i name m Hi).
Qed.

Lemma results_follow_the_registry_witness :
  let cfg := {| DEBUG := false; SIZE := (1%nat, 1%nat);
                NUM_TRIALS := 3; NUM_WARMUP := 2 |} in
  let σ := {| heap := base_heap [[decimal 6 10]] 1 1; stdout := [];
              clock := [decimal 1 10; decimal 2 10; decimal 3 10;
                        decimal 4 10; decimal 5 10; decimal 6 10;
                        decimal 7 10];
              trace := [] |} in
  let methods := [("where_method", kernel where_method.setup where_method.process);
                  ("clip_method", kernel clip_method.setup clip_method.process)] in
  let out := run_methods cfg 1%positive 2%positive methods [] (of_int 0) σ in
  let results := match out.1 with Ok (results, _) => results | Err _ => [] end in
  length results = 2%nat /\
  forall i name m,
    methods !! i = Some (name, m) ->
    let total := nth (i * 3 + 2) (clock σ) zero in
    results !! i
    = Some (name, mul (div total (of_int 3)) (of_int 1000), total).
Proof.
  intros cfg σ methods out results.
  apply (results_follow_the_registry cfg 1%positive 2%positive methods σ
           out.2 results
           match out.1 with Ok (_, overall) => overall | Err _ => zero end).
  vm_compute. reflexivity.
Defined.

(** ** The width of the report *)

Section Width.

Lemma length_append (s1 s2 : string) :
  String.length (s1 +:+ s2) = (String.length s1 + String.length s2)%nat.
Proof. induction s1 as [|c s1 IH]; simpl; [reflexivity | now rewrite IH]. Qed.

Lemma length_string_of_list_ascii (l : list ascii) :
  String.length (String.string_of_list_ascii l) = length l.
Proof. induction l as [|c l IH]; simpl; [reflexivity | now rewrite IH]. Qed.

Lemma length_ljust (w : nat) (s : string) :
  String.length (Format.ljust w s) = Nat.max w (String.length s).
Proof.
  unfold Format.ljust.
  rewrite length_append, length_string_of_list_ascii, length_replicate. lia.
Qed.

Lemma length_rjust (w : nat) (s : string) :
  String.length (Format.rjust w s) = Nat.max w (String.length s).
Proof.
  unfold Format.rjust.
  rewrite length_append, length_string_of_list_ascii, length_replicate. lia.
Qed.

End Width.

(** X16: the report is a table of 100 columns.  A result line is as wide
    as the separator when the kernel's name has at most 50 characters and
    the two formatted times fit their columns of 35 and 10; a longer name
    or number is never cut: it makes the line longer by what it exceeds its
    column. *)
Theorem result_line_width (name : string) (avg total : float) :
  String.length separator = 100%nat /\
  String.length (result_line (name, avg, total))
  = (100 + (String.length name - 50)
         + (String.length (Format.fixed 4 avg) - 35)
         + (String.length (Format.fixed 2 total) - 10))%nat.
Proof.
  split; [reflexivity|]. unfold result_line.
  rewrite !length_append, length_ljust, !length_rjust. cbn [String.length]. lia.
Qed.

(** ** The kernels on base arrays of any size *)

(** X17: the seven sign-consistent kernels compute one image.  On a
    nominal field of any size with at least one row and one column, and a
    buffer of zeros of that size, [nested_loop_method] and the six other
    kernels that zero the cells that are not positive return, whatever the
    element type of their result, the same image: in channel 0 the integral
    part of 255 times every positive cell and 0 for every other cell, and 0
    in channels 1 and 2. *)
Theorem kernels_agree_on_base_arrays (h : heap_t) (s e : loc)
    (f : list (list float)) (r c : nat) :
  h !! s = Some (Field f) -> h !! e = Some (zeros r c uint8) ->
  length f = r -> rect c f -> (0 < r)%nat -> (0 < c)%nat ->
  Forall (Forall (fun v => nominal v = true)) f ->
  Forall (fun p =>
    output_of p s e h = Some (map2d (fun v => (pixel v, 0, 0)) f))
    (nested_loop_method.process :: sign_consistent).
Proof.
  intros Hs He Hlen Hrect Hr Hc Hnom.
  destruct (kernels_on_base_arrays h s e f r c Hs He Hlen Hrect Hr Hc Hnom)
    as [Hnested Hothers].
  constructor; [exact Hnested | exact Hothers].
Qed.

Lemma kernels_agree_on_base_arrays_witness :
  let f := [[decimal 6 10; SFopp (decimal 1 2)]; [zero; one]] in
  Forall (fun p =>
    output_of p 1%positive 2%positive (base_heap f 2 2)
    = Some [[(153, 0, 0); (0, 0, 0)]; [(0, 0, 0); (255, 0, 0)]])
    (nested_loop_method.process :: sign_consistent).
Proof.
  intros f.
  apply (kernels_agree_on_base_arrays (base_heap f 2 2) 1%positive 2%positive
           f 2 2).
  - reflexivity.
  - reflexivity.
  - reflexivity.
  - repeat constructor.
  - lia.
  - lia.
  - repeat constructor.
Defined.

(** ** The names the setup codes use *)

Section SetupNames.

Ltac local_lookup :=
  repeat match goal with
         | |- context [@lookup string value namespace _ ?x ?l] =>
             lazymatch l with
             | context [@empty namespace _] =>
                 let v := eval vm_compute in (@lookup string value namespace _ x l) in
                 replace (@lookup string value namespace _ x l) with v
                   by (vm_compute; reflexivity)
             end
         end.

Lemma dask_setup_run (g : namespace) (h : heap_t) :
  exec g dask_array_method.setup ∅ h
  = match g !! "GRID_ROW" with
    | None => (Err NameError, h)
    | Some vr =>
        match as_size vr with
        | Err x => (Err x, h)
        | Ok r =>
            match g !! "GRID_COL" with
            | None => (Err NameError, h)
            | Some vc =>
                match as_size vc with
                | Err x => (Err x, h)
                | Ok c =>
                    (Ok (<["new_end_array" := VArray (fresh (dom h))]>
                           (<["numba" := VModule "numba"]>
                           (<["zeros" := VImported "numpy" "zeros"]>
                           (<["uint64" := VImported "numpy" "uint64"]> ∅)))),
                     <[fresh (dom h) := zeros r c uint64]> h)
                end
            end
        end
    end.
Proof.
  unfold dask_array_method.setup. cbn [exec exec_stmt foldr].
  unfold mbind, ST_bind, mret, ST_ret, lift, lookup_name. cbv beta.
  local_lookup. cbn [mbind res_bind].
  destruct (g !! "GRID_ROW") as [vr|]; cbn [mbind res_bind]; [|reflexivity].
  destruct (as_size vr) as [r|x]; cbn [mbind res_bind]; [|reflexivity].
  destruct (g !! "GRID_COL") as [vc|]; cbn [mbind res_bind]; [|reflexivity].
  destruct (as_size vc) as [c|x]; cbn [mbind res_bind]; [|reflexivity].
  local_lookup. reflexivity.
Qed.

Lemma as_size_of_nat (n : nat) : as_size (VInt (Z.of_nat n)) = Ok n.
Proof.
  unfold as_size. rewrite (proj2 (Z.leb_le 0 (Z.of_nat n))) by lia.
  now rewrite Nat2Z.id.
Qed.

End SetupNames.

(** X18: seven setup codes need nothing of the timer's namespace.  In
    every namespace the setup codes of all kernels but [dask_array_method]
    run through, and they create no array; that of [dask_array_method]
    raises [NameError] in a namespace without [GRID_ROW]. *)
Theorem setups_and_the_namespace (g : namespace) (h : heap_t) :
  Forall (fun setup => exists ns, exec g setup ∅ h = (Ok ns, h))
    self_contained_setups /\
  (g !! "GRID_ROW" = None ->
   exec g dask_array_method.setup ∅ h = (Err NameError, h)).
Proof.
  split.
  - unfold self_contained_setups.
    repeat match goal with |- Forall _ _ => constructor end;
      eexists; reflexivity.
  - intros Hr. now rewrite dask_setup_run, Hr.
Qed.

Lemma setups_and_the_namespace_witness :
  Forall (fun setup => exists ns, exec ∅ setup ∅ (∅ : heap_t) = (Ok ns, ∅))
    self_contained_setups /\
  exec ∅ dask_array_method.setup ∅ (∅ : heap_t) = (Err NameError, ∅).
Proof.
  destruct (setups_and_the_namespace ∅ ∅) as [Hall Hdask].
  split; [exact Hall | apply Hdask; reflexivity].
Defined.

(** X19: the setup code of [dask_array_method] allocates on every run.  In
    a namespace that binds [GRID_ROW] and [GRID_COL] to sizes, as the one
    [benchmark] builds does, it creates a new [uint64] array of zeros of
    that size and binds it to [new_end_array]; every array that existed is
    left as it was. *)
Theorem dask_setup_allocates (g : namespace) (h : heap_t) (r c : nat) :
  g !! "GRID_ROW" = Some (VInt (Z.of_nat r)) ->
  g !! "GRID_COL" = Some (VInt (Z.of_nat c)) ->
  exists ns l,
    exec g dask_array_method.setup ∅ h = (Ok ns, <[l := zeros r c uint64]> h) /\
    h !! l = None /\
    ns !! "new_end_array" = Some (VArray l).
Proof.
  intros Hr Hc. rewrite dask_setup_run, Hr, Hc, !as_size_of_nat.
  eexists. exists (fresh (dom h)). split; [reflexivity|].
  split; [apply fresh_not_allocated|]. apply lookup_insert_eq.
Qed.

Lemma dask_setup_allocates_witness :
  let g := timer_globals 3%positive 4%positive 2 1 in
  let h := base_heap [[decimal 6 10]; [decimal 6 10]] 2 1 in
  exists ns l,
    exec g dask_array_method.setup ∅ h
      = (Ok ns, <[l := zeros 2 1 uint64]> h) /\
    h !! l = None /\
    ns !! "new_end_array" = Some (VArray l).
Proof.
  intros g h.
  apply (dask_setup_allocates g h 2 1); reflexivity.
Defined.

(** ** The averages of a run *)

(** X20: in a run no average is NaN, so the report is in ascending order.
    When the readings of the clock are finite floats and [NUM_TRIALS] is a
    positive integer below [2^53], every average the loop over the
    registry computes is a number, and the results, sorted by it, have
    every average at most the next one. *)
Theorem averages_are_ordered (cfg : settings) (s e : loc)
    (methods : dict module) (σ σ' : state) (results : list result)
    (overall : float) :
  run_methods cfg s e methods [] (of_int 0) σ = (Ok (results, overall), σ') ->
  0 < NUM_TRIALS cfg < 2 ^ 53 ->
  Forall (fun t => is_finite t = true) (clock σ) ->
  Forall (fun r => is_nan (avg_time r) = false) results /\
  ascending (sorted avg_time results).
Proof.
  intros Hrun HT Hclock.
  apply run_methods_calls in Hrun as (_ & _ & Hlen & _ & Hnew).
  cbn [length Nat.add] in Hlen, Hnew.
  assert (Hnan : Forall (fun r => is_nan (avg_time r) = false) results).
  { apply Forall_lookup. intros i r Hr.
    destruct (lookup_lt_is_Some_2 methods i) as [[name m] Hm].
    { rewrite <- Hlen. eapply lookup_lt_Some. exact Hr. }
    pose proof (Hnew i name m Hm) as Hri. cbv zeta in Hri.
    assert (Heq : Some r = Some (name,
              mul (div (nth (i * S (Z.to_nat (NUM_WARMUP cfg))
                            + Z.to_nat (NUM_WARMUP cfg)) (clock σ) zero)
                     (of_int (NUM_TRIALS cfg))) (of_int 1000),
              nth (i * S (Z.to_nat (NUM_WARMUP cfg))
                   + Z.to_nat (NUM_WARMUP cfg)) (clock σ) zero)).
    { etransitivity; [symmetry; exact Hr | exact Hri]. }
    injection Heq as ->. unfold avg_time. cbn [fst snd].
    apply avg_not_nan; [exact HT|].
    rewrite nth_lookup.
    destruct (clock σ !! _) as [t|] eqn:Ht; [|reflexivity].
    exact (proj1 (Forall_lookup _ _) Hclock _ _ Ht). }
  split; [exact Hnan|].
  intros i a b Ha Hb.
  eapply (chain_lookup avg_time); [|exact Ha|exact Hb].
  apply sorted_chain. exact Hnan.
Qed.

Lemma averages_are_ordered_witness :
  let cfg := {| DEBUG := false; SIZE := (1%nat, 1%nat);
                NUM_TRIALS := 3; NUM_WARMUP := 2 |} in
  let σ := {| heap := base_heap [[decimal 6 10]] 1 1; stdout := [];
              clock := [decimal 1 10; decimal 2 10; decimal 9 10;
                        decimal 4 10; decimal 5 10; decimal 6 10;
                        decimal 7 10];
              trace := [] |} in
  let methods := [("where_method", kernel where_method.setup where_method.process);
                  ("clip_method", kernel clip_method.setup clip_method.process)] in
  let out := run_methods cfg 1%positive 2%positive methods [] (of_int 0) σ in
  let results := match out.1 with Ok (results, _) => results | Err _ => [] end in
  Forall (fun r => is_nan (avg_time r) = false) results /\
  ascending (sorted avg_time results).
Proof.
  intros cfg σ methods out results.
  apply (averages_are_ordered cfg 1%positive 2%positive methods σ
           out.2 results
           match out.1 with Ok (_, overall) => overall | Err _ => zero end).
  - vm_compute. reflexivity.
  - cbn. lia.
  - repeat constructor.
Defined.

(** ** One cell of the parallel kernel *)

Section ProcessCell.

Lemma round_aux_sign (sx : bool) (mx ex : Z) (lx : location) :
  0 <= mx ->
  match binary_round_aux prec emax sx mx ex lx with
  | S754_zero s | S754_infinity s | S754_finite s _ _ => s = sx
  | S754_nan => False
  end.
Proof.
  intros Hm. unfold binary_round_aux.
  pose proof (shr_fexp_nonneg mx ex lx Hm) as H1.
  destruct (shr_fexp prec emax mx ex lx) as [mrs' e']. cbn [fst] in H1.
  pose proof (shr_fexp_nonneg
                (round_nearest_even (shr_m mrs') (loc_of_shr_record mrs'))
                e' loc_Exact (round_nearest_even_nonneg _ _ H1)) as H2.
  destruct (shr_fexp prec emax _ e' loc_Exact) as [mrs'' e'']. cbn [fst] in H2.
  destruct (shr_m mrs'') as [|m|m]; [reflexivity| |lia].
  now destruct (e'' <=? emax - prec).
Qed.

Lemma int_255_positive (v : float) (z : Z) :
  ltb (of_int 0) v = true -> int (mul (of_int 255) v) = Ok z -> 0 <= z.
Proof.
  intros Hpos Hz.
  destruct v as [sv|sv| |sv mv ev].
  - destruct sv; discriminate Hpos.
  - destruct sv; [discriminate Hpos | discriminate Hz].
  - discriminate Hpos.
  - destruct sv; [discriminate Hpos|].
    change (of_int 255) with f255 in Hz. unfold f255, mul, SFmul in Hz.
    cbn [xorb] in Hz.
    match type of Hz with
    | int (binary_round_aux _ _ _ ?m ?e _) = _ =>
        pose proof (round_aux_sign false m e loc_Exact ltac:(lia)) as Hs
    end.
    destruct (binary_round_aux prec emax false _ _ loc_Exact) as [s|s| |s m e].
    + now injection Hz as <-.
    + discriminate Hz.
    + contradiction.
    + change (s = false) in Hs. rewrite Hs in Hz. cbn in Hz.
      injection Hz as <-. apply Z.shiftl_nonneg. lia.
Qed.

End ProcessCell.

(** X21: [parallel_method.process_cell] never returns a negative value.
    For every float, a NaN, an infinity or a negative number included, the
    cell it returns has 0 in channels 1 and 2 and a channel 0 that is not
    negative; a cell that is not positive, a NaN with them, gives
    [(0, 0, 0)]; plus infinity raises [OverflowError]. *)
Theorem process_cell_never_negative (v : float) :
  (forall c, parallel_method.process_cell v = Ok c ->
     0 <= c.1.1 /\ c.1.2 = 0 /\ c.2 = 0) /\
  (ltb (of_int 0) v = false -> parallel_method.process_cell v = Ok (0, 0, 0)) /\
  (v = S754_infinity false ->
   parallel_method.process_cell v = Err OverflowError).
Proof.
  unfold parallel_method.process_cell. split; [|split].
  - intros c Hc. destruct (ltb (of_int 0) v) eqn:Hpos.
    + destruct (int (mul (of_int 255) v)) as [z|x] eqn:Hz; [|discriminate].
      cbn [mbind res_bind] in Hc. injection Hc as <-. cbn [fst snd].
      split; [|auto]. exact (int_255_positive v z Hpos Hz).
    + cbn [mbind res_bind] in Hc. injection Hc as <-. cbn. lia.
  - intros ->. reflexivity.
  - intros ->. reflexivity.
Qed.

Lemma process_cell_never_negative_witness :
  parallel_method.process_cell (SFopp (decimal 1 2)) = Ok (0, 0, 0) /\
  parallel_method.process_cell S754_nan = Ok (0, 0, 0) /\
  parallel_method.process_cell (S754_infinity false) = Err OverflowError /\
  forall c, parallel_method.process_cell (decimal 6 10) = Ok c ->
    0 <= c.1.1 /\ c.1.2 = 0 /\ c.2 = 0.
Proof.
  split; [|split; [|split]].
  - apply (process_cell_never_negative (SFopp (decimal 1 2))). reflexivity.
  - apply (process_cell_never_negative S754_nan). reflexivity.
  - apply (process_cell_never_negative (S754_infinity false)). reflexivity.
  - apply (process_cell_never_negative (decimal 6 10)).
Defined.

(** ** What every run does *)

Section Always.

Variable R : state -> state -> Prop.
Hypothesis R_refl : forall σ, R σ σ.
Hypothesis R_trans : forall σ1 σ2 σ3, R σ1 σ2 -> R σ2 σ3 -> R σ1 σ3.

Lemma always_ret {A} (x : A) : always R (mret x : M A).
Proof. intros σ r σ' [= <- <-]. apply R_refl. Qed.

Lemma always_lift {A} (x : res A) : always R (lift x : M A).
Proof. intros σ r σ' [= <- <-]. apply R_refl. Qed.

Lemma always_bind {A B} (m : M A) (k : A -> M B) :
  always R m -> (forall x, always R (k x)) -> always R (m ≫= k).
Proof.
  intros Hm Hk σ r σ' Hrun. unfold mbind, ST_bind in Hrun.
  destruct (m σ) as [[x|ex] σ1] eqn:Hmσ.
  - eapply R_trans; [eapply Hm; exact Hmσ | eapply Hk; exact Hrun].
  - injection Hrun as <- <-. eapply Hm. exact Hmσ.
Qed.

Lemma always_for {I} (l : list I) (body : I -> M unit) :
  (forall i, always R (body i)) -> always R (for_ l body).
Proof.
  intros Hb. induction l as [|i l IH]; cbn [for_].
  - apply always_ret.
  - apply always_bind; auto.
Qed.

Lemma always_if {A} (b : bool) (c1 c2 : M A) :
  always R c1 -> always R c2 -> always R (if b then c1 else c2).
Proof. now destruct b. Qed.

(** The steps of one benchmark, from what [R] makes of the elementary
    ones. *)
Hypothesis R_on_heap : forall A (c : H A), always R (on_heap c).
Hypothesis R_elapsed : always R elapsed.

Lemma always_timeit timer n :
  (forall ev, (forall s e b, ev <> EvCall s e b) -> always R (log ev)) ->
  always R (stmt timer) -> always R (timeit timer n).
Proof.
  intros Hlog Hs. unfold timeit.
  apply always_bind; [apply Hlog; discriminate|]. intros _.
  apply always_bind; [apply Hlog; discriminate|]. intros _.
  apply always_bind; [apply R_on_heap|]. intros _.
  apply always_bind; [apply always_for; intros _; exact Hs|].
  intros _. apply R_elapsed.
Qed.

Lemma always_benchmark cfg setup process s e :
  (forall ev, (forall s e b, ev <> EvCall s e b) -> always R (log ev)) ->
  always R (call process s e) ->
  always R (if DEBUG cfg
            then log (EvProfiler false) ≫= fun _ => print "(profiler statistics)"
            else mret tt) ->
  always R (benchmark cfg setup process s e).
Proof.
  intros Hlog Hcall Hprint. unfold benchmark. cbv zeta.
  apply always_bind; [apply R_on_heap|]. intros start_copy.
  apply always_bind; [apply R_on_heap|]. intros end_copy.
  apply always_bind.
  { apply always_if; [|apply always_ret].
    apply always_for. intros _.
    apply always_bind; [|intros; apply always_ret].
    now apply always_timeit. }
  intros _. apply always_bind.
  { apply always_if; [apply Hlog; discriminate | apply always_ret]. }
  intros _. apply always_bind; [now apply always_timeit|].
  intros elapsed_time. apply always_bind; [exact Hprint|].
  intros _. apply always_bind; [apply always_lift|].
  intros avg. apply always_ret.
Qed.

Lemma always_run_methods cfg s e methods results overall :
  (forall setup process, always R (benchmark cfg setup process s e)) ->
  always R (run_methods cfg s e methods results overall).
Proof.
  intros Hb. revert results overall.
  induction methods as [|[name m] methods IH]; intros results overall;
    cbn [run_methods].
  - apply always_ret.
  - apply always_bind; [apply always_lift|]. intros setup.
    apply always_bind; [apply always_lift|]. intros process.
    apply always_bind; [apply Hb|]. intros [total avg]. apply IH.
Qed.

End Always.

Section CallsOn.

Variables s e : loc.

Lemma calls_on_refl σ : calls_on s e σ σ.
Proof. exists []. now rewrite app_nil_r. Qed.

Lemma calls_on_trans σ1 σ2 σ3 :
  calls_on s e σ1 σ2 -> calls_on s e σ2 σ3 -> calls_on s e σ1 σ3.
Proof.
  intros (t1 & H1 & Hc1) (t2 & H2 & Hc2). exists (t1 ++ t2).
  rewrite H2, H1, <- app_assoc. split; [reflexivity|].
  now rewrite forallb_app, Hc1, Hc2.
Qed.

Lemma calls_on_same σ σ' : trace σ' = trace σ -> calls_on s e σ σ'.
Proof. intros Ht. exists []. now rewrite app_nil_r. Qed.

Lemma calls_on_on_heap A (c : H A) : always (calls_on s e) (on_heap c).
Proof.
  intros σ r σ' Hrun. apply on_heap_run in Hrun as (_ & Ht & _).
  now apply calls_on_same.
Qed.

Lemma calls_on_elapsed : always (calls_on s e) elapsed.
Proof.
  intros σ r σ'. unfold elapsed.
  destruct (clock σ); intros [= <- <-]; now apply calls_on_same.
Qed.

Lemma calls_on_print line : always (calls_on s e) (print line).
Proof. intros σ r σ' [= <- <-]. now apply calls_on_same. Qed.

Lemma calls_on_log ev :
  (forall s' e' b, ev <> EvCall s' e' b) -> always (calls_on s e) (log ev).
Proof.
  intros Hev σ r σ' [= <- <-]. exists [ev]. split; [reflexivity|].
  cbn. destruct ev as [n|c|s' e' b|on]; try reflexivity.
  now destruct (Hev s' e' b).
Qed.

Lemma calls_on_bind {A B} (m : M A) (k : A -> M B) :
  always (calls_on s e) m -> (forall x, always (calls_on s e) (k x)) ->
  always (calls_on s e) (m ≫= k).
Proof. apply (always_bind (calls_on s e) calls_on_trans). Qed.

Lemma calls_on_call process : always (calls_on s e) (call process s e).
Proof.
  unfold call.
  apply calls_on_bind; [apply calls_on_on_heap|]. intros buffer.
  apply calls_on_bind.
  { intros σ r σ' [= <- <-]. exists [EvCall s e buffer].
    split; [reflexivity|]. cbn. now rewrite !Pos.eqb_refl. }
  intros _. apply calls_on_bind; [apply calls_on_on_heap|].
  intros _. apply (always_ret (calls_on s e) calls_on_refl).
Qed.

Lemma calls_on_display_results cfg methods :
  always (calls_on s e) (display_results cfg s e methods).
Proof.
  unfold display_results.
  apply calls_on_bind; [apply calls_on_print|]. intros _.
  apply calls_on_bind; [apply calls_on_print|]. intros _.
  apply calls_on_bind; [apply calls_on_print|]. intros _.
  apply calls_on_bind.
  { apply (always_run_methods (calls_on s e) calls_on_refl calls_on_trans).
    intros setup process.
    apply (always_benchmark (calls_on s e) calls_on_refl calls_on_trans
             calls_on_on_heap calls_on_elapsed).
    - apply calls_on_log.
    - apply calls_on_call.
    - apply always_if; [|apply (always_ret (calls_on s e) calls_on_refl)].
      apply calls_on_bind; [apply calls_on_log; discriminate|].
      intros _. apply calls_on_print. }
  intros [results overall].
  apply calls_on_bind.
  { apply (always_for (calls_on s e) calls_on_refl calls_on_trans).
    intros r. apply calls_on_print. }
  intros _.
  apply calls_on_bind; [apply calls_on_print|]. intros _.
  apply calls_on_bind; [apply calls_on_print|]. intros _.
  apply calls_on_print.
Qed.

End CallsOn.

(** X22: every call of a run is on the same two arrays.  Whatever the
    registry, the settings and the state, and whether the run ends or
    raises, each call of a kernel's [process] that [display_results] makes
    passes [start_array] and [end_array] themselves. *)
Theorem every_call_on_the_same_arrays (cfg : settings) (s e : loc)
    (methods : dict module) (σ : state) :
  exists t,
    trace (display_results cfg s e methods σ).2 = trace σ ++ t /\
    forallb (call_on s e) t = true.
Proof.
  destruct (display_results cfg s e methods σ) as [r σ'] eqn:Hrun.
  exact (calls_on_display_results s e cfg methods σ r σ' Hrun).
Qed.

Section Silent.

Lemma silent_refl σ : silent σ σ.
Proof. reflexivity. Qed.

Lemma silent_trans σ1 σ2 σ3 : silent σ1 σ2 -> silent σ2 σ3 -> silent σ1 σ3.
Proof. unfold silent. congruence. Qed.

Lemma silent_on_heap A (c : H A) : always silent (on_heap c).
Proof.
  intros σ r σ' Hrun. unfold silent.
  now apply on_heap_run in Hrun as (_ & _ & _ & ->).
Qed.

Lemma silent_elapsed : always silent elapsed.
Proof.
  intros σ r σ'. unfold elapsed. destruct (clock σ); now intros [= <- <-].
Qed.

Lemma silent_log ev : always silent (log ev).
Proof. intros σ r σ' [= <- <-]. reflexivity. Qed.

Lemma silent_run_methods cfg s e methods results overall :
  DEBUG cfg = false ->
  always silent (run_methods cfg s e methods results overall).
Proof.
  intros Hdebug.
  apply (always_run_methods silent silent_refl silent_trans).
  intros setup process.
  apply (always_benchmark silent silent_refl silent_trans silent_on_heap
           silent_elapsed).
  - intros ev _. apply silent_log.
  - unfold call.
    apply (always_bind silent silent_trans); [apply silent_on_heap|].
    intros buffer.
    apply (always_bind silent silent_trans); [apply silent_log|].
    intros _.
    apply (always_bind silent silent_trans); [apply silent_on_heap|].
    intros _. apply (always_ret silent silent_refl).
  - rewrite Hdebug. apply (always_ret silent silent_refl).
Qed.

End Silent.

(** X23: a run that raises reports nothing.  When [display_results] ends
    in an exception, whichever kernel raised it and however many kernels
    had been measured before, it has printed the three lines of the header
    and, under [DEBUG], statistics of the profiler, and nothing else: no
    result line and no footer. *)
Theorem failed_run_reports_nothing (cfg : settings) (s e : loc)
    (methods : dict module) (σ σ' : state) (x : exn) :
  display_results cfg s e methods σ = (Err x, σ') ->
  exists k, stdout σ' = stdout σ ++ report_header cfg ++ profiler_lines cfg k.
Proof.
  intros Hrun. rewrite display_results_run in Hrun.
  destruct (run_methods cfg s e methods [] (of_int 0)
              (printed (report_header cfg) σ))
    as [[[results overall]|x'] σ1] eqn:Hrm; [discriminate|].
  injection Hrun as Hx Hσ. subst x' σ1. unfold profiler_lines.
  destruct (DEBUG cfg) eqn:Hdebug.
  - destruct (statistics_run_methods cfg s e methods [] (of_int 0) _ _ _ Hrm)
      as [k Hk].
    exists k. etransitivity; [exact Hk|]. cbn [printed stdout].
    now rewrite <- app_assoc.
  - exists 0%nat.
    pose proof (silent_run_methods cfg s e methods [] (of_int 0) Hdebug _ _ _ Hrm)
      as Hs.
    unfold silent in Hs. etransitivity; [exact Hs|]. cbn [printed stdout].
    now rewrite app_nil_r.
Qed.

Lemma failed_run_reports_nothing_witness :
  let cfg := {| DEBUG := false; SIZE := (1%nat, 1%nat);
                NUM_TRIALS := 2; NUM_WARMUP := 1 |} in
  let σ := {| heap := base_heap [[S754_nan]] 1 1; stdout := [];
              clock := []; trace := [] |} in
  let methods :=
    [("where_method", kernel where_method.setup where_method.process);
     ("list_comprehension_method",
      kernel list_comprehension_method.setup list_comprehension_method.process)] in
  let σ' := (display_results cfg 1%positive 2%positive methods σ).2 in
  exists k, stdout σ' = stdout σ ++ report_header cfg ++ profiler_lines cfg k.
Proof.
  intros cfg σ methods σ'.
  apply (failed_run_reports_nothing cfg 1%positive 2%positive methods σ σ'
           ValueError).
  vm_compute. reflexivity.
Defined.

(** ** Fields with NaN cells *)

Section SignTesting.

Lemma piecewise_is_where s e h :
  piecewise_method.process s e h = where_method.process s e h.
Proof.
  change where_method.process with (assign where_method.new_end_array).
  change piecewise_method.process with (assign piecewise_method.rhs).
  apply assign_ext. intros f a _.
  now rewrite piecewise_rhs_cells, where_rhs_cells.
Qed.

End SignTesting.

(** X24: five kernels take a NaN cell for a cell that is not positive.
    [nested_loop_method], [where_method], [piecewise_method],
    [dask_array_method] and [parallel_method] test the sign of a cell
    before they convert its 255-fold; on a field of any size with at least
    one row and one column whose positive cells have a 255-fold that 8 bits
    hold, NaN cells allowed, and a buffer of zeros of that size, they all
    return the same image, with [(0, 0, 0)] at every cell that is not
    positive. *)
Theorem sign_testing_kernels_agree (h : heap_t) (s e : loc)
    (f : list (list float)) (r c : nat) :
  h !! s = Some (Field f) -> h !! e = Some (zeros r c uint8) ->
  length f = r -> rect c f -> (0 < r)%nat -> (0 < c)%nat ->
  Forall (Forall (fun v => storable v = true)) f ->
  exists out,
    Forall (fun p => output_of p s e h = Some out) sign_testing_kernels /\
    forall x y v,
      cell_at f x y = Some v ->
      cell_at out x y = Some (pixel v, 0, 0) /\
      (ltb (of_int 0) v = false -> pixel v = 0).
Proof.
  intros Hs He Hlen Hrect Hr Hc Hst. exists (expected f).
  pose proof (same_shape_zeros (0, 0, 0) f r c Hlen Hrect) as Hsh.
  assert (Hw : where_method.process s e h
               = (Ok e, <[e := Image uint8 (expected f)]> h)).
  { rewrite (where_process_ok h s e f _ Hs He Hsh Hst).
    unfold expected. now rewrite (zip2d_zeros pixel f r c Hlen Hrect). }
  split.
  - unfold sign_testing_kernels.
    repeat match goal with |- Forall _ _ => constructor end.
    + eapply output_of_in_place.
      now apply (nested_loop_process_ok h s e f _ Hs He).
    + eapply output_of_in_place. exact Hw.
    + eapply output_of_in_place. rewrite piecewise_is_where. exact Hw.
    + eapply output_of_in_place.
      rewrite (dask_array_process_ok h s e f _ Hs He Hsh Hst).
      now rewrite (zip2d_zeros pixel f r c Hlen Hrect).
    + unfold output_of. rewrite (parallel_process_ok h s e f Hs Hst).
      unfold heap_t in *. rewrite lookup_insert_eq.
      destruct f as [|[|v rf] f]; simpl in *; try lia; [|reflexivity].
      inversion Hrect; subst; simpl in *; lia.
  - intros x y v Hv. split; [|apply pixel_nonpositive].
    unfold cell_at, expected, map2d in *.
    destruct (f !! x) as [rf|] eqn:Hx; [|discriminate]. simpl in Hv.
    rewrite list_lookup_fmap, Hx. simpl.
    now rewrite list_lookup_fmap, Hv.
Qed.

Lemma sign_testing_kernels_agree_witness :
  let f := [[decimal 6 10; S754_nan]; [SFopp (decimal 1 2); one]] in
  exists out,
    Forall (fun p => output_of p 1%positive 2%positive (base_heap f 2 2) = Some out)
      sign_testing_kernels /\
    forall x y v,
      cell_at f x y = Some v ->
      cell_at out x y = Some (pixel v, 0, 0) /\
      (ltb (of_int 0) v = false -> pixel v = 0).
Proof.
  intros f.
  apply (sign_testing_kernels_agree (base_heap f 2 2) 1%positive 2%positive
           f 2 2).
  - reflexivity.
  - reflexivity.
  - reflexivity.
  - repeat constructor.
  - lia.
  - lia.
  - repeat constructor.
Defined.
